(** * Watch_dog: the webcam capture loop of [camera_capture/camera.py]

    A shallow embedding of [camera.py] and the properties of its capture
    control loop.  The script drives four external collaborators: the camera
    ([cv2.VideoCapture]), the window and keyboard ([cv2.imshow],
    [cv2.waitKey]), the clocks ([time.time], [datetime.now]) and the file
    system ([Path.mkdir], [cv2.imwrite]).  Their answers are taken from an
    environment record; every call is logged, in program order, in a trace of
    events.  Loops that need not end (the outer [while] on read failures, the
    countdown [while True]) are interpreted with fuel, and a computation that
    runs out of it still returns the state and the trace it got to.

    [parse_args] is not modelled: its result, the [Args] record, is the input
    of a run.  Paths are POSIX paths.  The only [KeyboardInterrupt] is the
    one the script raises itself on [q]; one delivered from the terminal is
    outside the model. *)

From Stdlib Require Import ZArith NArith List String Ascii Bool Lia.
From Stdlib Require Import DecimalString DecimalN.
Import ListNotations.

Open Scope string_scope.
Open Scope Z_scope.

(** ** Python strings and number formatting *)

Module PyStr.

(** Decimal digits of a natural number, no leading zero (["0"] for zero). *)
Definition dec (n : N) : string := NilZero.string_of_uint (N.to_uint n).

(** [str(z)] and the [{z}] field of an f-string. *)
Definition str_of_Z (z : Z) : string :=
  if z <? 0 then "-" ++ dec (Z.abs_N z) else dec (Z.to_N z).

Fixpoint zeros (n : nat) : string :=
  match n with
  | O => ""
  | S n' => String "0" (zeros n')
  end.

(** [s.zfill(w)] on a string of digits. *)
Definition zfill (w : nat) (s : string) : string :=
  zeros (w - String.length s) ++ s.

(** The format spec [{z:0wd}]: zero fill to width [w], the sign counted in
    the width and written before the zeros. *)
Definition fmt_0d (w : nat) (z : Z) : string :=
  if z <? 0 then "-" ++ zfill (w - 1) (dec (Z.abs_N z))
  else zfill w (dec (Z.to_N z)).

Definition is_digit (c : ascii) : bool :=
  let n := nat_of_ascii c in (48 <=? n)%nat && (n <=? 57)%nat.

Fixpoint all_digits (s : string) : bool :=
  match s with
  | "" => true
  | String c r => is_digit c && all_digits r
  end.

Fixpoint has_slash (s : string) : bool :=
  match s with
  | "" => false
  | String c r => Ascii.eqb c "/" || has_slash r
  end.

End PyStr.

(** ** [pathlib]: pure POSIX paths

    [args.output] is a [Path] and [build_filename] joins it with the file
    name by [/].  A path is its root (empty, one slash or two) and its
    components; parsing drops empty and ["."] components, joining with an
    absolute path discards the left operand, and the empty path prints as
    ["."]. *)

Module PurePath.

Record Path := { root : string; parts : list string }.

(** [s.split("/")] *)
Fixpoint split_slash (s : string) : list string :=
  match s with
  | "" => [""]
  | String c r =>
      if Ascii.eqb c "/" then "" :: split_slash r
      else match split_slash r with
           | h :: t => String c h :: t
           | [] => [String c ""]
           end
  end.

Fixpoint leading_slashes (s : string) : nat :=
  match s with
  | String c r => if Ascii.eqb c "/" then S (leading_slashes r) else O
  | "" => O
  end.

(** POSIX keeps exactly two leading slashes and collapses any other
    number of them to one. *)
Definition root_of (s : string) : string :=
  match leading_slashes s with
  | O => ""
  | 2%nat => "//"
  | _ => "/"
  end.

Definition keep_part (p : string) : bool :=
  negb (String.eqb p "") && negb (String.eqb p ".").

Definition parse (s : string) : Path :=
  {| root := root_of s; parts := filter keep_part (split_slash s) |}.

(** [p / s] *)
Definition join (p : Path) (s : string) : Path :=
  let q := parse s in
  if String.eqb (root q) ""
  then {| root := root p; parts := (parts p ++ parts q)%list |}
  else q.

(** ["/".join(ps)] *)
Fixpoint join_parts (ps : list string) : string :=
  match ps with
  | [] => ""
  | [p] => p
  | p :: rest => p ++ "/" ++ join_parts rest
  end.

(** [str(p)] *)
Definition to_str (p : Path) : string :=
  match root p, parts p with
  | "", [] => "."
  | r, ps => r ++ join_parts ps
  end.

End PurePath.

(** ** Data of the run *)

(** The namespace returned by [parse_args]. *)
Record Args := {
  output : PurePath.Path;
  count : Z;
  delay : Z;
  camera : Z;
  width : Z;
  height : Z;
  prefix : string;
  manual : bool;
  skip_warmup : bool
}.

(** The defaults of the command line. *)
Definition default_args : Args :=
  {| output := PurePath.parse "captured_images"; count := 5; delay := 3;
     camera := 0; width := 640; height := 480; prefix := "image";
     manual := false; skip_warmup := false |}.

(** An image: the sensor data (an identifier stands for the pixel buffer)
    and the texts drawn on it by [cv2.putText], with their origins. *)
Record Frame := { pixels : nat; overlay : list (string * (Z * Z)) }.

Definition putText (f : Frame) (text : string) (org : Z * Z) : Frame :=
  {| pixels := pixels f; overlay := (overlay f ++ [(text, org)])%list |}.

(** A reading of [datetime.now()]. *)
Record DateTime := {
  year : N; month : N; day : N; hour : N; minute : N; second : N
}.

(** [strftime("%Y%m%d_%H%M%S")], every field zero-filled to its width (the
    year to four digits, as for the years 1000 to 9999 of a running clock). *)
Definition strftime (t : DateTime) : string :=
  PyStr.zfill 4 (PyStr.dec (year t)) ++ PyStr.zfill 2 (PyStr.dec (month t))
  ++ PyStr.zfill 2 (PyStr.dec (day t)) ++ "_"
  ++ PyStr.zfill 2 (PyStr.dec (hour t)) ++ PyStr.zfill 2 (PyStr.dec (minute t))
  ++ PyStr.zfill 2 (PyStr.dec (second t)).

(** ** The environment *)

(** What is at the output path when the script starts.  [Absent None]: the
    directory can be created; [Absent (Some msg)]: creating it raises an
    [OSError] that prints as [msg]. *)
Inductive fs_entry :=
| IsDir
| IsFile
| Absent (failure : option string).

(** [path.mkdir(parents=True, exist_ok=True)]: [None] when it returns, the
    text of the exception when it raises. *)
Definition mkdir_parents_exist_ok (path : PurePath.Path) (e : fs_entry)
  : option string :=
  match e with
  | IsDir => None
  | IsFile => Some ("[Errno 17] File exists: '" ++ PurePath.to_str path ++ "'")
  | Absent failure => failure
  end.

(** The answers of the collaborators, each indexed by the number of earlier
    calls of the same function.  [cam_read k = None] is the pair
    [(False, None)] of a failed [cap.read()].  [time_at] is [time.time()] in
    microseconds: the float is taken as an exact number.  [key_at] is the raw
    value of [cv2.waitKey], [-1] when no key was pressed. *)
Record Env := {
  output_on_disk : fs_entry;
  camera_opens : bool;
  cam_read : nat -> option Frame;
  key_at : nat -> Z;
  time_at : nat -> Z;
  now_at : nat -> DateTime;
  imwrite_ok : nat -> bool
}.

Definition ticks_per_second : Z := 1000000.

(** The call sites of [cap.read()]. *)
Inductive read_site := Warmup | LoopRead | CountdownRead | FinalRead | Discard.

(** The observable actions, in program order. *)
Inductive event :=
| EMkdir (path : string) (ok : bool)
| EOpen (index : Z) (ok : bool)
| ESet (prop : Z) (value : Z)
| ERead (site : read_site) (ok : bool)
| EPrint (line : string)
| ESleep (ms : Z)
| EShow (image : Frame)
| EWaitKey (timeout_ms : Z) (key : Z)
| EWrite (filename : string) (image : Frame) (ok : bool)
| ERelease
| EDestroyAllWindows.

(** ** The state and the monad *)

(** The local variables of [main] that the loops update, and the number of
    calls made so far to each collaborator. *)
Record State := {
  img_index : Z;
  frame : option Frame;
  n_reads : nat;
  n_keys : nat;
  n_times : nat;
  n_nows : nat;
  n_writes : nat
}.

Definition initial_state : State :=
  {| img_index := 0; frame := None;
     n_reads := 0; n_keys := 0; n_times := 0; n_nows := 0; n_writes := 0 |}.

Inductive exn :=
| SystemExit (code : Z)
| KeyboardInterrupt
| AttributeError (msg : string).

(** A computation ends with a value, with a raised exception, or is still
    running when the fuel is spent. *)
Inductive result (A : Type) :=
| Ret (a : A)
| Raise (e : exn)
| OutOfFuel.
Arguments Ret {A} a.
Arguments Raise {A} e.
Arguments OutOfFuel {A}.

Definition M (A : Type) : Type := State -> result A * State * list event.

Definition ret {A} (a : A) : M A := fun s => (Ret a, s, []).

Definition bind {A B} (m : M A) (k : A -> M B) : M B :=
  fun s =>
    match m s with
    | (Ret a, s1, t1) => let '(r, s2, t2) := k a s1 in (r, s2, (t1 ++ t2)%list)
    | (Raise e, s1, t1) => (Raise e, s1, t1)
    | (OutOfFuel, s1, t1) => (OutOfFuel, s1, t1)
    end.

Definition raise {A} (e : exn) : M A := fun s => (Raise e, s, []).
Definition out_of_fuel {A} : M A := fun s => (OutOfFuel, s, []).
Definition emit (e : event) : M unit := fun s => (Ret tt, s, [e]).
Definition get : M State := fun s => (Ret s, s, []).
Definition put (s : State) : M unit := fun _ => (Ret tt, s, []).

Declare Scope py_scope.
Delimit Scope py_scope with py.
Notation "x <- m ;; k" := (bind m (fun x => k))
  (at level 100, m at next level, right associativity) : py_scope.
Notation "m ;; k" := (bind m (fun _ => k))
  (at level 100, right associativity) : py_scope.
Open Scope py_scope.

(** [for _ in range(n): m] *)
Fixpoint for_range (n : nat) (m : M unit) : M unit :=
  match n with
  | O => ret tt
  | S n' => m ;; for_range n' m
  end.

(** [try: body / except KeyboardInterrupt: handler / finally: final].  A
    body that is still running has reached neither clause. *)
Definition try_except_finally (body handler final : M unit) : M unit :=
  fun s =>
    match body s with
    | (Ret tt, s1, t1) =>
        let '(r, s2, t2) := final s1 in (r, s2, (t1 ++ t2)%list)
    | (Raise KeyboardInterrupt, s1, t1) =>
        match handler s1 with
        | (Ret tt, s2, t2) =>
            let '(r, s3, t3) := final s2 in (r, s3, (t1 ++ t2 ++ t3)%list)
        | (Raise e, s2, t2) =>
            match final s2 with
            | (Ret tt, s3, t3) => (Raise e, s3, (t1 ++ t2 ++ t3)%list)
            | (r, s3, t3) => (r, s3, (t1 ++ t2 ++ t3)%list)
            end
        | (OutOfFuel, s2, t2) => (OutOfFuel, s2, (t1 ++ t2)%list)
        end
    | (Raise e, s1, t1) =>
        match final s1 with
        | (Ret tt, s2, t2) => (Raise e, s2, (t1 ++ t2)%list)
        | (r, s2, t2) => (r, s2, (t1 ++ t2)%list)
        end
    | (OutOfFuel, s1, t1) => (OutOfFuel, s1, t1)
    end.

(** ** The collaborators *)

Definition is_some {A} (o : option A) : bool :=
  match o with Some _ => true | None => false end.

Definition CAP_PROP_FRAME_WIDTH : Z := 3.
Definition CAP_PROP_FRAME_HEIGHT : Z := 4.

Definition set_img_index (i : Z) (s : State) : State :=
  {| img_index := i; frame := frame s; n_reads := n_reads s; n_keys := n_keys s;
     n_times := n_times s; n_nows := n_nows s; n_writes := n_writes s |}.

Definition set_frame (f : option Frame) (s : State) : State :=
  {| img_index := img_index s; frame := f; n_reads := n_reads s; n_keys := n_keys s;
     n_times := n_times s; n_nows := n_nows s; n_writes := n_writes s |}.

Definition count_read (s : State) : State :=
  {| img_index := img_index s; frame := frame s; n_reads := S (n_reads s);
     n_keys := n_keys s; n_times := n_times s; n_nows := n_nows s;
     n_writes := n_writes s |}.

Definition count_key (s : State) : State :=
  {| img_index := img_index s; frame := frame s; n_reads := n_reads s;
     n_keys := S (n_keys s); n_times := n_times s; n_nows := n_nows s;
     n_writes := n_writes s |}.

Definition count_time (s : State) : State :=
  {| img_index := img_index s; frame := frame s; n_reads := n_reads s;
     n_keys := n_keys s; n_times := S (n_times s); n_nows := n_nows s;
     n_writes := n_writes s |}.

Definition count_now (s : State) : State :=
  {| img_index := img_index s; frame := frame s; n_reads := n_reads s;
     n_keys := n_keys s; n_times := n_times s; n_nows := S (n_nows s);
     n_writes := n_writes s |}.

Definition count_write (s : State) : State :=
  {| img_index := img_index s; frame := frame s; n_reads := n_reads s;
     n_keys := n_keys s; n_times := n_times s; n_nows := n_nows s;
     n_writes := S (n_writes s) |}.

Section Program.

Variable env : Env.
Variable args : Args.

Definition print (line : string) : M unit := emit (EPrint line).
Definition sleep (ms : Z) : M unit := emit (ESleep ms).
Definition imshow (image : Frame) : M unit := emit (EShow image).
Definition cap_set (prop value : Z) : M unit := emit (ESet prop value).
Definition cap_release : M unit := emit ERelease.
Definition destroyAllWindows : M unit := emit EDestroyAllWindows.

(** [cap.read()]: the frame, or [None] for [(False, None)]. *)
Definition cap_read (site : read_site) : M (option Frame) :=
  fun s =>
    let r := cam_read env (n_reads s) in
    (Ret r, count_read s, [ERead site (is_some r)]).

(** [cv2.waitKey(ms)] *)
Definition waitKey (ms : Z) : M Z :=
  fun s =>
    let k := key_at env (n_keys s) in
    (Ret k, count_key s, [EWaitKey ms k]).

(** [time.time()] *)
Definition time_time : M Z :=
  fun s => (Ret (time_at env (n_times s)), count_time s, []).

(** [datetime.now()] *)
Definition datetime_now : M DateTime :=
  fun s => (Ret (now_at env (n_nows s)), count_now s, []).

(** [cv2.imwrite(filename, image)]; the script drops the returned flag. *)
Definition imwrite (filename : string) (image : Frame) : M bool :=
  fun s =>
    let ok := imwrite_ok env (n_writes s) in
    (Ret ok, count_write s, [EWrite filename image ok]).

(** [frame.copy()]: [None] has no such attribute. *)
Definition frame_copy (f : option Frame) : M Frame :=
  match f with
  | Some image => ret image
  | None => raise (AttributeError "'NoneType' object has no attribute 'copy'")
  end.

(** ** The script *)

Definition ensure_dir (path : PurePath.Path) : M unit :=
  match mkdir_parents_exist_ok path (output_on_disk env) with
  | None => emit (EMkdir (PurePath.to_str path) true)
  | Some e =>
      emit (EMkdir (PurePath.to_str path) false) ;;
      print ("ERROR: Unable to create output directory "
             ++ PurePath.to_str path ++ ": " ++ e) ;;
      raise (SystemExit 1)
  end.

(** The f-string of line 32. *)
Definition file_name (prefix : string) (idx : Z) (ts : string) : string :=
  prefix ++ "_" ++ PyStr.fmt_0d 3 idx ++ "_" ++ ts ++ ".jpg".

(** The path [build_filename] returns when [datetime.now()] reads [now]. *)
Definition filename_at (folder : PurePath.Path) (prefix : string) (idx : Z)
    (now : DateTime) : string :=
  PurePath.to_str (PurePath.join folder (file_name prefix idx (strftime now))).

Definition build_filename (folder : PurePath.Path) (prefix : string) (idx : Z)
  : M string :=
  now <- datetime_now ;;
  ret (filename_at folder prefix idx now).

(** Lines 70 to 73 and 112 to 115, the same in both modes: name the file,
    write the image, report it, advance the index. *)
Definition capture (image : Frame) : M unit :=
  s <- get ;;
  filename <- build_filename (output args) (prefix args) (img_index s) ;;
  _ <- imwrite filename image ;;
  print ("Captured " ++ filename) ;;
  s <- get ;;
  put (set_img_index (img_index s + 1) s).

(** Lines 75 and 76, 118 and 119. *)
Definition discard_frames : M unit :=
  for_range 5 (_ <- cap_read Discard ;; ret tt).

(** How one pass through the body of the outer [while] ends. *)
Inductive control := Continue | Break.

(** The overlay of manual mode, line 62. *)
Definition manual_text (idx : Z) : string :=
  "Manual capture " ++ PyStr.str_of_Z idx ++ "/"
  ++ PyStr.str_of_Z (count args) ++ " - SPACE to capture, ESC to quit".

(** The manual branch, lines 62 to 77. *)
Definition manual_step (image : Frame) : M control :=
  s <- get ;;
  let image := putText image (manual_text (img_index s)) (10, 30) in
  put (set_frame (Some image) s) ;;
  imshow image ;;
  raw <- waitKey 1 ;;
  let key := Z.land raw 255 in
  if key =? 27 then
    print "Quitting by user request." ;;
    ret Break
  else if key =? 32 then
    capture image ;;
    discard_frames ;;
    ret Continue
  else ret Continue.

(** The preview drawn at each turn of the countdown, lines 84 to 91. *)
Definition countdown_text (remaining : Z) : string :=
  if 0 <? remaining
  then "Capturing in " ++ PyStr.str_of_Z remaining ++ " sec"
  else "Capturing...".

Definition countdown_display (image : Frame) (remaining idx : Z) : Frame :=
  putText
    (putText image (countdown_text remaining) (10, 30))
    (PyStr.str_of_Z idx ++ "/" ++ PyStr.str_of_Z (count args))
    (10, height args - 10).

(** [int(now - start_time)]: truncation towards zero. *)
Definition elapsed_seconds (start_time now : Z) : Z :=
  Z.quot (now - start_time) ticks_per_second.

(** The countdown, lines 81 to 105. *)
Fixpoint countdown (fuel : nat) (start_time : Z) : M unit :=
  match fuel with
  | O => out_of_fuel
  | S fuel' =>
      now <- time_time ;;
      let remaining := delay args - elapsed_seconds start_time now in
      s <- get ;;
      display <- frame_copy (frame s) ;;
      imshow (countdown_display display remaining (img_index s)) ;;
      if remaining <=? 0 then ret tt
      else
        raw <- waitKey 100 ;;
        if Z.land raw 255 =? 113 then
          print "Quitting by user request." ;;
          raise KeyboardInterrupt
        else
          r <- cap_read CountdownRead ;;
          s <- get ;;
          put (set_frame r s) ;;
          (if is_some r then ret tt
           else
             print "WARNING: Frame dropped during countdown." ;;
             sleep 50) ;;
          countdown fuel' start_time
  end.

(** The automatic branch, lines 80 to 119. *)
Definition automatic_step (fuel : nat) : M control :=
  start_time <- time_time ;;
  countdown fuel start_time ;;
  r <- cap_read FinalRead ;;
  s <- get ;;
  put (set_frame r s) ;;
  match r with
  | None => print "WARNING: Failed to grab final frame, skipping this capture."
  | Some image => capture image
  end ;;
  discard_frames ;;
  ret Continue.

(** One pass through the body of the outer [while], lines 55 to 119. *)
Definition loop_body (fuel : nat) : M control :=
  r <- cap_read LoopRead ;;
  s <- get ;;
  put (set_frame r s) ;;
  match r with
  | None =>
      print "WARNING: Failed to read frame, retrying..." ;;
      sleep 200 ;;
      ret Continue
  | Some image =>
      if manual args then manual_step image
      else automatic_step fuel
  end.

(** [while img_index <= args.count: ...] *)
Fixpoint main_loop (fuel : nat) : M unit :=
  s <- get ;;
  if img_index s <=? count args then
    match fuel with
    | O => out_of_fuel
    | S fuel' =>
        c <- loop_body fuel' ;;
        match c with
        | Continue => main_loop fuel'
        | Break => ret tt
        end
    end
  else ret tt.

Definition finalize : M unit :=
  cap_release ;;
  destroyAllWindows ;;
  print "Cleanup done.".

(** Lines 38 to 51: open and configure the camera, warm it up. *)
Definition initialize : M unit :=
  ensure_dir (output args) ;;
  emit (EOpen (camera args) (camera_opens env)) ;;
  if negb (camera_opens env) then
    print ("ERROR: Cannot open camera index " ++ PyStr.str_of_Z (camera args)) ;;
    raise (SystemExit 1)
  else
    cap_set CAP_PROP_FRAME_WIDTH (width args) ;;
    cap_set CAP_PROP_FRAME_HEIGHT (height args) ;;
    (if negb (skip_warmup args)
     then for_range 5 (_ <- cap_read Warmup ;; ret tt)
     else ret tt) ;;
    print ("Starting capture: output=" ++ PurePath.to_str (output args)
           ++ ", count=" ++ PyStr.str_of_Z (count args)
           ++ ", delay=" ++ PyStr.str_of_Z (delay args)
           ++ "s, camera=" ++ PyStr.str_of_Z (camera args)).

(** Lines 53 to 126: the [try] statement around the loop. *)
Definition guarded_loop (fuel : nat) : M unit :=
  try_except_finally (main_loop fuel) (print "Capture interrupted.") finalize.

Definition main (fuel : nat) : M unit :=
  initialize ;;
  s <- get ;;
  put (set_img_index 1 s) ;;
  guarded_loop fuel.

(** The whole process from a fresh state. *)
Definition run (fuel : nat) : result unit * State * list event :=
  main fuel initial_state.

End Program.

(** The exit status of the interpreter: 0 when [main] returns, the argument
    of [sys.exit], 1 for any other exception that reaches the top. *)
Definition exit_code (r : result unit) : option Z :=
  match r with
  | Ret _ => Some 0
  | Raise (SystemExit c) => Some c
  | Raise _ => Some 1
  | OutOfFuel => None
  end.

(** * The vocabulary of the properties

    What the statements below speak of: the observations made on a run, the
    blocks of events the straight-line stretches of the script leave in the
    trace, the books of index and writes, file names, the monitors that read
    a trace, the conditions on the environment, and the environments and
    command lines used as examples. *)

(** ** Observations *)

(** The three components of what a computation leaves behind. *)
Definition outcome {A} (o : result A * State * list event) : result A :=
  fst (fst o).

Definition final_state {A} (o : result A * State * list event) : State :=
  snd (fst o).

Definition trace {A} (o : result A * State * list event) : list event :=
  snd o.

(** A computation's outcome with the events [t0] before its own. *)
Definition after {A} (t0 : list event) (o : result A * State * list event)
  : result A * State * list event :=
  let '(r, s, t) := o in (r, s, (t0 ++ t)%list).

(** The [imwrite] calls of a trace: file name and outcome, in order. *)
Fixpoint write_calls (t : list event) : list (string * bool) :=
  match t with
  | [] => []
  | EWrite filename _ ok :: rest => (filename, ok) :: write_calls rest
  | _ :: rest => write_calls rest
  end.

(** The files that exist afterwards: the calls that succeeded. *)
Definition written_files (t : list event) : list string :=
  map fst (filter snd (write_calls t)).

(** ** The blocks of a trace and the states between them *)

Section TraceVocabulary.

Variable env : Env.
Variable args : Args.

(** One turn of the countdown that goes on: preview, key poll, preview
    read, and the warning with its pause when that read failed. *)
Definition tick_events (shown : Frame) (raw : Z) (r : option Frame)
  : list event :=
  EShow shown :: EWaitKey 100 raw :: ERead CountdownRead (is_some r)
  :: (if is_some r then []
      else [EPrint "WARNING: Frame dropped during countdown."; ESleep 50]).

(** The state after lines 70 to 73 (112 to 115). *)
Definition captured (s : State) : State :=
  set_img_index (img_index s + 1) (count_write (count_now s)).

(** The path of the capture made in state [s]. *)
Definition capture_filename (s : State) : string :=
  filename_at (output args) (prefix args) (img_index s) (now_at env (n_nows s)).

(** The events of lines 70 to 73 (112 to 115). *)
Definition capture_events (image : Frame) (s : State) : list event :=
  [EWrite (capture_filename s) image (imwrite_ok env (n_writes s));
   EPrint ("Captured " ++ capture_filename s)].

(** The five discarded reads, the first being read number [n]. *)
Definition discard_events (n : nat) : list event :=
  map (fun i => ERead Discard (is_some (cam_read env (n + i)))) (seq 0 5).

(** The state after [k] more reads. *)
Definition skip_reads (k : nat) (s : State) : State :=
  Nat.iter k count_read s.

Definition final_read_warning : event :=
  EPrint "WARNING: Failed to grab final frame, skipping this capture.".

(** Lines 107 to 119, from the state [s] the countdown ended in. *)
Definition final_capture (s : State) : result control * State * list event :=
  let r := cam_read env (n_reads s) in
  let s1 := set_frame r (count_read s) in
  match r with
  | None =>
      (Ret Continue, skip_reads 5 s1,
       (ERead FinalRead false :: final_read_warning
        :: discard_events (S (n_reads s)))%list)
  | Some image =>
      (Ret Continue, skip_reads 5 (captured s1),
       (ERead FinalRead true :: capture_events image s1
        ++ discard_events (S (n_reads s)))%list)
  end.

(** Lines 57 and 58. *)
Definition loop_read_warning : list event :=
  [EPrint "WARNING: Failed to read frame, retrying..."; ESleep 200].

(** The [finally] clause, lines 124 to 126. *)
Definition cleanup_events : list event :=
  [ERelease; EDestroyAllWindows; EPrint "Cleanup done."].

(** The five warm-up reads, the first being read number [n]. *)
Definition warmup_events (n : nat) : list event :=
  map (fun i => ERead Warmup (is_some (cam_read env (n + i)))) (seq 0 5).

(** The diagnostic of line 27. *)
Definition mkdir_error_line (e : string) : event :=
  EPrint ("ERROR: Unable to create output directory "
          ++ PurePath.to_str (output args) ++ ": " ++ e).

(** The diagnostic of line 40. *)
Definition camera_error_line : event :=
  EPrint ("ERROR: Cannot open camera index " ++ PyStr.str_of_Z (camera args)).

(** Line 51. *)
Definition starting_line : event :=
  EPrint ("Starting capture: output=" ++ PurePath.to_str (output args)
          ++ ", count=" ++ PyStr.str_of_Z (count args)
          ++ ", delay=" ++ PyStr.str_of_Z (delay args)
          ++ "s, camera=" ++ PyStr.str_of_Z (camera args)).

(** Lines 36 to 44 when nothing fails. *)
Definition setup_events : list event :=
  [EMkdir (PurePath.to_str (output args)) true; EOpen (camera args) true;
   ESet CAP_PROP_FRAME_WIDTH (width args);
   ESet CAP_PROP_FRAME_HEIGHT (height args)].

(** Initialization passes: the directory is ensured and the camera opens. *)
Definition init_ok : Prop :=
  mkdir_parents_exist_ok (output args) (output_on_disk env) = None
  /\ camera_opens env = true.

(** The state in which the loop is entered. *)
Definition loop_start : State :=
  set_img_index 1
    (if skip_warmup args then initial_state else skip_reads 5 initial_state).

(** The events of an initialization that passes. *)
Definition init_events : list event :=
  (setup_events
   ++ (if skip_warmup args then [] else warmup_events 0)
   ++ [starting_line])%list.

(** ** The books *)

(** The [k] write calls that start at index [idx], [now] reading [nn] and
    write number [nw]. *)
Definition expected_writes (k : nat) (idx : Z) (nn nw : nat)
  : list (string * bool) :=
  map (fun i =>
         (filename_at (output args) (prefix args) (idx + Z.of_nat i)
            (now_at env (nn + i)),
          imwrite_ok env (nw + i)))
      (seq 0 k).

(** From [s] to [s'] with the events [t]: [k] captures were made; the
    index, the readings of [datetime.now()] and the writes advanced by [k],
    and the write calls of [t] are the expected ones. *)
Definition accounted (k : nat) (s : State) (t : list event) (s' : State)
  : Prop :=
  img_index s' = img_index s + Z.of_nat k
  /\ n_nows s' = (n_nows s + k)%nat
  /\ n_writes s' = (n_writes s + k)%nat
  /\ write_calls t = expected_writes k (img_index s) (n_nows s) (n_writes s).

End TraceVocabulary.

(** The loop test is reached in state [s], [t] being the events since the
    loop was entered. *)
Inductive loop_head (env : Env) (args : Args) : State -> list event -> Prop :=
| loop_head_start : loop_head env args (loop_start args) []
| loop_head_next fuel s t s' t' :
    loop_head env args s t ->
    (img_index s <=? count args) = true ->
    loop_body env args fuel s = (Ret Continue, s', t') ->
    loop_head env args s' (t ++ t').

(** ** File names *)

Section FilenameVocabulary.

Import PyStr PurePath.

(** The number a string of digits denotes. *)
Definition value_of (s : string) : option N :=
  option_map N.of_uint (NilEmpty.uint_of_string s).

(** ["/".join(ps ++ [x])] is a stem that depends on [ps] only, then [x]. *)
Fixpoint join_stem (ps : list string) : string :=
  match ps with
  | [] => ""
  | p :: rest => p ++ "/" ++ join_stem rest
  end.

(** The path of a file name [p ++ "_" ++ tail] in a folder, when the tail
    has no slash: a stem fixed by the folder and [p], then the tail. *)
Definition stem (folder : Path) (p : string) : string :=
  let q := parse p in
  let init := removelast (split_slash p) in
  let last := List.last (split_slash p) "" in
  if String.eqb (root q) ""
  then root folder ++ join_stem (parts folder ++ filter keep_part init) ++ last
  else root q ++ join_stem (filter keep_part init) ++ last.

End FilenameVocabulary.

(** The path of the [i]-th capture of a run, counted from 1: index [i] and
    the [i]-th reading of [datetime.now()]. *)
Definition nth_filename (env : Env) (args : Args) (i : nat) : string :=
  filename_at (output args) (prefix args) (Z.of_nat i) (now_at env (pred i)).

(** The documented file name of the [i]-th capture: stem, index field,
    time stamp of the [i]-th reading of [datetime.now()]. *)
Definition documented_filename (env : Env) (args : Args) (i : nat) : string :=
  stem (output args) (prefix args)
  ++ "_" ++ PyStr.fmt_0d 3 (Z.of_nat i)
  ++ "_" ++ strftime (now_at env (pred i)) ++ ".jpg".

(** *** The pattern of the documentation *)









(** ** Kinds of events *)

(** The three actions of the [finally] clause. *)
Definition is_cleanup (e : event) : bool :=
  match e with
  | ERelease | EDestroyAllWindows => true
  | EPrint line => String.eqb line "Cleanup done."
  | _ => false
  end.


(** What a run that stops before the loop can leave in the trace. *)
Definition is_setup_event (e : event) : bool :=
  match e with
  | EMkdir _ _ | EOpen _ _ | EPrint _ => true
  | _ => false
  end.


(** A call of [cv2.waitKey]. *)
Definition is_key_poll (e : event) : bool :=
  match e with EWaitKey _ _ => true | _ => false end.

(** The two lines printed when the user quits. *)
Definition is_quit_line (e : event) : bool :=
  match e with
  | EPrint line =>
      String.eqb line "Quitting by user request."
      || String.eqb line "Capture interrupted."
  | _ => false
  end.




(** What [frame.copy()] raises on [None]. *)
Definition no_copy_error : exn :=
  AttributeError "'NoneType' object has no attribute 'copy'".

(** ** Monitors

    A monitor reads the trace.  A write call must be followed by a printed
    line and then by exactly five discarded reads; a discarded read anywhere
    else is refused.  The lenient monitor lets a failed final read start
    the same sequence (its warning, then five discarded reads); the strict
    one does not. *)







(** Every key poll of the trace comes right after a countdown preview drawn
    for a positive number of remaining seconds; [prev] is the event before
    the trace. *)
Fixpoint polls_guarded (args : Args) (prev : option event) (t : list event)
  : Prop :=
  match t with
  | [] => True
  | e :: rest =>
      (is_key_poll e = true ->
       exists image remaining idx,
         prev = Some (EShow (countdown_display args image remaining idx))
         /\ 0 < remaining)
      /\ polls_guarded args (Some e) rest
  end.

(** ** Conditions on the environment *)


(** Every [cv2.imwrite] writes its file. *)
Definition writes_succeed (env : Env) : Prop :=
  forall i, imwrite_ok env i = true.


(** The clock never runs backwards. *)
Definition clock_monotone (env : Env) : Prop :=
  forall k, time_at env k <= time_at env (S k).

(** The clock is never set back by a whole second or more: no reading is a
    second or more before an earlier one. *)
Definition never_set_back_a_second (env : Env) : Prop :=
  forall k j, (k <= j)%nat -> time_at env k - ticks_per_second < time_at env j.


(** ** Example command lines and environments *)

(** Manual mode, two images. *)
Definition manual_args : Args :=
  {| output := PurePath.parse "captured_images"; count := 2; delay := 3;
     camera := 0; width := 640; height := 480; prefix := "image";
     manual := true; skip_warmup := false |}.

(** Manual mode, one image. *)
Definition one_manual_shot : Args :=
  {| output := PurePath.parse "captured_images"; count := 1; delay := 3;
     camera := 0; width := 640; height := 480; prefix := "image";
     manual := true; skip_warmup := false |}.

(** Automatic mode without delay, one image. *)
Definition one_shot_args : Args :=
  {| output := PurePath.parse "captured_images"; count := 1; delay := 0;
     camera := 0; width := 640; height := 480; prefix := "image";
     manual := false; skip_warmup := false |}.

(** Automatic mode without delay, three images. *)
Definition no_delay_args : Args :=
  {| output := PurePath.parse "captured_images"; count := 3; delay := 0;
     camera := 0; width := 640; height := 480; prefix := "image";
     manual := false; skip_warmup := false |}.

(** An environment in which nothing fails and nobody touches the keyboard;
    each reading of the clock is one second after the one before. *)
Definition nominal_env : Env :=
  {| output_on_disk := Absent None; camera_opens := true;
     cam_read := fun k => Some {| pixels := k; overlay := [] |};
     key_at := fun _ => -1;
     time_at := fun k => Z.of_nat k * ticks_per_second;
     now_at := fun k =>
       {| year := 2024; month := 5; day := 17;
          hour := 9; minute := 30; second := N.of_nat k |};
     imwrite_ok := fun _ => true |}.

(** ESC at every poll. *)
Definition esc_env : Env :=
  {| output_on_disk := IsDir; camera_opens := true;
     cam_read := fun k => Some {| pixels := k; overlay := [] |};
     key_at := fun _ => 27;
     time_at := fun k => Z.of_nat k * ticks_per_second;
     now_at := fun k =>
       {| year := 2024; month := 5; day := 17;
          hour := 9; minute := 30; second := N.of_nat k |};
     imwrite_ok := fun _ => true |}.

(** [q] at every poll. *)
Definition quit_env : Env :=
  {| output_on_disk := IsDir; camera_opens := true;
     cam_read := fun k => Some {| pixels := k; overlay := [] |};
     key_at := fun _ => 113;
     time_at := fun k => Z.of_nat k * ticks_per_second;
     now_at := fun k =>
       {| year := 2024; month := 5; day := 17;
          hour := 9; minute := 30; second := N.of_nat k |};
     imwrite_ok := fun _ => true |}.

(** SPACE at the first poll, ESC at every later one; nothing fails. *)
Definition space_esc_env : Env :=
  {| output_on_disk := Absent None; camera_opens := true;
     cam_read := fun k => Some {| pixels := k; overlay := [] |};
     key_at := fun k => match k with O => 32 | _ => 27 end;
     time_at := fun k => Z.of_nat k * ticks_per_second;
     now_at := fun k =>
       {| year := 2024; month := 5; day := 17;
          hour := 9; minute := 30; second := N.of_nat k |};
     imwrite_ok := fun _ => true |}.

(** SPACE at every poll, and no [imwrite] reaches the disk. *)
Definition full_disk_env : Env :=
  {| output_on_disk := IsDir; camera_opens := true;
     cam_read := fun k => Some {| pixels := k; overlay := [] |};
     key_at := fun _ => 32;
     time_at := fun k => Z.of_nat k * ticks_per_second;
     now_at := fun _ =>
       {| year := 2024; month := 5; day := 17;
          hour := 9; minute := 30; second := 0 |};
     imwrite_ok := fun _ => false |}.

(** The seventh read of the run fails, every other read succeeds, nobody
    touches the keyboard.  With the warm-up on, that read is the first final
    read when there is no delay. *)
Definition dropped_final_env : Env :=
  {| output_on_disk := IsDir; camera_opens := true;
     cam_read := fun k =>
       if (k =? 6)%nat then None else Some {| pixels := k; overlay := [] |};
     key_at := fun _ => -1;
     time_at := fun k => Z.of_nat k * ticks_per_second;
     now_at := fun k =>
       {| year := 2024; month := 5; day := 17;
          hour := 9; minute := 30; second := N.of_nat k |};
     imwrite_ok := fun _ => true |}.

(** The same environment under the default command line: with a delay the
    seventh read of the run is the first read of the countdown preview. *)
Definition dropped_preview_env : Env := dropped_final_env.


(** [q] at every poll, and a clock that is set back by two seconds between
    its first reading and its second; from then on it goes on, one second
    for each reading. *)
Definition clock_set_back_env : Env :=
  {| output_on_disk := IsDir; camera_opens := true;
     cam_read := fun k => Some {| pixels := k; overlay := [] |};
     key_at := fun _ => 113;
     time_at := fun k =>
       match k with
       | O => 2 * ticks_per_second
       | S k' => Z.of_nat k' * ticks_per_second
       end;
     now_at := fun k =>
       {| year := 2024; month := 5; day := 17;
          hour := 9; minute := 30; second := N.of_nat k |};
     imwrite_ok := fun _ => true |}.








(** ** Vocabulary of the further properties

    What the properties at the end of the file speak of: more kinds of
    events, what is drawn on an image, the conditions under which an event
    may stand where it stands in a trace, more conditions on the
    environment, more example command lines and environments. *)

(** *** Before the loop, and the loops without end *)

(** An action of lines 36 to 49: the directory, the opening and the
    configuration of the camera, a warm-up read. *)
Definition is_startup (e : event) : bool :=
  match e with
  | EMkdir _ _ | EOpen _ _ | ESet _ _ | ERead Warmup _ => true
  | _ => false
  end.

(** The number of the first read the loop makes: the warm-up has taken five
    before it. *)
Definition first_loop_read (args : Args) : nat :=
  if skip_warmup args then 0%nat else 5%nat.

(** One pass through the loop whose read fails, lines 55 to 59. *)
Definition failed_pass : list event :=
  [ERead LoopRead false;
   EPrint "WARNING: Failed to read frame, retrying...";
   ESleep 200].

(** The camera delivers nothing once the loop has started. *)
Definition camera_dead (env : Env) (args : Args) : Prop :=
  forall i, (first_loop_read args <= i)%nat -> cam_read env i = None.


(** A camera that opens and never delivers a frame. *)
Definition dead_camera_env : Env :=
  {| output_on_disk := IsDir; camera_opens := true;
     cam_read := fun _ => None;
     key_at := fun _ => -1;
     time_at := fun k => Z.of_nat k * ticks_per_second;
     now_at := fun k =>
       {| year := 2024; month := 5; day := 17;
          hour := 9; minute := 30; second := N.of_nat k |};
     imwrite_ok := fun _ => true |}.

(** A camera that cannot be opened. *)
Definition no_camera_env : Env :=
  {| output_on_disk := Absent None; camera_opens := false;
     cam_read := fun _ => None;
     key_at := fun _ => -1;
     time_at := fun k => Z.of_nat k * ticks_per_second;
     now_at := fun k =>
       {| year := 2024; month := 5; day := 17;
          hour := 9; minute := 30; second := N.of_nat k |};
     imwrite_ok := fun _ => true |}.

(** A regular file stands where the output directory should be. *)
Definition file_in_the_way_env : Env :=
  {| output_on_disk := IsFile; camera_opens := true;
     cam_read := fun k => Some {| pixels := k; overlay := [] |};
     key_at := fun _ => -1;
     time_at := fun k => Z.of_nat k * ticks_per_second;
     now_at := fun k =>
       {| year := 2024; month := 5; day := 17;
          hour := 9; minute := 30; second := N.of_nat k |};
     imwrite_ok := fun _ => true |}.

(** Automatic mode, no image asked for. *)
Definition no_image_args : Args :=
  {| output := PurePath.parse "captured_images"; count := 0; delay := 3;
     camera := 0; width := 640; height := 480; prefix := "image";
     manual := false; skip_warmup := false |}.

(** *** Images *)

(** The image is a frame as the camera delivered it. *)
Definition from_camera (env : Env) (image : Frame) : Prop :=
  exists k, cam_read env k = Some image.

(** The image is a camera frame with the instruction line of manual mode
    drawn on it, for an index within the count. *)
Definition manual_shot (env : Env) (args : Args) (idx : Z) (image : Frame)
  : Prop :=
  exists raw,
    from_camera env raw
    /\ 1 <= idx <= count args
    /\ image = putText raw (manual_text args idx) (10, 30).

(** The image is a camera frame with the two texts of the countdown drawn
    on it, for an index within the count. *)
Definition countdown_shot (env : Env) (args : Args) (image : Frame) : Prop :=
  exists raw remaining idx,
    from_camera env raw
    /\ 1 <= idx <= count args
    /\ image = countdown_display args raw remaining idx.

(** What manual mode shows and writes. *)
Definition manual_image_event (env : Env) (args : Args) (e : event) : Prop :=
  match e with
  | EShow image => exists idx, manual_shot env args idx image
  | EWrite filename image _ =>
      exists idx now,
        manual_shot env args idx image
        /\ filename = filename_at (output args) (prefix args) idx now
  | _ => True
  end.

(** What automatic mode shows and writes. *)
Definition automatic_image_event (env : Env) (args : Args) (e : event)
  : Prop :=
  match e with
  | EShow image => countdown_shot env args image
  | EWrite _ image _ => from_camera env image
  | _ => True
  end.

(** Every image written was shown. *)
Definition writes_shown (t : list event) : Prop :=
  forall filename image ok,
    In (EWrite filename image ok) t -> In (EShow image) t.

(** *** The key that ends the run *)

(** The key that ends the run: ESC in manual mode, [q] in automatic mode. *)
Definition stop_key (args : Args) : Z :=
  if manual args then 27 else 113.

(** The time a poll waits, in milliseconds. *)
Definition poll_timeout (args : Args) : Z :=
  if manual args then 1 else 100.

(** A poll that reads the key that ends the run. *)
Definition is_stop_poll (args : Args) (e : event) : bool :=
  match e with
  | EWaitKey _ raw => Z.land raw 255 =? stop_key args
  | _ => false
  end.

(** Lines 67 and 98. *)
Definition quit_line : event := EPrint "Quitting by user request.".

(** What follows the poll that ends the run: the quit line, the line of the
    [except] clause when the run was interrupted (automatic mode), and the
    finalization. *)
Definition events_after_stop (args : Args) : list event :=
  quit_line
  :: (if manual args then cleanup_events
      else EPrint "Capture interrupted." :: cleanup_events).

(** *** Pauses, and the attribute error *)

(** Lines 57 and 104. *)
Definition retry_warning : event :=
  EPrint "WARNING: Failed to read frame, retrying...".

Definition dropped_warning : event :=
  EPrint "WARNING: Frame dropped during countdown.".

(** Every event of [t] satisfies [ok] given the events before it, the
    latest first; [hist] holds the events before [t]. *)
Fixpoint each_after (ok : list event -> event -> Prop) (hist t : list event)
  : Prop :=
  match t with
  | [] => True
  | e :: rest => ok hist e /\ each_after ok (e :: hist) rest
  end.

(** Every event of [t] satisfies [ok] given the events after it. *)
Fixpoint each_before (ok : event -> list event -> Prop) (t : list event)
  : Prop :=
  match t with
  | [] => True
  | e :: rest => ok e rest /\ each_before ok rest
  end.

(** A pause comes right after the warning of a failed read of the loop
    (0.2 s) or of the countdown preview (0.05 s). *)
Definition pause_justified (hist : list event) (e : event) : Prop :=
  match e with
  | ESleep ms =>
      match hist with
      | EPrint line :: ERead site false :: _ =>
          (site = LoopRead /\ EPrint line = retry_warning /\ ms = 200)
          \/ (site = CountdownRead /\ EPrint line = dropped_warning /\ ms = 50)
      | _ => False
      end
  | _ => True
  end.

(** A failed read of the loop or of the countdown preview is followed by
    its warning and its pause. *)
Definition pause_follows (e : event) (rest : list event) : Prop :=
  match e with
  | ERead LoopRead false =>
      exists rest', rest = retry_warning :: ESleep 200 :: rest'
  | ERead CountdownRead false =>
      exists rest', rest = dropped_warning :: ESleep 50 :: rest'
  | _ => True
  end.

(** The pauses of a trace are where they belong. *)
Definition pauses_in_place (t : list event) : Prop :=
  each_after pause_justified [] t /\ each_before pause_follows t.

(** A preview read that failed. *)
Definition is_dropped_preview (e : event) : bool :=
  match e with ERead CountdownRead false => true | _ => false end.

(** The last things a run does when a preview read has failed: the read,
    its warning, its pause, and the finalization. *)
Definition crash_events : list event :=
  [ERead CountdownRead false; dropped_warning; ESleep 50;
   ERelease; EDestroyAllWindows; EPrint "Cleanup done."].

(** When a computation has ended with the attribute error, a preview read
    had failed, and that read, its warning and its pause are the last things
    it did; when it has ended otherwise, no preview read has failed. *)
Definition crash_spec {A} (o : result A * State * list event) : Prop :=
  match outcome o with
  | Raise (AttributeError _) =>
      outcome o = Raise no_copy_error
      /\ exists pre,
           trace o
           = (pre ++ [ERead CountdownRead false; dropped_warning; ESleep 50])%list
           /\ existsb is_dropped_preview pre = false
  | OutOfFuel => True
  | _ => existsb is_dropped_preview (trace o) = false
  end.

(** *** Manual mode to the end, and delays that are not positive *)

(** The camera fails finitely often: from some read on every read
    succeeds. *)
Definition camera_recovers (env : Env) : Prop :=
  exists bound, forall i, (bound <= i)%nat -> cam_read env i <> None.

(** Nobody presses ESC. *)
Definition never_escapes (env : Env) : Prop :=
  forall i, Z.land (key_at env i) 255 <> 27.

(** SPACE is pressed again and again: after every poll there is one that
    reads it. *)
Definition space_recurs (env : Env) : Prop :=
  forall k, exists j, (k <= j)%nat /\ Z.land (key_at env j) 255 = 32.

(** Two computations end alike: same outcome, same state. *)
Definition same_end {A} (o1 o2 : result A * State * list event) : Prop :=
  outcome o1 = outcome o2 /\ final_state o1 = final_state o2.

(** SPACE at every poll; nothing fails. *)
Definition space_env : Env :=
  {| output_on_disk := Absent None; camera_opens := true;
     cam_read := fun k => Some {| pixels := k; overlay := [] |};
     key_at := fun _ => 32;
     time_at := fun k => Z.of_nat k * ticks_per_second;
     now_at := fun k =>
       {| year := 2024; month := 5; day := 17;
          hour := 9; minute := 30; second := N.of_nat k |};
     imwrite_ok := fun _ => true |}.

(** What the countdown does when it goes on: a key poll, a preview read. *)
Definition is_countdown_tick (e : event) : bool :=
  match e with
  | EWaitKey _ _ | ERead CountdownRead _ => true
  | _ => false
  end.

(** A preview drawn when the countdown is over. *)
Definition final_preview (args : Args) (e : event) : Prop :=
  match e with
  | EShow image =>
      exists raw remaining idx,
        image = countdown_display args raw remaining idx /\ remaining <= 0
  | _ => True
  end.

(** Automatic mode with a negative delay. *)
Definition negative_delay_args : Args :=
  {| output := PurePath.parse "captured_images"; count := 2; delay := -5;
     camera := 0; width := 640; height := 480; prefix := "image";
     manual := false; skip_warmup := false |}.

(** *** Keyboards, and the state of one pass *)

(** The same environment with another keyboard. *)
Definition with_keys (env : Env) (keys : nat -> Z) : Env :=
  {| output_on_disk := output_on_disk env;
     camera_opens := camera_opens env;
     cam_read := cam_read env;
     key_at := keys;
     time_at := time_at env;
     now_at := now_at env;
     imwrite_ok := imwrite_ok env |}.

(** What the script makes of the value a poll returns: it looks at the low
    byte, and there only for ESC and SPACE in manual mode, for [q] in
    automatic mode. *)
Definition key_class (args : Args) (raw : Z) : Z :=
  let key := Z.land raw 255 in
  if manual args then
    if key =? 27 then 27 else if key =? 32 then 32 else 0
  else
    if key =? 113 then 113 else 0.

(** The event with the value of a poll replaced by its class. *)
Definition classify_poll (args : Args) (e : event) : event :=
  match e with
  | EWaitKey ms raw => EWaitKey ms (key_class args raw)
  | _ => e
  end.

(** Two computations that differ at most in the values their polls read,
    and there not in the classes of the values. *)
Definition alike {A} (args : Args) (o1 o2 : result A * State * list event)
  : Prop :=
  outcome o1 = outcome o2
  /\ final_state o1 = final_state o2
  /\ map (classify_poll args) (trace o1) = map (classify_poll args) (trace o2).

(** ESC with a modifier bit above the low byte at the second poll, a cursor
    key before it. *)
Definition modifier_keys (k : nat) : Z :=
  match k with
  | O => 65361
  | _ => 1048603
  end.

(** No key at the first poll, ESC at every later one. *)
Definition idle_then_esc (k : nat) : Z :=
  match k with
  | O => -1
  | _ => 27
  end.

(** The state in which the first pass of the nominal run enters the
    automatic branch. *)
Definition first_pass_state : State :=
  set_frame (Some {| pixels := 5; overlay := [] |})
    (count_read (loop_start default_args)).

(** *** The line that reports a capture *)

(** [s.startswith(p)] *)
Fixpoint starts_with (p s : string) : bool :=
  match p with
  | "" => true
  | String a p' =>
      match s with
      | "" => false
      | String b s' => Ascii.eqb a b && starts_with p' s'
      end
  end.

(** Lines 72 and 114. *)
Definition captured_line (filename : string) : event :=
  EPrint ("Captured " ++ filename).

(** A write call is followed by the line that reports its path. *)
Definition report_follows (e : event) (rest : list event) : Prop :=
  match e with
  | EWrite filename _ _ => exists rest', rest = captured_line filename :: rest'
  | _ => True
  end.

(** A line that starts with [Captured ] comes right after a write call and
    reports its path. *)
Definition report_justified (hist : list event) (e : event) : Prop :=
  match e with
  | EPrint line =>
      starts_with "Captured " line = true ->
      match hist with
      | EWrite filename _ _ :: _ => EPrint line = captured_line filename
      | _ => False
      end
  | _ => True
  end.

(** The reports of a trace are where they belong. *)
Definition reports_in_place (t : list event) : Prop :=
  each_after report_justified [] t /\ each_before report_follows t.

(** *** Disks *)

(** The same environment with another disk: [oks] says which calls of
    [cv2.imwrite] write their file. *)
Definition with_writes (env : Env) (oks : nat -> bool) : Env :=
  {| output_on_disk := output_on_disk env;
     camera_opens := camera_opens env;
     cam_read := cam_read env;
     key_at := key_at env;
     time_at := time_at env;
     now_at := now_at env;
     imwrite_ok := oks |}.

(** The event without the flag [cv2.imwrite] returned. *)
Definition hide_write_flag (e : event) : event :=
  match e with
  | EWrite filename image _ => EWrite filename image true
  | _ => e
  end.

(** Two computations that differ at most in the flags their write calls
    returned. *)
Definition same_but_flags {A} (o1 o2 : result A * State * list event) : Prop :=
  outcome o1 = outcome o2
  /\ final_state o1 = final_state o2
  /\ map hide_write_flag (trace o1) = map hide_write_flag (trace o2).

(** *** Cameras that fail now and then *)

(** Automatic mode without delay, two images. *)
Definition two_shots_args : Args :=
  {| output := PurePath.parse "captured_images"; count := 2; delay := 0;
     camera := 0; width := 640; height := 480; prefix := "image";
     manual := false; skip_warmup := false |}.

(** Every third read fails among the first thirty, every later read
    succeeds; nobody touches the keyboard. *)
Definition flaky_camera_env : Env :=
  {| output_on_disk := IsDir; camera_opens := true;
     cam_read := fun k =>
       if ((k <? 30) && (k mod 3 =? 0))%nat then None
       else Some {| pixels := k; overlay := [] |};
     key_at := fun _ => -1;
     time_at := fun k => Z.of_nat k * ticks_per_second;
     now_at := fun k =>
       {| year := 2024; month := 5; day := 17;
          hour := 9; minute := 30; second := N.of_nat k |};
     imwrite_ok := fun _ => true |}.

(** * Proofs *)

Ltac unfold_monad :=
  unfold print, sleep, imshow, cap_set, cap_release, destroyAllWindows in *;
  unfold bind, ret, raise, out_of_fuel, emit, get, put, time_time,
    datetime_now, waitKey, cap_read, imwrite, frame_copy in *.

Ltac state_simpl :=
  cbn [img_index frame n_reads n_keys n_times n_nows n_writes
       set_img_index set_frame count_read count_key count_time count_now
       count_write is_some app fst snd] in *.

Ltac msimpl := repeat (progress (unfold_monad; state_simpl)).

(** ** What a trace says *)

Lemma write_calls_app t1 t2 :
  write_calls (t1 ++ t2) = (write_calls t1 ++ write_calls t2)%list.
Proof.
  induction t1 as [|e t1 IH]; [reflexivity|].
  destruct e; simpl; rewrite IH; reflexivity.
Qed.

(** ** Unfolding the loops *)

Section Unfolding.

Variable env : Env.
Variable args : Args.

Lemma countdown_S fuel start s :
  countdown env args (S fuel) start s =
    let s1 := count_time s in
    let remaining :=
      delay args - elapsed_seconds start (time_at env (n_times s)) in
    match frame s with
    | None =>
        (Raise (AttributeError "'NoneType' object has no attribute 'copy'"),
         s1, [])
    | Some image =>
        let shown := countdown_display args image remaining (img_index s) in
        if remaining <=? 0 then (Ret tt, s1, [EShow shown])
        else
          let raw := key_at env (n_keys s) in
          let s2 := count_key s1 in
          if Z.land raw 255 =? 113 then
            (Raise KeyboardInterrupt, s2,
             [EShow shown; EWaitKey 100 raw;
              EPrint "Quitting by user request."])
          else
            let r := cam_read env (n_reads s) in
            let '(res, s', t) :=
              countdown env args fuel start (set_frame r (count_read s2)) in
            (res, s', (tick_events shown raw r ++ t)%list)
    end.
Proof.
  cbn [countdown].
  unfold tick_events; msimpl.
  destruct (frame s) as [image|]; [|reflexivity].
  msimpl.
  destruct (_ <=? 0); [reflexivity|].
  destruct (_ =? 113); [reflexivity|].
  msimpl.
  destruct (cam_read env (n_reads s)) as [f|]; msimpl;
    match goal with |- context [countdown env args fuel start ?x] =>
      destruct (countdown env args fuel start x) as [[res s'] t] end;
    destruct res as [[]| |]; reflexivity.
Qed.

Lemma capture_eq image s :
  capture env args image s = (Ret tt, captured s, capture_events env args image s).
Proof. reflexivity. Qed.

Lemma discard_frames_eq s :
  discard_frames env s = (Ret tt, skip_reads 5 s, discard_events env (n_reads s)).
Proof.
  unfold discard_events. cbn [map seq].
  rewrite Nat.add_0_r, !Nat.add_succ_r, Nat.add_0_r.
  reflexivity.
Qed.

Lemma manual_step_eq image s :
  manual_step env args image s =
    let image' := putText image (manual_text args (img_index s)) (10, 30) in
    let raw := key_at env (n_keys s) in
    let s1 := count_key (set_frame (Some image') s) in
    let polled := [EShow image'; EWaitKey 1 raw] in
    if Z.land raw 255 =? 27 then
      (Ret Break, s1, (polled ++ [EPrint "Quitting by user request."])%list)
    else if Z.land raw 255 =? 32 then
      (Ret Continue, skip_reads 5 (captured s1),
       (polled ++ capture_events env args image' s1
               ++ discard_events env (n_reads s))%list)
    else (Ret Continue, s1, polled).
Proof.
  unfold manual_step.
  unfold bind at 1. unfold get at 1. cbn iota beta.
  unfold bind at 1. unfold put at 1. cbn iota beta.
  unfold bind at 1. unfold imshow at 1, emit at 1. cbn iota beta.
  unfold bind at 1. unfold waitKey at 1. cbn iota beta.
  state_simpl.
  destruct (_ =? 27); [reflexivity|].
  destruct (_ =? 32); [|reflexivity].
  unfold bind at 1. rewrite capture_eq.
  unfold bind at 1. rewrite discard_frames_eq.
  reflexivity.
Qed.

Lemma after_inv {A} t0 (o : result A * State * list event) r s t :
  after t0 o = (r, s, t) -> exists t1, o = (r, s, t1) /\ t = (t0 ++ t1)%list.
Proof.
  destruct o as [[r1 s1] t1]. unfold after. intros H.
  exists t1. split; congruence.
Qed.

Lemma automatic_step_eq fuel s :
  automatic_step env args fuel s =
    match countdown env args fuel (time_at env (n_times s)) (count_time s) with
    | (Ret _, s1, t1) => after t1 (final_capture env args s1)
    | (Raise e, s1, t1) => (Raise e, s1, t1)
    | (OutOfFuel, s1, t1) => (OutOfFuel, s1, t1)
    end.
Proof.
  unfold automatic_step, final_capture.
  unfold bind at 1. unfold time_time at 1. cbn iota beta.
  unfold bind at 1.
  destruct (countdown env args fuel _ _) as [[[[]|e|] s1] t1]; try reflexivity.
  unfold bind at 1. unfold cap_read at 1. cbn iota beta zeta.
  unfold bind at 1. unfold get at 1. cbn iota beta.
  unfold bind at 1. unfold put at 1. cbn iota beta.
  unfold bind at 1.
  destruct (cam_read env (n_reads s1)) as [image|]; cbn [is_some].
  - rewrite capture_eq. unfold bind at 1. rewrite discard_frames_eq.
    reflexivity.
  - unfold print at 1, emit at 1. unfold bind at 1.
    rewrite discard_frames_eq. reflexivity.
Qed.

Lemma loop_body_eq fuel s :
  loop_body env args fuel s =
    let r := cam_read env (n_reads s) in
    let s1 := set_frame r (count_read s) in
    match r with
    | None => (Ret Continue, s1, ERead LoopRead false :: loop_read_warning)
    | Some image =>
        after [ERead LoopRead true]
          (if manual args then manual_step env args image s1
           else automatic_step env args fuel s1)
    end.
Proof.
  unfold loop_body.
  unfold bind at 1. unfold cap_read at 1. cbn iota beta zeta.
  unfold bind at 1. unfold get at 1. cbn iota beta.
  unfold bind at 1. unfold put at 1. cbn iota beta.
  destruct (cam_read env (n_reads s)) as [image|]; cbn [is_some];
    [|reflexivity].
  destruct (manual args).
  - destruct (manual_step _ _ _ _) as [[r s'] t]. reflexivity.
  - destruct (automatic_step _ _ _ _) as [[r s'] t]. reflexivity.
Qed.

Lemma main_loop_eq fuel s :
  main_loop env args fuel s =
    if img_index s <=? count args then
      match fuel with
      | O => (OutOfFuel, s, [])
      | S fuel' =>
          match loop_body env args fuel' s with
          | (Ret Continue, s1, t1) => after t1 (main_loop env args fuel' s1)
          | (Ret Break, s1, t1) => (Ret tt, s1, t1)
          | (Raise e, s1, t1) => (Raise e, s1, t1)
          | (OutOfFuel, s1, t1) => (OutOfFuel, s1, t1)
          end
      end
    else (Ret tt, s, []).
Proof.
  destruct fuel as [|fuel']; cbn [main_loop];
    unfold bind at 1; unfold get at 1; cbn iota beta;
    destruct (_ <=? _); try reflexivity.
  unfold bind at 1.
  destruct (loop_body env args fuel' s) as [[[[]|e|] s1] t1]; try reflexivity.
  - unfold after. destruct (main_loop _ _ _ _) as [[r s'] t]. reflexivity.
  - cbn. rewrite app_nil_r. reflexivity.
Qed.

Lemma guarded_loop_eq fuel s :
  guarded_loop env args fuel s =
    match main_loop env args fuel s with
    | (Ret _, s1, t1) => (Ret tt, s1, (t1 ++ cleanup_events)%list)
    | (Raise KeyboardInterrupt, s1, t1) =>
        (Ret tt, s1,
         (t1 ++ EPrint "Capture interrupted." :: cleanup_events)%list)
    | (Raise e, s1, t1) => (Raise e, s1, (t1 ++ cleanup_events)%list)
    | (OutOfFuel, s1, t1) => (OutOfFuel, s1, t1)
    end.
Proof.
  unfold guarded_loop, try_except_finally.
  destruct (main_loop env args fuel s) as [[[[]|e|] s1] t1];
    try destruct e; reflexivity.
Qed.

Lemma initialize_eq s :
  initialize env args s =
    match mkdir_parents_exist_ok (output args) (output_on_disk env) with
    | Some e =>
        (Raise (SystemExit 1), s,
         [EMkdir (PurePath.to_str (output args)) false; mkdir_error_line args e])
    | None =>
        if camera_opens env then
          if skip_warmup args
          then (Ret tt, s, (setup_events args ++ [starting_line args])%list)
          else (Ret tt, skip_reads 5 s,
                (setup_events args ++ warmup_events env (n_reads s)
                 ++ [starting_line args])%list)
        else
          (Raise (SystemExit 1), s,
           [EMkdir (PurePath.to_str (output args)) true;
            EOpen (camera args) false; camera_error_line args])
    end.
Proof.
  unfold initialize, ensure_dir, mkdir_error_line, camera_error_line,
    starting_line, setup_events, warmup_events.
  destruct (mkdir_parents_exist_ok _ _) as [e|]; [reflexivity|].
  destruct (camera_opens env); [|reflexivity].
  destruct (skip_warmup args); [reflexivity|].
  cbn [map seq]. rewrite Nat.add_0_r, !Nat.add_succ_r, Nat.add_0_r.
  reflexivity.
Qed.

Lemma main_eq fuel s :
  main env args fuel s =
    match initialize env args s with
    | (Ret _, s1, t1) => after t1 (guarded_loop env args fuel (set_img_index 1 s1))
    | (Raise e, s1, t1) => (Raise e, s1, t1)
    | (OutOfFuel, s1, t1) => (OutOfFuel, s1, t1)
    end.
Proof.
  unfold main. unfold bind at 1.
  destruct (initialize env args s) as [[[[]|e|] s1] t1]; try reflexivity.
  unfold bind at 1. unfold get at 1. cbn iota beta.
  unfold bind at 1. unfold put at 1. cbn iota beta.
  unfold after.
  destruct (guarded_loop env args fuel _) as [[r s'] t]. reflexivity.
Qed.

End Unfolding.

(** ** Bookkeeping: the index, the clock of file names and the writes

    Every [imwrite] call is made by [capture], which reads [datetime.now()]
    once, writes once and adds one to [img_index].  So from any state the
    index, the number of [now] readings and the number of writes advance
    together, and the write calls of the trace are the expected ones. *)

Section Bookkeeping.

Variable env : Env.
Variable args : Args.

Lemma expected_writes_app k1 k2 idx nn nw :
  expected_writes env args (k1 + k2) idx nn nw =
    (expected_writes env args k1 idx nn nw
     ++ expected_writes env args k2 (idx + Z.of_nat k1) (nn + k1) (nw + k1))%list.
Proof.
  unfold expected_writes.
  rewrite seq_app, map_app. f_equal.
  cbn [Nat.add].
  rewrite <- (Nat.add_0_r k1) at 1.
  generalize 0%nat as b.
  induction k2 as [|k2 IH]; intro b; [reflexivity|].
  cbn [seq map]. f_equal.
  - rewrite Nat2Z.inj_add, Z.add_assoc, !Nat.add_assoc. reflexivity.
  - rewrite <- Nat.add_succ_r. apply IH.
Qed.

Lemma accounted_quiet s t s' :
  img_index s' = img_index s -> n_nows s' = n_nows s ->
  n_writes s' = n_writes s -> write_calls t = [] ->
  accounted env args 0 s t s'.
Proof.
  intros Hi Hn Hw Ht. unfold accounted. cbn.
  rewrite Hi, Hn, Hw, Ht. repeat split; lia.
Qed.

Lemma accounted_app k1 k2 s t1 s1 t2 s2 :
  accounted env args k1 s t1 s1 -> accounted env args k2 s1 t2 s2 ->
  accounted env args (k1 + k2) s (t1 ++ t2) s2.
Proof.
  intros (Hi1 & Hn1 & Hw1 & Ht1) (Hi2 & Hn2 & Hw2 & Ht2).
  unfold accounted.
  rewrite write_calls_app, expected_writes_app, Ht1, Ht2, Hi2, Hn2, Hw2,
    Hi1, Hn1, Hw1.
  repeat split; lia.
Qed.

Ltac books :=
  unfold accounted, expected_writes, captured, skip_reads, capture_events,
    capture_filename, discard_events, tick_events, loop_read_warning,
    final_read_warning;
  cbn [write_calls map seq app Nat.iter Nat.add Z.of_nat
       img_index frame n_reads n_keys n_times n_nows n_writes
       set_img_index set_frame count_read count_key count_time count_now
       count_write];
  rewrite ?Z.add_0_r, ?Nat.add_0_r;
  repeat split; try lia; try reflexivity.

Lemma accounted_capture image s :
  accounted env args 1 s (capture_events env args image s) (captured s).
Proof. books. Qed.

(** The countdown neither writes nor touches the index. *)
Lemma countdown_accounted fuel : forall start s r s' t,
  countdown env args fuel start s = (r, s', t) -> accounted env args 0 s t s'.
Proof.
  induction fuel as [|fuel IH]; intros start s r s' t H.
  - injection H as <- <- <-. books.
  - rewrite countdown_S in H. cbv zeta in H.
    destruct (frame s) as [image|].
    2:{ injection H as <- <- <-. books. }
    destruct (_ <=? 0).
    { injection H as <- <- <-. books. }
    destruct (_ =? 113).
    { injection H as <- <- <-. books. }
    destruct (countdown env args fuel start _) as [[r1 s1] t1] eqn:E.
    injection H as <- <- <-. apply IH in E.
    apply (accounted_app 0 0 s _ _ _ _) with (2 := E).
    destruct (cam_read env (n_reads s)); books.
Qed.

Lemma accounted_final_capture s r s' t :
  final_capture env args s = (r, s', t) ->
  exists k, (k <= 1)%nat /\ accounted env args k s t s'.
Proof.
  unfold final_capture. intros H.
  destruct (cam_read env (n_reads s)) as [image|]; injection H as <- <- <-.
  - exists 1%nat. split; [lia|]. books.
  - exists 0%nat. split; [lia|]. books.
Qed.

Lemma accounted_manual_step image s r s' t :
  manual_step env args image s = (r, s', t) ->
  exists k, (k <= 1)%nat /\ accounted env args k s t s'.
Proof.
  rewrite manual_step_eq. cbv zeta. intros H.
  destruct (_ =? 27).
  { injection H as <- <- <-. exists 0%nat. split; [lia|]. books. }
  destruct (_ =? 32); injection H as <- <- <-.
  - exists 1%nat. split; [lia|]. books.
  - exists 0%nat. split; [lia|]. books.
Qed.

Lemma accounted_automatic_step fuel s r s' t :
  automatic_step env args fuel s = (r, s', t) ->
  exists k, (k <= 1)%nat /\ accounted env args k s t s'.
Proof.
  rewrite automatic_step_eq. intros H.
  destruct (countdown env args fuel _ _) as [[r1 s1] t1] eqn:E.
  apply countdown_accounted in E.
  assert (E0 : accounted env args 0 s t1 s1).
  { destruct E as (Hi & Hn & Hw & Ht). cbn in Hi, Hn, Hw.
    unfold accounted. rewrite Hi, Hn, Hw, Ht. books. }
  destruct r1 as [[]|e|].
  - destruct (final_capture env args s1) as [[r2 s2] t2] eqn:F.
    apply accounted_final_capture in F. destruct F as (k & Hk & F).
    injection H as <- <- <-. exists k. split; [exact Hk|].
    apply (accounted_app 0 k _ _ _ _ _ E0 F).
  - injection H as <- <- <-. exists 0%nat. split; [lia|exact E0].
  - injection H as <- <- <-. exists 0%nat. split; [lia|exact E0].
Qed.

(** One pass through the loop body makes at most one write and moves the
    index by as much. *)
Lemma loop_body_accounted fuel s r s' t :
  loop_body env args fuel s = (r, s', t) ->
  exists k, (k <= 1)%nat /\ accounted env args k s t s'.
Proof.
  rewrite loop_body_eq. cbv zeta. intros H.
  destruct (cam_read env (n_reads s)) as [image|].
  - set (s1 := set_frame (Some image) (count_read s)) in *.
    assert (E0 : accounted env args 0 s [ERead LoopRead true] s1) by books.
    destruct (manual args).
    + destruct (manual_step env args image s1) as [[r2 s2] t2] eqn:F.
      apply accounted_manual_step in F. destruct F as (k & Hk & F).
      injection H as <- <- <-. exists k. split; [exact Hk|].
      apply (accounted_app 0 k _ _ _ _ _ E0 F).
    + destruct (automatic_step env args fuel s1) as [[r2 s2] t2] eqn:F.
      apply accounted_automatic_step in F. destruct F as (k & Hk & F).
      injection H as <- <- <-. exists k. split; [exact Hk|].
      apply (accounted_app 0 k _ _ _ _ _ E0 F).
  - injection H as <- <- <-. exists 0%nat. split; [lia|]. books.
Qed.

(** The loop stops with the index at most one past the count (or where it
    started, if that was further). *)
Lemma main_loop_accounted fuel : forall s r s' t,
  main_loop env args fuel s = (r, s', t) ->
  exists k, accounted env args k s t s'
            /\ img_index s' <= Z.max (img_index s) (count args + 1).
Proof.
  induction fuel as [|fuel IH]; intros s r s' t H;
    rewrite main_loop_eq in H;
    destruct (img_index s <=? count args) eqn:Hle;
    try (injection H as <- <- <-; exists 0%nat; split; [books|lia]).
  apply Z.leb_le in Hle.
  destruct (loop_body env args fuel s) as [[r1 s1] t1] eqn:B.
  apply loop_body_accounted in B. destruct B as (k1 & Hk1 & B).
  assert (Hs1 : img_index s1 <= count args + 1)
    by (destruct B as (Hi & _); lia).
  destruct r1 as [[]|e|].
  - destruct (main_loop env args fuel s1) as [[r2 s2] t2] eqn:L.
    apply IH in L. destruct L as (k2 & L & Hb).
    injection H as <- <- <-. exists (k1 + k2)%nat.
    split; [eapply accounted_app; eauto|lia].
  - injection H as <- <- <-. exists k1. split; [exact B|lia].
  - injection H as <- <- <-. exists k1. split; [exact B|lia].
  - injection H as <- <- <-. exists k1. split; [exact B|lia].
Qed.

End Bookkeeping.

(** ** File names

    Whatever the output folder and the prefix are, the path returned by
    [build_filename] is a fixed stem followed by
    [_<index>_<timestamp>.jpg], and the index can be read back from it. *)

Section Filenames.

Import PyStr PurePath.

Lemma append_assoc (a b c : string) : (a ++ b) ++ c = a ++ (b ++ c).
Proof. induction a as [|x a IH]; cbn; [reflexivity | rewrite IH; reflexivity]. Qed.

Lemma append_nil_r (a : string) : a ++ "" = a.
Proof. induction a as [|x a IH]; cbn; [reflexivity | rewrite IH; reflexivity]. Qed.

Lemma append_inv_head (a b c : string) : a ++ b = a ++ c -> b = c.
Proof.
  induction a as [|x a IH]; cbn; intros H; [exact H|].
  injection H as H. auto.
Qed.

Lemma has_slash_app a b : has_slash (a ++ b) = has_slash a || has_slash b.
Proof.
  induction a as [|x a IH]; cbn; [reflexivity|].
  rewrite IH, orb_assoc. reflexivity.
Qed.

Lemma all_digits_app a b : all_digits (a ++ b) = all_digits a && all_digits b.
Proof.
  induction a as [|x a IH]; cbn; [reflexivity|].
  rewrite IH, andb_assoc. reflexivity.
Qed.

Lemma is_digit_not_slash c : is_digit c = true -> Ascii.eqb c "/" = false.
Proof.
  intros H. destruct (Ascii.eqb_spec c "/") as [->|]; [discriminate H|reflexivity].
Qed.

Lemma all_digits_no_slash s : all_digits s = true -> has_slash s = false.
Proof.
  induction s as [|c s IH]; cbn; [reflexivity|].
  intros H. apply andb_true_iff in H. destruct H as [Hc Hs].
  rewrite (is_digit_not_slash c Hc), (IH Hs). reflexivity.
Qed.

Lemma all_digits_uint d : all_digits (NilEmpty.string_of_uint d) = true.
Proof. induction d; cbn; auto. Qed.

Lemma dec_eq n : dec n = NilEmpty.string_of_uint (N.to_uint n).
Proof.
  unfold dec, NilZero.string_of_uint.
  destruct (N.to_uint n) eqn:E; try reflexivity.
  destruct n as [|p]; [discriminate E|].
  exfalso. exact (DecimalPos.Unsigned.to_uint_nonnil p E).
Qed.

Lemma all_digits_dec n : all_digits (dec n) = true.
Proof. rewrite dec_eq. apply all_digits_uint. Qed.

Lemma all_digits_zeros k : all_digits (zeros k) = true.
Proof. induction k; cbn; auto. Qed.

Lemma all_digits_zfill w n : all_digits (zfill w (dec n)) = true.
Proof.
  unfold zfill. rewrite all_digits_app, all_digits_zeros, all_digits_dec.
  reflexivity.
Qed.

Lemma has_slash_zfill w n : has_slash (zfill w (dec n)) = false.
Proof. apply all_digits_no_slash, all_digits_zfill. Qed.

Lemma value_of_dec n : value_of (dec n) = Some n.
Proof.
  unfold value_of. rewrite dec_eq, NilEmpty.usu. cbn.
  rewrite DecimalN.Unsigned.of_to. reflexivity.
Qed.

Lemma value_of_zero s : value_of (String "0" s) = value_of s.
Proof.
  unfold value_of. cbn. destruct (NilEmpty.uint_of_string s); reflexivity.
Qed.

Lemma value_of_zfill w n : value_of (zfill w (dec n)) = Some n.
Proof.
  unfold zfill. generalize (w - String.length (dec n))%nat as k.
  induction k as [|k IH]; cbn [zeros append].
  - apply value_of_dec.
  - rewrite value_of_zero. exact IH.
Qed.

Lemma fmt_0d_nonneg w z : 0 <= z -> fmt_0d w z = zfill w (dec (Z.to_N z)).
Proof.
  intros H. unfold fmt_0d.
  destruct (z <? 0) eqn:E; [apply Z.ltb_lt in E; lia | reflexivity].
Qed.

Lemma fmt_0d_inj w i j : 0 <= i -> 0 <= j -> fmt_0d w i = fmt_0d w j -> i = j.
Proof.
  intros Hi Hj H. rewrite !fmt_0d_nonneg in H by assumption.
  apply (f_equal value_of) in H. rewrite !value_of_zfill in H.
  injection H as H. lia.
Qed.

(** Two digit strings that are each followed by an underscore and agree as
    a whole are the same digit string. *)
Lemma digits_before_underscore a b r1 r2 :
  all_digits a = true -> all_digits b = true ->
  a ++ String "_" r1 = b ++ String "_" r2 -> a = b.
Proof.
  revert b. induction a as [|x a IH]; intros [|y b] Ha Hb H; cbn in *.
  - reflexivity.
  - injection H as <- _. discriminate Hb.
  - injection H as -> _. discriminate Ha.
  - injection H as <- H.
    apply andb_true_iff in Ha, Hb. f_equal. apply IH; tauto.
Qed.

Lemma has_slash_strftime now : has_slash (strftime now) = false.
Proof.
  unfold strftime.
  rewrite !has_slash_app, !has_slash_zfill. reflexivity.
Qed.

(** *** Splitting a name whose tail has no slash *)

Lemma split_slash_nonempty s : split_slash s <> [].
Proof.
  destruct s as [|c s]; cbn; [discriminate|].
  destruct (Ascii.eqb c "/"); [discriminate|].
  destruct (split_slash s); discriminate.
Qed.

Lemma split_slash_plain s : has_slash s = false -> split_slash s = [s].
Proof.
  induction s as [|c s IH]; cbn; [reflexivity|].
  intros H. apply orb_false_iff in H. destruct H as [Hc Hs].
  rewrite Hc, (IH Hs). reflexivity.
Qed.

Lemma split_slash_tail p tail :
  has_slash tail = false ->
  exists init last,
    split_slash p = (init ++ [last])%list
    /\ split_slash (p ++ tail) = (init ++ [(last ++ tail)%string])%list.
Proof.
  intros Ht. induction p as [|c p (init & last & Hp & Hpt)]; cbn.
  - exists [], "". rewrite (split_slash_plain _ Ht). split; reflexivity.
  - destruct (Ascii.eqb c "/").
    + exists ("" :: init), last. rewrite Hp, Hpt. split; reflexivity.
    + rewrite Hp, Hpt. destruct init as [|i0 init]; cbn.
      * exists [], (String c last). split; reflexivity.
      * exists (String c i0 :: init), last. split; reflexivity.
Qed.

Lemma leading_slashes_tail p c tail :
  Ascii.eqb c "/" = false ->
  leading_slashes (p ++ String c tail) = leading_slashes p.
Proof.
  intros Hc. induction p as [|x p IH]; cbn.
  - rewrite Hc. reflexivity.
  - destruct (Ascii.eqb x "/"); [rewrite IH|]; reflexivity.
Qed.

Lemma keep_part_tail last tail :
  keep_part (last ++ String "_" tail) = true.
Proof.
  unfold keep_part. destruct last as [|c [|d last]]; cbn; try reflexivity.
  - destruct (Ascii.eqb c "."); reflexivity.
  - destruct (Ascii.eqb c "."); reflexivity.
Qed.

Lemma join_parts_last ps x : join_parts (ps ++ [x]) = join_stem ps ++ x.
Proof.
  induction ps as [|p ps IH]; [reflexivity|].
  cbn [app join_stem]. cbn [join_parts]. rewrite IH.
  destruct (ps ++ [x])%list eqn:E.
  - destruct ps; discriminate E.
  - rewrite !append_assoc. reflexivity.
Qed.

Lemma to_str_last r ps x :
  to_str {| root := r; parts := ps ++ [x] |} = r ++ join_stem ps ++ x.
Proof.
  unfold to_str. cbn [root parts]. rewrite <- join_parts_last.
  destruct (ps ++ [x])%list eqn:E; [destruct ps; discriminate E|].
  destruct r; reflexivity.
Qed.

Lemma to_str_join_tail folder p tail :
  has_slash tail = false ->
  to_str (join folder (p ++ String "_" tail)) = stem folder p ++ String "_" tail.
Proof.
  intros Ht.
  assert (Ht' : has_slash (String "_" tail) = false) by exact Ht.
  destruct (split_slash_tail p _ Ht') as (init & last & Hp & Hpt).
  unfold join, stem, parse. cbn [root parts].
  unfold root_of. rewrite leading_slashes_tail by reflexivity.
  rewrite Hpt, Hp, removelast_last, last_last, !filter_app.
  cbn [filter]. rewrite keep_part_tail.
  destruct (String.eqb _ ""); cbn [root parts].
  - rewrite app_assoc, to_str_last, !append_assoc. reflexivity.
  - rewrite to_str_last, !append_assoc. reflexivity.
Qed.

Lemma filename_at_pattern folder prefix idx now :
  filename_at folder prefix idx now =
    stem folder prefix ++ "_" ++ fmt_0d 3 idx ++ "_" ++ strftime now ++ ".jpg".
Proof.
  unfold filename_at, file_name.
  change (prefix ++ "_" ++ ?x) with (prefix ++ String "_" x).
  apply to_str_join_tail.
  unfold fmt_0d. destruct (idx <? 0).
  - rewrite !has_slash_app, has_slash_strftime, has_slash_zfill. reflexivity.
  - rewrite !has_slash_app, has_slash_strftime, has_slash_zfill. reflexivity.
Qed.

(** The index is determined by the path. *)
Lemma filename_at_inj folder prefix i j now now' :
  0 <= i -> 0 <= j ->
  filename_at folder prefix i now = filename_at folder prefix j now' -> i = j.
Proof.
  intros Hi Hj H. rewrite !filename_at_pattern in H.
  apply append_inv_head in H. cbn [append] in H. injection H as H.
  apply (fmt_0d_inj 3); try assumption.
  rewrite !fmt_0d_nonneg in * by assumption.
  eapply digits_before_underscore; [| |exact H]; apply all_digits_zfill.
Qed.

End Filenames.

(** ** Whole runs *)

Section Runs.

Variable env : Env.
Variable args : Args.

Lemma run_init_ok fuel :
  init_ok env args ->
  run env args fuel
  = after (init_events env args) (guarded_loop env args fuel (loop_start args)).
Proof.
  intros [Hd Hc]. unfold run. rewrite main_eq, initialize_eq, Hd, Hc.
  unfold loop_start, init_events.
  destruct (skip_warmup args); reflexivity.
Qed.

Lemma run_init_failed fuel :
  ~ init_ok env args ->
  exists t, run env args fuel = (Raise (SystemExit 1), initial_state, t)
            /\ write_calls t = [].
Proof.
  intros Hn. unfold run. rewrite main_eq, initialize_eq.
  destruct (mkdir_parents_exist_ok _ _) as [e|] eqn:Hd.
  - eexists. split; reflexivity.
  - destruct (camera_opens env) eqn:Hc.
    + exfalso. apply Hn. split; assumption.
    + eexists. split; reflexivity.
Qed.

Lemma init_ok_dec : init_ok env args \/ ~ init_ok env args.
Proof.
  unfold init_ok.
  destruct (mkdir_parents_exist_ok _ _); destruct (camera_opens env);
    try (left; split; reflexivity); right; intros [H1 H2]; discriminate.
Qed.

Lemma write_calls_init_events : write_calls (init_events env args) = [].
Proof. unfold init_events. destruct (skip_warmup args); reflexivity. Qed.

(** The books of the [try] statement are those of the loop. *)
Lemma guarded_loop_accounted fuel s r s' t :
  guarded_loop env args fuel s = (r, s', t) ->
  exists k, accounted env args k s t s'
            /\ img_index s' <= Z.max (img_index s) (count args + 1).
Proof.
  rewrite guarded_loop_eq. intros H.
  destruct (main_loop env args fuel s) as [[r1 s1] t1] eqn:L.
  apply main_loop_accounted in L. destruct L as (k & L & Hb).
  exists k. split; [|destruct r1 as [[]|[]|]; injection H as <- <- <-; exact Hb].
  assert (Q : forall t2, write_calls t2 = [] ->
                         accounted env args k s (t1 ++ t2) s1).
  { intros t2 H2. rewrite <- (Nat.add_0_r k).
    eapply accounted_app; [exact L|]. apply accounted_quiet; auto. }
  destruct r1 as [[]|[]|]; injection H as <- <- <-;
    try (apply Q; reflexivity).
  exact L.
Qed.

(** The books of a whole run that passed initialization: [k] write calls,
    for the indices 1 to [k], and the index ends at [k + 1]. *)
Lemma run_accounted fuel r s t :
  init_ok env args ->
  run env args fuel = (r, s, t) ->
  exists k : nat,
    img_index s = 1 + Z.of_nat k
    /\ write_calls t = expected_writes env args k 1 0 0
    /\ n_writes s = k
    /\ Z.of_nat k <= Z.max 0 (count args).
Proof.
  intros Hok H. rewrite (run_init_ok fuel Hok) in H.
  apply after_inv in H. destruct H as (t1 & G & ->).
  apply guarded_loop_accounted in G. destruct G as (k & (Hi & Hn & Hw & Ht) & Hb).
  exists k. rewrite write_calls_app, write_calls_init_events, Ht, Hi, Hw.
  assert (E1 : img_index (loop_start args) = 1) by reflexivity.
  assert (E2 : n_nows (loop_start args) = 0%nat)
    by (unfold loop_start; destruct (skip_warmup args); reflexivity).
  assert (E3 : n_writes (loop_start args) = 0%nat)
    by (unfold loop_start; destruct (skip_warmup args); reflexivity).
  rewrite E1, E2, E3. repeat split; try reflexivity.
  rewrite E1, Hi in Hb. lia.
Qed.

End Runs.

(** ** The index and the writes (C7, C10) *)

Lemma expected_writes_paths env args k :
  map fst (expected_writes env args k 1 0 0) =
    map (nth_filename env args) (seq 1 k).
Proof.
  unfold expected_writes. rewrite <- seq_shift, !map_map.
  apply map_ext. intros i. unfold nth_filename. cbn [fst pred Nat.add].
  f_equal. lia.
Qed.

Lemma length_expected_writes env args k idx nn nw :
  List.length (expected_writes env args k idx nn nw) = k.
Proof. unfold expected_writes. rewrite length_map, length_seq. reflexivity. Qed.

Lemma nth_filename_NoDup env args k :
  NoDup (map (nth_filename env args) (seq 1 k)).
Proof.
  apply NoDup_map_NoDup_ForallPairs; [|apply seq_NoDup].
  intros i j _ _ H. unfold nth_filename in H.
  apply filename_at_inj in H; lia.
Qed.

Lemma written_files_le t :
  (List.length (written_files t) <= List.length (write_calls t))%nat.
Proof.
  unfold written_files. rewrite length_map. apply filter_length_le.
Qed.

Lemma written_files_all_ok t :
  forallb snd (write_calls t) = true ->
  written_files t = map fst (write_calls t).
Proof.
  intros H. unfold written_files. rewrite forallb_filter_id by exact H.
  reflexivity.
Qed.

(** Up to a loop test the books balance. *)
Lemma loop_head_accounted env args s t :
  loop_head env args s t ->
  exists k, accounted env args k (loop_start args) t s
            /\ img_index s <= Z.max 1 (count args + 1).
Proof.
  induction 1 as [|fuel s t s' t' _ (k & IH & Hb) Hle B].
  - exists 0%nat. split; [apply accounted_quiet; reflexivity|cbn; lia].
  - apply Z.leb_le in Hle.
    apply loop_body_accounted in B. destruct B as (k1 & Hk1 & B).
    exists (k + k1)%nat. split; [eapply accounted_app; eauto|].
    destruct B as (Hi & _). lia.
Qed.

(** C7. The paths of the [imwrite] calls of a run are, in order, those of
    the indices 1, 2, ..., [k] (one index per call, none skipped or used
    twice, whatever reads failed in between), and they are pairwise
    distinct; so are the files that reached the disk. *)
Theorem C7_filenames_distinct env args fuel :
  let t := trace (run env args fuel) in
  (exists k, map fst (write_calls t) = map (nth_filename env args) (seq 1 k))
  /\ NoDup (map fst (write_calls t))
  /\ NoDup (written_files t).
Proof.
  cbv zeta. unfold trace.
  assert (H : exists k, map fst (write_calls (snd (run env args fuel)))
                        = map (nth_filename env args) (seq 1 k)).
  { destruct (init_ok_dec env args) as [Hok|Hno].
    - destruct (run env args fuel) as [[r s] t] eqn:R.
      destruct (run_accounted env args fuel r s t Hok R) as (k & _ & Ht & _).
      exists k. cbn [snd]. rewrite Ht. apply expected_writes_paths.
    - destruct (run_init_failed env args fuel Hno) as (t & -> & Ht).
      exists 0%nat. cbn [snd]. rewrite Ht. reflexivity. }
  split; [exact H|].
  assert (N : NoDup (map fst (write_calls (snd (run env args fuel))))).
  { destruct H as (k & ->). apply nth_filename_NoDup. }
  split; [exact N|].
  unfold written_files.
  generalize dependent (write_calls (snd (run env args fuel))).
  intros l _ N. induction l as [|[f ok] l IH]; cbn; [constructor|].
  cbn in N. inversion N as [|x xs Hx Hxs]; subst.
  destruct ok; cbn; [|auto].
  constructor; [|auto].
  intros Hin. apply Hx. apply in_map_iff in Hin.
  destruct Hin as ([f' ok'] & Hf & Hin). apply filter_In in Hin.
  apply in_map_iff. exists (f', ok'). tauto.
Qed.

(** C10, as stated, fails when a write fails: the index moves on although
    no file was written.  Manual mode, count 1, SPACE at the first poll, and
    [imwrite] returns [False]: the run ends with index 2 and no file. *)
Lemma C10_counterexample :
  init_ok full_disk_env one_manual_shot
  /\ 1 <= count one_manual_shot
  /\ (let '(r, s, t) := run full_disk_env one_manual_shot 2 in
      r = Ret tt /\ img_index s = 2 /\ written_files t = []
      /\ Z.of_nat (List.length (written_files t)) <> img_index s - 1).
Proof.
  split; [split; reflexivity|].
  split; [cbn; lia|].
  vm_compute. repeat split; discriminate.
Qed.

(** C10 (amended).  With a count that is not negative: at every test of the
    outer loop, and at the end of every run that passed initialization,
    [1 <= img_index <= count + 1] and the number of [imwrite] calls made so
    far is [img_index - 1]; the number of files written is at most that, and
    equal to it when no write failed.  One pass through the loop body leaves
    the index alone and makes no write call, or adds one to it and makes
    exactly one; the countdown does neither. *)
Theorem C10_index_counts_write_calls env args :
  0 <= count args ->
  (forall s t, loop_head env args s t ->
     1 <= img_index s <= count args + 1
     /\ Z.of_nat (List.length (write_calls t)) = img_index s - 1
     /\ (List.length (written_files t) <= List.length (write_calls t))%nat
     /\ (forallb snd (write_calls t) = true ->
         Z.of_nat (List.length (written_files t)) = img_index s - 1))
  /\ (forall fuel, init_ok env args ->
        let '(_, s, t) := run env args fuel in
        1 <= img_index s <= count args + 1
        /\ Z.of_nat (List.length (write_calls t)) = img_index s - 1
        /\ (forallb snd (write_calls t) = true ->
            Z.of_nat (List.length (written_files t)) = img_index s - 1))
  /\ (forall fuel s,
        let '(_, s', t) := loop_body env args fuel s in
        (img_index s' = img_index s /\ write_calls t = [])
        \/ (img_index s' = img_index s + 1
            /\ List.length (write_calls t) = 1%nat))
  /\ (forall fuel start s,
        let '(_, s', t) := countdown env args fuel start s in
        img_index s' = img_index s /\ write_calls t = []).
Proof.
  intros Hc. split; [|split; [|split]].
  - intros s t H.
    apply loop_head_accounted in H. destruct H as (k & (Hi & _ & _ & Ht) & Hb).
    change (img_index (loop_start args)) with 1 in Hi.
    assert (Hl : List.length (write_calls t) = k)
      by (rewrite Ht; apply length_expected_writes).
    split; [lia|]. split; [lia|]. split; [apply written_files_le|].
    intros Hok.
    rewrite (written_files_all_ok t Hok), length_map. lia.
  - intros fuel Hok. destruct (run env args fuel) as [[r s] t] eqn:R.
    destruct (run_accounted env args fuel r s t Hok R) as (k & Hi & Ht & _ & Hb).
    assert (Hl : List.length (write_calls t) = k)
      by (rewrite Ht; apply length_expected_writes).
    repeat split; try lia.
    intros Hall. rewrite (written_files_all_ok t Hall), length_map. lia.
  - intros fuel s. destruct (loop_body env args fuel s) as [[r s'] t] eqn:B.
    apply loop_body_accounted in B.
    destruct B as (k & Hk & Hi & _ & _ & Ht).
    rewrite Ht, length_expected_writes.
    assert (Hk' : k = 0%nat \/ k = 1%nat) by lia.
    destruct Hk' as [-> | ->]; [left|right]; split; try reflexivity;
      rewrite Hi; cbn [Z.of_nat]; lia.
  - intros fuel start s.
    destruct (countdown env args fuel start s) as [[r s'] t] eqn:C.
    apply countdown_accounted in C. destruct C as (Hi & _ & _ & Ht).
    rewrite Hi, Ht. cbn [Z.of_nat]. split; [lia|reflexivity].
Qed.

(** The invariant at work on the default command line. *)
Lemma C10_index_counts_write_calls_witness :
  0 <= count default_args
  /\ (forall s t, loop_head nominal_env default_args s t ->
        1 <= img_index s <= 6).
Proof.
  split; [cbn; lia|].
  intros s t H.
  assert (Hc : 0 <= count default_args) by (cbn; lia).
  exact (proj1 (proj1 (C10_index_counts_write_calls nominal_env default_args Hc)
                  s t H)).
Defined.

(** ** The shape of the loop's trace

    The trace of the loop is a sequence of blocks, each left by one stretch
    of straight-line code.  A property of traces that holds of the empty
    trace, of every block, and of the concatenation of two traces it holds
    of, holds of the trace of the loop, however far the loop got. *)

Section TraceShape.

Variable env : Env.
Variable args : Args.
Variable Q : list event -> Prop.

Hypothesis Q_nil : Q [].
Hypothesis Q_app : forall t1 t2, Q t1 -> Q t2 -> Q (t1 ++ t2).

Hypothesis Q_loop_read : Q [ERead LoopRead true].
Hypothesis Q_loop_read_failed : Q (ERead LoopRead false :: loop_read_warning).

Hypothesis Q_manual_quit : forall image raw,
  manual args = true -> Z.land raw 255 = 27 ->
  Q [EShow image; EWaitKey 1 raw; EPrint "Quitting by user request."].
Hypothesis Q_manual_capture : forall image raw s n,
  manual args = true -> Z.land raw 255 = 32 ->
  Q ([EShow image; EWaitKey 1 raw]
     ++ capture_events env args image s ++ discard_events env n).
Hypothesis Q_manual_idle : forall image raw,
  manual args = true -> Z.land raw 255 <> 27 -> Z.land raw 255 <> 32 ->
  Q [EShow image; EWaitKey 1 raw].

(** In the countdown, [k] numbers the clock reading taken as [start_time]
    and [j] the later one compared with it. *)
Hypothesis Q_tick : forall image idx raw r (k j : nat),
  manual args = false -> (k < j)%nat ->
  let remaining :=
    delay args - elapsed_seconds (time_at env k) (time_at env j) in
  0 < remaining -> Z.land raw 255 <> 113 ->
  Q (tick_events (countdown_display args image remaining idx) raw r).
Hypothesis Q_quit : forall image idx raw (k j : nat),
  manual args = false -> (k < j)%nat ->
  let remaining :=
    delay args - elapsed_seconds (time_at env k) (time_at env j) in
  0 < remaining -> Z.land raw 255 = 113 ->
  Q [EShow (countdown_display args image remaining idx); EWaitKey 100 raw;
     EPrint "Quitting by user request."].
Hypothesis Q_countdown_over : forall image idx (k j : nat),
  manual args = false -> (k < j)%nat ->
  let remaining :=
    delay args - elapsed_seconds (time_at env k) (time_at env j) in
  remaining <= 0 ->
  Q [EShow (countdown_display args image remaining idx)].
Hypothesis Q_final_capture : forall image s n,
  manual args = false ->
  Q (ERead FinalRead true
     :: capture_events env args image s ++ discard_events env n).
Hypothesis Q_final_read_failed : forall n,
  manual args = false ->
  Q (ERead FinalRead false :: final_read_warning :: discard_events env n).

Lemma countdown_shape (Hauto : manual args = false) fuel : forall k s,
  (k < n_times s)%nat ->
  Q (snd (countdown env args fuel (time_at env k) s)).
Proof.
  induction fuel as [|fuel IH]; intros k s Hk; [exact Q_nil|].
  rewrite countdown_S. cbv zeta.
  destruct (frame s) as [image|]; [|exact Q_nil].
  destruct (_ <=? 0) eqn:Hr.
  { apply Z.leb_le in Hr. apply Q_countdown_over; assumption. }
  apply Z.leb_gt in Hr.
  destruct (_ =? 113) eqn:Hq.
  { apply Z.eqb_eq in Hq. apply Q_quit; assumption. }
  apply Z.eqb_neq in Hq.
  match goal with |- context [countdown env args fuel _ ?x] =>
    specialize (IH k x); destruct (countdown env args fuel (time_at env k) x)
      as [[r1 s1] t1] end.
  cbn [snd] in *. apply Q_app.
  - apply Q_tick; assumption.
  - apply IH. cbn. lia.
Qed.

Lemma automatic_step_shape (Hauto : manual args = false) fuel s :
  Q (snd (automatic_step env args fuel s)).
Proof.
  rewrite automatic_step_eq.
  pose proof (countdown_shape Hauto fuel (n_times s) (count_time s)) as C.
  destruct (countdown env args fuel _ _) as [[[[]|e|] s1] t1];
    cbn [snd] in C; try (apply C; cbn; lia).
  unfold final_capture.
  destruct (cam_read env (n_reads s1)) as [image|]; cbn [after snd];
    (apply Q_app; [apply C; cbn; lia|]).
  - apply Q_final_capture; assumption.
  - apply Q_final_read_failed; assumption.
Qed.

Lemma manual_step_shape (Hman : manual args = true) image s :
  Q (snd (manual_step env args image s)).
Proof.
  rewrite manual_step_eq. cbv zeta.
  destruct (_ =? 27) eqn:H27.
  { apply Z.eqb_eq in H27. apply Q_manual_quit; assumption. }
  apply Z.eqb_neq in H27.
  destruct (_ =? 32) eqn:H32.
  - apply Z.eqb_eq in H32. apply Q_manual_capture; assumption.
  - apply Z.eqb_neq in H32. apply Q_manual_idle; assumption.
Qed.

Lemma loop_body_shape fuel s : Q (snd (loop_body env args fuel s)).
Proof.
  rewrite loop_body_eq. cbv zeta.
  destruct (cam_read env (n_reads s)) as [image|]; [|exact Q_loop_read_failed].
  assert (Hm : manual args = true \/ manual args = false)
    by (destruct (manual args); auto).
  destruct Hm as [Hm|Hm]; rewrite Hm.
  - pose proof (manual_step_shape Hm image
                  (set_frame (Some image) (count_read s))) as M.
    destruct (manual_step _ _ _ _) as [[r1 s1] t1]. cbn [after snd] in *.
    apply Q_app; assumption.
  - pose proof (automatic_step_shape Hm fuel
                  (set_frame (Some image) (count_read s))) as A.
    destruct (automatic_step _ _ _ _) as [[r1 s1] t1]. cbn [after snd] in *.
    apply Q_app; assumption.
Qed.

Lemma main_loop_shape fuel : forall s, Q (snd (main_loop env args fuel s)).
Proof.
  induction fuel as [|fuel IH]; intros s; rewrite main_loop_eq;
    destruct (_ <=? _); try exact Q_nil.
  pose proof (loop_body_shape fuel s) as B.
  destruct (loop_body env args fuel s) as [[[[]|e|] s1] t1];
    cbn [snd] in B; try exact B.
  specialize (IH s1).
  destruct (main_loop env args fuel s1) as [[r2 s2] t2]. cbn [after snd] in *.
  apply Q_app; assumption.
Qed.

End TraceShape.

(** ** Finalization (C5) *)

Lemma main_loop_no_cleanup env args fuel s :
  existsb is_cleanup (trace (main_loop env args fuel s)) = false.
Proof.
  unfold trace.
  apply (main_loop_shape env args (fun t => existsb is_cleanup t = false));
    try (intros; reflexivity).
  - intros t1 t2 H1 H2. rewrite existsb_app, H1, H2. reflexivity.
  - intros. unfold tick_events. destruct (is_some r); reflexivity.
Qed.

Lemma init_events_no_cleanup env args :
  existsb is_cleanup (init_events env args) = false.
Proof. unfold init_events. destruct (skip_warmup args); reflexivity. Qed.

(** C5. A run that passed initialization and has ended, on whatever path,
    has run the finalization exactly once, as its last three actions:
    release the camera, close the windows, print the completion line. *)
Theorem C5_finalization_once env args fuel :
  init_ok env args ->
  outcome (run env args fuel) <> OutOfFuel ->
  exists t0,
    trace (run env args fuel) = (t0 ++ cleanup_events)%list
    /\ existsb is_cleanup t0 = false.
Proof.
  intros Hok Hend. rewrite (run_init_ok env args fuel Hok) in *.
  rewrite guarded_loop_eq in *.
  pose proof (main_loop_no_cleanup env args fuel (loop_start args)) as L.
  pose proof (init_events_no_cleanup env args) as I.
  destruct (main_loop env args fuel (loop_start args)) as [[[[]|[]|] s1] t1];
    unfold trace, outcome in *; cbn [after fst snd] in *;
    try contradiction;
    try (exists (init_events env args ++ t1)%list;
         rewrite app_assoc, existsb_app, I, L; split; reflexivity).
  exists (init_events env args ++ t1 ++ [EPrint "Capture interrupted."])%list.
  rewrite !existsb_app, I, L. split; [|reflexivity].
  rewrite <- !app_assoc. reflexivity.
Qed.

(** The three ways out, each with its finalization: the count reached, ESC
    in manual mode, [q] during the countdown. *)
Lemma C5_finalization_once_witness :
  (init_ok nominal_env default_args
   /\ outcome (run nominal_env default_args 10) = Ret tt
   /\ exists t0,
        trace (run nominal_env default_args 10) = (t0 ++ cleanup_events)%list
        /\ existsb is_cleanup t0 = false)
  /\ (init_ok esc_env manual_args
      /\ outcome (run esc_env manual_args 10) = Ret tt
      /\ exists t0,
           trace (run esc_env manual_args 10) = (t0 ++ cleanup_events)%list
           /\ existsb is_cleanup t0 = false)
  /\ (init_ok quit_env default_args
      /\ outcome (run quit_env default_args 10) = Ret tt
      /\ exists t0,
           trace (run quit_env default_args 10) = (t0 ++ cleanup_events)%list
           /\ existsb is_cleanup t0 = false).
Proof.
  repeat split; try reflexivity.
  - apply (C5_finalization_once nominal_env default_args 10);
      [split; reflexivity | vm_compute; discriminate].
  - apply (C5_finalization_once esc_env manual_args 10);
      [split; reflexivity | vm_compute; discriminate].
  - apply (C5_finalization_once quit_env default_args 10);
      [split; reflexivity | vm_compute; discriminate].
Defined.

(** ** Discarded frames (C3) *)











(** The trace of a run: nothing but setup events when the initialization
    failed, else the events of the initialization, those of the loop, and
    after a loop that ended the interrupt line, if it was interrupted, and
    the finalization. *)
Lemma run_trace env args fuel :
  forallb is_setup_event (trace (run env args fuel)) = true
  \/ exists tail,
       trace (run env args fuel)
       = (init_events env args
          ++ trace (main_loop env args fuel (loop_start args))
          ++ tail)%list
       /\ (tail = [] \/ tail = cleanup_events
           \/ tail = EPrint "Capture interrupted." :: cleanup_events).
Proof.
  destruct (init_ok_dec env args) as [Hok|Hno].
  - right.
    rewrite (run_init_ok env args fuel Hok), guarded_loop_eq.
    destruct (main_loop env args fuel (loop_start args))
      as [[[[]|e|] s1] t1]; [|destruct e|];
      unfold trace; cbn [after fst snd];
      first [ exists cleanup_events; split; [reflexivity|auto]
            | exists (EPrint "Capture interrupted." :: cleanup_events);
              split; [reflexivity|auto]
            | exists []; split; [rewrite app_nil_r; reflexivity|auto] ].
  - left.
    unfold run. rewrite main_eq, initialize_eq.
    destruct (mkdir_parents_exist_ok _ _) eqn:Hd; [reflexivity|].
    destruct (camera_opens env) eqn:Hc; [|reflexivity].
    exfalso. apply Hno. split; assumption.
Qed.




(** ** A failed final read (C4) *)






(** ** The quit key in automatic mode (C9) *)

Lemma clock_monotone_le env k j :
  clock_monotone env -> (k <= j)%nat -> time_at env k <= time_at env j.
Proof.
  intros Hm Hkj. induction Hkj as [|j _ IH]; [lia|].
  specialize (Hm j). lia.
Qed.

Lemma elapsed_seconds_nonneg env k j :
  clock_monotone env -> (k <= j)%nat ->
  0 <= elapsed_seconds (time_at env k) (time_at env j).
Proof.
  intros Hm Hkj. unfold elapsed_seconds.
  pose proof (clock_monotone_le env k j Hm Hkj).
  apply Z.quot_pos; [lia|reflexivity].
Qed.

Lemma positive_countdown_text r :
  0 < r ->
  countdown_text r = "Capturing in " ++ PyStr.str_of_Z r ++ " sec".
Proof.
  intros H. unfold countdown_text.
  destruct (0 <? r) eqn:E; [reflexivity|apply Z.ltb_ge in E; lia].
Qed.

Lemma polls_guarded_weaken args t : forall p,
  polls_guarded args None t -> polls_guarded args p t.
Proof.
  destruct t as [|e t]; intros p H; [exact I|].
  cbn in *. destruct H as [H1 H2]. split; [|exact H2].
  intros He. destruct (H1 He) as (? & ? & ? & Hp & _). discriminate Hp.
Qed.

Lemma polls_guarded_app args t1 : forall p t2,
  polls_guarded args p t1 -> polls_guarded args None t2 ->
  polls_guarded args p (t1 ++ t2).
Proof.
  induction t1 as [|e t1 IH]; intros p t2 H1 H2; cbn.
  - apply polls_guarded_weaken. exact H2.
  - cbn in H1. destruct H1 as [He H1]. split; [exact He|]. apply IH; assumption.
Qed.

Lemma polls_guarded_split args pre : forall p ms raw post,
  polls_guarded args p (pre ++ EWaitKey ms raw :: post) ->
  exists image remaining idx,
    0 < remaining
    /\ let shown := EShow (countdown_display args image remaining idx) in
       (pre = [] /\ p = Some shown) \/ (exists pre', pre = (pre' ++ [shown])%list).
Proof.
  induction pre as [|e pre IH]; intros p ms raw post H; cbn in H.
  - destruct H as [H _]. destruct (H eq_refl) as (image & r & idx & Hp & Hr).
    exists image, r, idx. split; [exact Hr|]. left. split; [reflexivity|exact Hp].
  - destruct H as [_ H]. apply IH in H.
    destruct H as (image & r & idx & Hr & [[-> He]|[pre' ->]]);
      exists image, r, idx; (split; [exact Hr|]); right.
    + injection He as ->. exists []. reflexivity.
    + exists (e :: pre'). reflexivity.
Qed.

Lemma main_loop_polls_guarded env args fuel s :
  manual args = false ->
  polls_guarded args None (trace (main_loop env args fuel s)).
Proof.
  intros Hauto. unfold trace.
  apply (main_loop_shape env args (polls_guarded args None));
    try (intros; congruence);
    try (intros; cbn; repeat split; discriminate).
  - intros t1 t2. apply polls_guarded_app.
  - intros image idx raw r k j _ _ remaining Hr _.
    unfold tick_events. cbn. repeat split; try discriminate.
    + intros _. exists image, remaining, idx. split; [reflexivity|exact Hr].
    + destruct (is_some r); cbn; repeat split; discriminate.
  - intros image idx raw k j _ _ remaining Hr _.
    cbn. repeat split; try discriminate.
    intros _. exists image, remaining, idx. split; [reflexivity|exact Hr].
Qed.

Lemma monotone_never_set_back env :
  clock_monotone env -> never_set_back_a_second env.
Proof.
  intros Hm k j Hkj. pose proof (clock_monotone_le env k j Hm Hkj).
  unfold ticks_per_second. lia.
Qed.

(** [int] truncates towards zero: less than a second back is no second
    back. *)
Lemma elapsed_seconds_not_negative env k j :
  never_set_back_a_second env -> (k <= j)%nat ->
  0 <= elapsed_seconds (time_at env k) (time_at env j).
Proof.
  intros Hc Hkj. specialize (Hc k j Hkj). unfold elapsed_seconds.
  destruct (Z.le_gt_cases 0 (time_at env j - time_at env k)) as [Hp|Hn].
  - apply Z.quot_pos; [exact Hp|reflexivity].
  - replace (time_at env j - time_at env k)
      with (- (time_at env k - time_at env j)) by lia.
    rewrite Z.quot_opp_l by discriminate.
    rewrite Z.quot_small by lia. reflexivity.
Qed.

Lemma main_loop_polls_nothing env args fuel s :
  manual args = false -> delay args = 0 -> never_set_back_a_second env ->
  existsb (fun e => is_key_poll e || is_quit_line e)
    (trace (main_loop env args fuel s)) = false.
Proof.
  intros Hauto Hd Hm. unfold trace.
  apply (main_loop_shape env args
           (fun t => existsb (fun e => is_key_poll e || is_quit_line e) t
                     = false));
    try (intros; congruence); try (intros; reflexivity).
  - intros t1 t2 H1 H2. rewrite existsb_app, H1, H2. reflexivity.
  - intros image idx raw r k j _ Hkj remaining Hr _. exfalso.
    pose proof (elapsed_seconds_not_negative env k j Hm
                  (Nat.lt_le_incl _ _ Hkj)).
    subst remaining. lia.
  - intros image idx raw k j _ Hkj remaining Hr _. exfalso.
    pose proof (elapsed_seconds_not_negative env k j Hm
                  (Nat.lt_le_incl _ _ Hkj)).
    subst remaining. lia.
Qed.

(** An interrupt is raised only after the quit line was printed. *)
Lemma countdown_interrupt_announced env args fuel : forall start s,
  outcome (countdown env args fuel start s) = Raise KeyboardInterrupt ->
  existsb is_quit_line (trace (countdown env args fuel start s)) = true.
Proof.
  unfold outcome, trace.
  induction fuel as [|fuel IH]; intros start s; [discriminate|].
  rewrite countdown_S. cbv zeta.
  destruct (frame s); [|discriminate].
  destruct (_ <=? 0); [discriminate|].
  destruct (_ =? 113); [reflexivity|].
  match goal with |- context [countdown env args fuel start ?x] =>
    specialize (IH start x); destruct (countdown env args fuel start x)
      as [[r1 s1] t1] end.
  cbn [fst snd] in *. intros H. rewrite existsb_app, (IH H).
  apply orb_true_r.
Qed.

Lemma loop_body_interrupt_announced env args fuel s :
  outcome (loop_body env args fuel s) = Raise KeyboardInterrupt ->
  existsb is_quit_line (trace (loop_body env args fuel s)) = true.
Proof.
  unfold outcome, trace. rewrite loop_body_eq. cbv zeta.
  destruct (cam_read env (n_reads s)) as [image|]; [|discriminate].
  destruct (manual args).
  - rewrite manual_step_eq. cbv zeta.
    destruct (_ =? 27); [discriminate|]. destruct (_ =? 32); discriminate.
  - rewrite automatic_step_eq.
    pose proof (countdown_interrupt_announced env args fuel
                  (time_at env (n_times (set_frame (Some image) (count_read s))))
                  (count_time (set_frame (Some image) (count_read s)))) as C.
    unfold outcome, trace in C.
    destruct (countdown env args fuel _ _) as [[[[]|e|] s1] t1];
      cbn [after fst snd] in *; try discriminate.
    + unfold final_capture. destruct (cam_read env (n_reads s1)); discriminate.
    + intros H. cbn [existsb is_quit_line orb]. apply C. congruence.
Qed.

Lemma main_loop_interrupt_announced env args fuel : forall s,
  outcome (main_loop env args fuel s) = Raise KeyboardInterrupt ->
  existsb is_quit_line (trace (main_loop env args fuel s)) = true.
Proof.
  unfold outcome, trace.
  induction fuel as [|fuel IH]; intros s; rewrite main_loop_eq;
    destruct (_ <=? _); try discriminate.
  pose proof (loop_body_interrupt_announced env args fuel s) as B.
  unfold outcome, trace in B.
  destruct (loop_body env args fuel s) as [[[[]|e|] s1] t1];
    cbn [fst snd] in *; try discriminate;
    try (intros H; apply B; congruence).
  specialize (IH s1).
  destruct (main_loop env args fuel s1) as [[r2 s2] t2].
  cbn [after fst snd] in *. intros H. rewrite existsb_app, (IH H).
  apply orb_true_r.
Qed.

Lemma init_events_no_poll env args :
  existsb (fun e => is_key_poll e || is_quit_line e) (init_events env args)
  = false.
Proof. unfold init_events. destruct (skip_warmup args); reflexivity. Qed.

Lemma init_events_polls_guarded env args p :
  polls_guarded args p (init_events env args).
Proof.
  unfold init_events.
  destruct (skip_warmup args); cbn; repeat split; discriminate.
Qed.

(** C9, as stated, fails when the clock is set back: with delay 0, the
    first reading of the countdown is two seconds before its start, so
    [elapsed] is -2 and [remaining] is 2.  The preview says
    [Capturing in 2 sec], the key is polled, [q] is read and the run is
    cancelled without a file. *)
Lemma C9_counterexample :
  let o := run clock_set_back_env one_shot_args 2 in
  manual one_shot_args = false
  /\ delay one_shot_args = 0
  /\ init_ok clock_set_back_env one_shot_args
  /\ elapsed_seconds (time_at clock_set_back_env 0) (time_at clock_set_back_env 1)
     = -2
  /\ existsb is_key_poll (trace o) = true
  /\ skipn 10 (trace o)
     = [ERead LoopRead true;
        EShow {| pixels := 5;
                 overlay := [("Capturing in 2 sec", (10, 30));
                             ("1/1", (10, 470))] |};
        EWaitKey 100 113;
        EPrint "Quitting by user request.";
        EPrint "Capture interrupted.";
        ERelease; EDestroyAllWindows; EPrint "Cleanup done."]
  /\ outcome o = Ret tt
  /\ written_files (trace o) = [].
Proof.
  cbv zeta. split; [reflexivity|]. split; [reflexivity|].
  split; [split; reflexivity|].
  vm_compute. repeat split.
Qed.

(** C9 (amended).  In automatic mode: (1) with delay 0 and a clock that is
    never set back by a whole second or more (so also with one that never
    runs backwards), a countdown that has a frame ends in its first turn,
    after drawing the preview and before any key poll; no run ever polls
    the keyboard, prints a quit line or is interrupted.  (2) Whatever the
    delay and the clock, every key poll of a run comes right after the
    preview drawn for a positive number of remaining seconds. *)
Theorem C9_no_poll_without_delay env args :
  manual args = false ->
  (delay args = 0 -> never_set_back_a_second env ->
   (forall fuel k s image,
      frame s = Some image -> (k < n_times s)%nat ->
      countdown env args (S fuel) (time_at env k) s
      = (Ret tt, count_time s,
         [EShow (countdown_display args image
                   (0 - elapsed_seconds (time_at env k)
                          (time_at env (n_times s)))
                   (img_index s))]))
   /\ (forall fuel,
         existsb is_key_poll (trace (run env args fuel)) = false
         /\ existsb is_quit_line (trace (run env args fuel)) = false))
  /\ (clock_monotone env -> never_set_back_a_second env)
  /\ (forall fuel pre ms raw post,
        trace (run env args fuel) = (pre ++ EWaitKey ms raw :: post)%list ->
        exists pre' image remaining idx,
          0 < remaining
          /\ pre = (pre' ++ [EShow (countdown_display args image remaining idx)])%list).
Proof.
  intros Hauto. split; [|split; [apply monotone_never_set_back|]].
  - intros Hd Hm. split.
    + intros fuel k s image Hf Hk.
      rewrite countdown_S, Hf, Hd. cbv zeta.
      pose proof (elapsed_seconds_not_negative env k (n_times s) Hm
                    (Nat.lt_le_incl _ _ Hk)) as He.
      destruct (_ <=? 0) eqn:E; [reflexivity|].
      apply Z.leb_gt in E. lia.
    + intros fuel.
      assert (H : existsb (fun e => is_key_poll e || is_quit_line e)
                    (trace (run env args fuel)) = false).
      { destruct (init_ok_dec env args) as [Hok|Hno].
        - rewrite (run_init_ok env args fuel Hok), guarded_loop_eq.
          pose proof (main_loop_polls_nothing env args fuel (loop_start args)
                        Hauto Hd Hm) as L.
          pose proof (init_events_no_poll env args) as I.
          assert (K : outcome (main_loop env args fuel (loop_start args))
                      <> Raise KeyboardInterrupt).
          { intros K. apply main_loop_interrupt_announced in K.
            apply existsb_exists in K. destruct K as (e & Hin & He).
            assert (X : existsb (fun e => is_key_poll e || is_quit_line e)
                          (trace (main_loop env args fuel (loop_start args)))
                        = true)
              by (apply existsb_exists; exists e; rewrite He, orb_true_r; auto).
            congruence. }
          destruct (main_loop env args fuel (loop_start args))
            as [[[[]|[]|] s1] t1];
            unfold trace, outcome in *; cbn [after fst snd] in *;
            rewrite ?existsb_app, I, L; try reflexivity.
          contradiction.
        - destruct (run_init_failed env args fuel Hno) as (t & R & _).
          unfold run in *. rewrite main_eq, initialize_eq in *.
          destruct (mkdir_parents_exist_ok _ _) eqn:Hmk; [reflexivity|].
          destruct (camera_opens env) eqn:Hc; [|reflexivity].
          exfalso. apply Hno. split; assumption. }
      split.
      * apply not_true_is_false. intros E. apply existsb_exists in E.
        destruct E as (e & Hin & He).
        assert (X : existsb (fun e => is_key_poll e || is_quit_line e)
                      (trace (run env args fuel)) = true)
          by (apply existsb_exists; exists e; rewrite He; auto).
        congruence.
      * apply not_true_is_false. intros E. apply existsb_exists in E.
        destruct E as (e & Hin & He).
        assert (X : existsb (fun e => is_key_poll e || is_quit_line e)
                      (trace (run env args fuel)) = true)
          by (apply existsb_exists; exists e; rewrite He, orb_true_r; auto).
        congruence.
  - intros fuel pre ms raw post H.
    assert (G : polls_guarded args None (trace (run env args fuel))).
    { destruct (init_ok_dec env args) as [Hok|Hno].
      - rewrite (run_init_ok env args fuel Hok), guarded_loop_eq.
        pose proof (main_loop_polls_guarded env args fuel (loop_start args)
                      Hauto) as L.
        pose proof (init_events_polls_guarded env args None) as I.
        destruct (main_loop env args fuel (loop_start args))
          as [[[[]|[]|] s1] t1];
          unfold trace in *; cbn [after fst snd] in *;
          repeat (apply polls_guarded_app; try assumption);
          cbn; repeat split; discriminate.
      - unfold run. rewrite main_eq, initialize_eq.
        destruct (mkdir_parents_exist_ok _ _) eqn:Hmk;
          [cbn; repeat split; discriminate|].
        destruct (camera_opens env) eqn:Hc;
          [|cbn; repeat split; discriminate].
        exfalso. apply Hno. split; assumption. }
    rewrite H in G. apply polls_guarded_split in G.
    destruct G as (image & r & idx & Hr & [[_ Hn]|[pre' ->]]);
      [discriminate Hn|].
    exists pre', image, r, idx. split; [exact Hr|reflexivity].
Qed.

Lemma nominal_clock_monotone : clock_monotone nominal_env.
Proof.
  intros k. cbn [time_at nominal_env]. unfold ticks_per_second. lia.
Defined.

(** Without delay the nominal run takes its three images and never looks at
    the keyboard. *)
Lemma C9_no_poll_without_delay_witness :
  manual no_delay_args = false
  /\ delay no_delay_args = 0
  /\ clock_monotone nominal_env
  /\ never_set_back_a_second nominal_env
  /\ existsb is_key_poll (trace (run nominal_env no_delay_args 10)) = false
  /\ List.length (written_files (trace (run nominal_env no_delay_args 10)))
     = 3%nat.
Proof.
  assert (H1 : manual no_delay_args = false) by reflexivity.
  assert (H2 : delay no_delay_args = 0) by reflexivity.
  destruct (C9_no_poll_without_delay nominal_env no_delay_args H1)
    as (P1 & P2 & _).
  pose proof (P2 nominal_clock_monotone) as H3.
  split; [exact H1|]. split; [exact H2|].
  split; [exact nominal_clock_monotone|]. split; [exact H3|].
  split; [|reflexivity].
  exact (proj1 (proj2 (P1 H2 H3) 10%nat)).
Defined.

(** With the default delay of three seconds the same keyboard is polled. *)
Example nominal_run_polls :
  existsb is_key_poll (trace (run nominal_env default_args 10)) = true.
Proof. reflexivity. Qed.

(** ** Manual mode: capture and cancel (C8) *)


Lemma outcome_after {A} t0 (o : result A * State * list event) :
  outcome (after t0 o) = outcome o.
Proof. destruct o as [[r s] t]. reflexivity. Qed.

Lemma final_state_after {A} t0 (o : result A * State * list event) :
  final_state (after t0 o) = final_state o.
Proof. destruct o as [[r s] t]. reflexivity. Qed.


(** A run whose loop returned has returned, in the state the loop ended in. *)
Lemma run_of_loop env args fuel :
  init_ok env args ->
  outcome (main_loop env args fuel (loop_start args)) = Ret tt ->
  outcome (run env args fuel) = Ret tt
  /\ final_state (run env args fuel)
     = final_state (main_loop env args fuel (loop_start args)).
Proof.
  intros Hok H. rewrite (run_init_ok env args fuel Hok).
  rewrite outcome_after, final_state_after, guarded_loop_eq.
  destruct (main_loop env args fuel (loop_start args)) as [[[[]|e|] s1] t1];
    try discriminate H.
  split; reflexivity.
Qed.







(** ** A frame dropped during the countdown (C2, C6) *)

(** A countdown entered without a frame raises at once. *)
Lemma countdown_without_frame env args fuel start s :
  frame s = None ->
  countdown env args (S fuel) start s = (Raise no_copy_error, count_time s, []).
Proof. intros H. rewrite countdown_S, H. reflexivity. Qed.

(** A turn of the countdown whose preview read fails is the last one: the
    warning is printed, and the next turn raises before it draws anything. *)
Lemma countdown_dropped_frame env args fuel start s image :
  frame s = Some image ->
  0 < delay args - elapsed_seconds start (time_at env (n_times s)) ->
  Z.land (key_at env (n_keys s)) 255 <> 113 ->
  cam_read env (n_reads s) = None ->
  countdown env args (S (S fuel)) start s
  = (Raise no_copy_error,
     count_time (set_frame None (count_read (count_key (count_time s)))),
     [EShow (countdown_display args image
               (delay args - elapsed_seconds start (time_at env (n_times s)))
               (img_index s));
      EWaitKey 100 (key_at env (n_keys s));
      ERead CountdownRead false;
      EPrint "WARNING: Frame dropped during countdown.";
      ESleep 50]).
Proof.
  intros Hf Hr Hk Hd. rewrite countdown_S, Hf. cbv zeta.
  destruct (_ <=? 0) eqn:E; [apply Z.leb_le in E; lia|].
  destruct (_ =? 113) eqn:E'; [apply Z.eqb_eq in E'; contradiction|].
  rewrite Hd, countdown_without_frame by reflexivity. reflexivity.
Qed.

(** The outcomes of the loop: it returns, is interrupted, raises the
    attribute error, or is still running. *)
Lemma main_loop_outcomes env args fuel : forall s,
  match outcome (main_loop env args fuel s) with
  | Ret _ | Raise KeyboardInterrupt | OutOfFuel => True
  | Raise e => e = no_copy_error
  end.
Proof.
  unfold outcome.
  assert (C : forall fuel start s,
            match fst (fst (countdown env args fuel start s)) with
            | Ret _ | Raise KeyboardInterrupt | OutOfFuel => True
            | Raise e => e = no_copy_error
            end).
  { clear fuel. induction fuel as [|fuel IH]; intros start s; [exact I|].
    rewrite countdown_S. cbv zeta.
    destruct (frame s); [|reflexivity].
    destruct (_ <=? 0); [exact I|].
    destruct (_ =? 113); [exact I|].
    match goal with |- context [countdown env args fuel start ?x] =>
      specialize (IH start x); destruct (countdown env args fuel start x)
        as [[r1 s1] t1] end.
    exact IH. }
  induction fuel as [|fuel IH]; intros s; rewrite main_loop_eq;
    destruct (_ <=? _); try exact I.
  rewrite loop_body_eq. cbv zeta.
  destruct (cam_read env (n_reads s)) as [image|].
  - destruct (manual args).
    + rewrite manual_step_eq. cbv zeta.
      destruct (_ =? 27); [exact I|].
      destruct (_ =? 32); cbn [after];
        match goal with |- context [main_loop env args fuel ?x] =>
          specialize (IH x); destruct (main_loop env args fuel x)
            as [[r2 s2] t2] end; exact IH.
    + rewrite automatic_step_eq.
      match goal with |- context [countdown env args fuel ?st ?x] =>
        specialize (C fuel st x); destruct (countdown env args fuel st x)
          as [[[[]|e|] s1] t1] end; cbn [after fst snd] in *;
        try exact C; try exact I.
      unfold final_capture.
      destruct (cam_read env (n_reads s1)); cbn [after];
        match goal with |- context [main_loop env args fuel ?x] =>
          specialize (IH x); destruct (main_loop env args fuel x)
            as [[r2 s2] t2] end; exact IH.
  - match goal with |- context [main_loop env args fuel ?x] =>
      specialize (IH x); destruct (main_loop env args fuel x)
        as [[r2 s2] t2] end.
    exact IH.
Qed.

(** The exit status of a run that ended: not zero exactly when the
    initialization failed or the attribute error came up. *)
Lemma exit_code_spec env args fuel c :
  exit_code (outcome (run env args fuel)) = Some c ->
  (c = 0 /\ init_ok env args /\ outcome (run env args fuel) = Ret tt)
  \/ (c = 1 /\ ~ init_ok env args
      /\ outcome (run env args fuel) = Raise (SystemExit 1))
  \/ (c = 1 /\ init_ok env args
      /\ outcome (run env args fuel) = Raise no_copy_error).
Proof.
  destruct (init_ok_dec env args) as [Hok|Hno].
  - rewrite (run_init_ok env args fuel Hok), outcome_after, guarded_loop_eq.
    pose proof (main_loop_outcomes env args fuel (loop_start args)) as O.
    unfold outcome in *.
    destruct (main_loop env args fuel (loop_start args))
      as [[[[]|[]|] s1] t1]; cbn [fst snd exit_code] in *;
      intros H; try discriminate; injection H as <-; try discriminate O;
      auto.
    right. right. injection O as ->. auto.
  - destruct (run_init_failed env args fuel Hno) as (t & -> & _).
    cbn. intros H. injection H as <-. auto.
Qed.

(** An initialization that fails prints the diagnostic of its failure and
    nothing after it; a directory that is already there is no failure. *)
Lemma init_failure_diagnosed env args fuel :
  ~ init_ok env args ->
  (exists e,
     mkdir_parents_exist_ok (output args) (output_on_disk env) = Some e
     /\ trace (run env args fuel)
        = [EMkdir (PurePath.to_str (output args)) false;
           mkdir_error_line args e])
  \/ (camera_opens env = false
      /\ trace (run env args fuel)
         = [EMkdir (PurePath.to_str (output args)) true;
            EOpen (camera args) false; camera_error_line args]).
Proof.
  intros Hno. unfold run. rewrite main_eq, initialize_eq.
  destruct (mkdir_parents_exist_ok _ _) as [e|] eqn:Hd.
  - left. exists e. split; reflexivity.
  - destruct (camera_opens env) eqn:Hc.
    + exfalso. apply Hno. split; assumption.
    + right. split; reflexivity.
Qed.

Lemma existing_directory_is_fine path :
  mkdir_parents_exist_ok path IsDir = None.
Proof. reflexivity. Qed.

(** C2, at the failing input.  The run passed initialization; its first
    countdown preview read fails; it prints the warning and pauses, and then
    ends with the attribute error of [frame.copy()] on [None]: nothing is
    drawn after the warning, no file is written, only the finalization
    follows. *)
Theorem C2_dropped_preview_frame_aborts :
  init_ok dropped_preview_env default_args
  /\ outcome (run dropped_preview_env default_args 10) = Raise no_copy_error
  /\ written_files (trace (run dropped_preview_env default_args 10)) = []
  /\ skipn 13 (trace (run dropped_preview_env default_args 10))
     = [ERead CountdownRead false;
        EPrint "WARNING: Frame dropped during countdown.";
        ESleep 50;
        ERelease; EDestroyAllWindows; EPrint "Cleanup done."].
Proof. split; [split; reflexivity|]. vm_compute. repeat split. Qed.

(** C6, at the failing input.  The output directory exists and the camera
    opens, no diagnostic of either failure is printed, the user does not
    cancel, and yet the process ends with exit status 1. *)
Theorem C6_exit_status_after_dropped_preview :
  mkdir_parents_exist_ok (output default_args)
    (output_on_disk dropped_preview_env) = None
  /\ camera_opens dropped_preview_env = true
  /\ exit_code (outcome (run dropped_preview_env default_args 10)) = Some 1
  /\ existsb is_quit_line (trace (run dropped_preview_env default_args 10))
     = false
  /\ filter (fun e => match e with EPrint _ => true | _ => false end)
       (trace (run dropped_preview_env default_args 10))
     = [EPrint "Starting capture: output=captured_images, count=5, delay=3s, camera=0";
        EPrint "WARNING: Frame dropped during countdown.";
        EPrint "Cleanup done."].
Proof. vm_compute. repeat split. Qed.

(** ** A successful automatic run (C1) *)




(** In automatic mode the loop returns only with the index past the count. *)
Lemma automatic_loop_exit env args fuel : forall s,
  manual args = false ->
  outcome (main_loop env args fuel s) = Ret tt ->
  count args < img_index (final_state (main_loop env args fuel s)).
Proof.
  unfold outcome, final_state.
  induction fuel as [|fuel IH]; intros s Hauto; rewrite main_loop_eq;
    destruct (img_index s <=? count args) eqn:Hle; try discriminate;
    try (intros _; apply Z.leb_gt in Hle; exact Hle).
  rewrite loop_body_eq. cbv zeta.
  destruct (cam_read env (n_reads s)) as [image|].
  - rewrite Hauto, automatic_step_eq.
    destruct (countdown env args fuel _ _) as [[[[]|e|] s1] t1];
      cbn [after fst snd]; try discriminate.
    unfold final_capture.
    destruct (cam_read env (n_reads s1)); cbn [after];
      match goal with |- context [main_loop env args fuel ?x] =>
        specialize (IH x Hauto); destruct (main_loop env args fuel x)
          as [[r2 s2] t2] end; exact IH.
  - match goal with |- context [main_loop env args fuel ?x] =>
      specialize (IH x Hauto); destruct (main_loop env args fuel x)
        as [[r2 s2] t2] end.
    exact IH.
Qed.

Lemma length_append (a b : string) :
  String.length (a ++ b) = (String.length a + String.length b)%nat.
Proof. induction a as [|c a IH]; cbn; [reflexivity|rewrite IH; reflexivity]. Qed.

Lemma length_zeros k : String.length (PyStr.zeros k) = k.
Proof. induction k as [|k IH]; cbn; [reflexivity|rewrite IH; reflexivity]. Qed.

Lemma length_zfill w s : (w <= String.length (PyStr.zfill w s))%nat.
Proof. unfold PyStr.zfill. rewrite length_append, length_zeros. lia. Qed.

(** The index field: digits only, at least three of them, exactly three up
    to 999, and they denote the index. *)
Lemma index_field i :
  let field := PyStr.fmt_0d 3 (Z.of_nat i) in
  PyStr.all_digits field = true
  /\ value_of field = Some (N.of_nat i)
  /\ (3 <= String.length field)%nat
  /\ ((i <= 999)%nat -> String.length field = 3%nat).
Proof.
  cbv zeta. rewrite fmt_0d_nonneg by lia.
  split; [apply all_digits_zfill|].
  split; [rewrite value_of_zfill; f_equal; lia|].
  split; [apply length_zfill|].
  intros Hi.
  assert (B : forallb
                (fun n => (String.length
                             (PyStr.zfill 3 (PyStr.dec (Z.to_N (Z.of_nat n))))
                           =? 3)%nat)
                (seq 0 1000) = true) by (vm_compute; reflexivity).
  rewrite forallb_forall in B. apply Nat.eqb_eq, B, in_seq. lia.
Qed.

Lemma length_zfill_small w bound :
  forallb (fun n => (String.length (PyStr.zfill w (PyStr.dec (N.of_nat n)))
                     =? w)%nat)
    (seq 0 bound) = true ->
  forall n, (n < N.of_nat bound)%N ->
            String.length (PyStr.zfill w (PyStr.dec n)) = w.
Proof.
  intros B n Hn. rewrite forallb_forall in B.
  rewrite <- (N2Nat.id n). apply Nat.eqb_eq, B, in_seq. lia.
Qed.

(** The time stamp of a date of the calendar has fifteen characters:
    [YYYYMMDD_HHMMSS]. *)
Lemma strftime_length t :
  (year t < 10000)%N -> (month t < 100)%N -> (day t < 100)%N ->
  (hour t < 100)%N -> (minute t < 100)%N -> (second t < 100)%N ->
  String.length (strftime t) = 15%nat.
Proof.
  intros Hy Hm Hd Hh Hmi Hs. unfold strftime.
  assert (B4 : forall n, (n < 10000)%N ->
                 String.length (PyStr.zfill 4 (PyStr.dec n)) = 4%nat)
    by (intros n Hn; apply (length_zfill_small 4 (100 * 100));
        [vm_compute; reflexivity | exact Hn]).
  assert (B2 : forall n, (n < 100)%N ->
                 String.length (PyStr.zfill 2 (PyStr.dec n)) = 2%nat)
    by (apply (length_zfill_small 2 100); vm_compute; reflexivity).
  rewrite !length_append, B4, !B2 by assumption. reflexivity.
Qed.




Lemma nth_filename_documented env args i :
  nth_filename env args i = documented_filename env args i.
Proof. apply filename_at_pattern. Qed.

(** *** The pattern of the documentation *)























(** The five names of that run. *)
Example nominal_run_files :
  written_files (trace (run nominal_env default_args 10))
  = ["captured_images/image_001_20240517_093000.jpg";
     "captured_images/image_002_20240517_093001.jpg";
     "captured_images/image_003_20240517_093002.jpg";
     "captured_images/image_004_20240517_093003.jpg";
     "captured_images/image_005_20240517_093004.jpg"].
Proof. vm_compute. reflexivity. Qed.

(** * Further properties of the script *)

(** ** Before the loop: directory, camera, warm-up *)

(** X1. An initialization that fails ends the run at once with exit status
    1.  When the directory cannot be made, the diagnostic of line 27 is the
    only thing printed and the camera is never opened.  When the camera does
    not open, the directory has been made and the diagnostic of line 40 is
    the only thing printed.  In neither case does the [finally] clause run:
    nothing is released and no completion line is printed. *)
Theorem X1_failed_initialization env args fuel :
  ~ init_ok env args ->
  outcome (run env args fuel) = Raise (SystemExit 1)
  /\ exit_code (outcome (run env args fuel)) = Some 1
  /\ existsb is_cleanup (trace (run env args fuel)) = false
  /\ (forall e,
        mkdir_parents_exist_ok (output args) (output_on_disk env) = Some e ->
        trace (run env args fuel)
        = [EMkdir (PurePath.to_str (output args)) false;
           EPrint ("ERROR: Unable to create output directory "
                   ++ PurePath.to_str (output args) ++ ": " ++ e)])
  /\ (mkdir_parents_exist_ok (output args) (output_on_disk env) = None ->
      trace (run env args fuel)
      = [EMkdir (PurePath.to_str (output args)) true;
         EOpen (camera args) false;
         EPrint ("ERROR: Cannot open camera index "
                 ++ PyStr.str_of_Z (camera args))]).
Proof.
  intros Hno. unfold run. rewrite main_eq, initialize_eq.
  destruct (mkdir_parents_exist_ok _ _) as [e|] eqn:Hd.
  - repeat split; try reflexivity.
    + intros e' He. injection He as <-. reflexivity.
    + discriminate.
  - destruct (camera_opens env) eqn:Hc.
    + exfalso. apply Hno. split; assumption.
    + repeat split; try reflexivity. discriminate.
Qed.

Lemma X1_failed_initialization_witness :
  ~ init_ok no_camera_env default_args
  /\ ~ init_ok file_in_the_way_env default_args
  /\ trace (run no_camera_env default_args 5)
     = [EMkdir "captured_images" true; EOpen 0 false;
        EPrint "ERROR: Cannot open camera index 0"]
  /\ trace (run file_in_the_way_env default_args 5)
     = [EMkdir "captured_images" false;
        EPrint "ERROR: Unable to create output directory captured_images: [Errno 17] File exists: 'captured_images'"].
Proof.
  assert (H1 : ~ init_ok no_camera_env default_args)
    by (intros [_ H]; discriminate H).
  assert (H2 : ~ init_ok file_in_the_way_env default_args)
    by (intros [H _]; discriminate H).
  split; [exact H1|]. split; [exact H2|]. split.
  - exact (proj2 (proj2 (proj2 (proj2
             (X1_failed_initialization no_camera_env default_args 5 H1))))
             eq_refl).
  - exact (proj1 (proj2 (proj2 (proj2
             (X1_failed_initialization file_in_the_way_env default_args 5 H2))))
             _ eq_refl).
Defined.

Lemma main_loop_no_startup env args fuel s :
  existsb is_startup (trace (main_loop env args fuel s)) = false.
Proof.
  unfold trace.
  apply (main_loop_shape env args (fun t => existsb is_startup t = false));
    try (intros; reflexivity).
  - intros t1 t2 H1 H2. rewrite existsb_app, H1, H2. reflexivity.
  - intros. unfold tick_events. destruct (is_some r); reflexivity.
Qed.

(** The first thing the loop does, when it is entered at all, is to read the
    frame whose number is in the state. *)
Lemma main_loop_first_read env args fuel s :
  img_index s <= count args ->
  exists rest,
    trace (main_loop env args (S fuel) s)
    = ERead LoopRead (is_some (cam_read env (n_reads s))) :: rest.
Proof.
  intros Hle. apply Z.leb_le in Hle. unfold trace.
  rewrite main_loop_eq, Hle, loop_body_eq. cbv zeta.
  destruct (cam_read env (n_reads s)) as [image|].
  - destruct (if manual args then _ else _) as [[[[]|e|] s1] t1];
      cbn [after snd is_some]; try (eexists; reflexivity);
      destruct (main_loop env args fuel s1) as [[r2 s2] t2];
      cbn [after snd app]; eexists; reflexivity.
  - destruct (main_loop env args fuel _) as [[r2 s2] t2].
    cbn [after snd app is_some]. eexists. reflexivity.
Qed.

Lemma n_reads_loop_start args :
  n_reads (loop_start args) = first_loop_read args.
Proof.
  unfold loop_start, first_loop_read. destruct (skip_warmup args); reflexivity.
Qed.

(** X2. A run that passes initialization begins with the same actions in
    the same order: make the directory, open the camera, set the width and
    then the height, read five warm-up frames (none with [--skip-warmup]),
    print the start line; a warm-up read that fails is neither reported nor
    repeated.  None of these actions is ever made again, and the first frame
    the loop reads is the sixth of the camera (the first with
    [--skip-warmup]). *)
Theorem X2_startup_sequence env args fuel :
  init_ok env args ->
  exists rest,
    trace (run env args fuel)
    = ([EMkdir (PurePath.to_str (output args)) true;
        EOpen (camera args) true;
        ESet CAP_PROP_FRAME_WIDTH (width args);
        ESet CAP_PROP_FRAME_HEIGHT (height args)]
       ++ (if skip_warmup args then []
           else map (fun i => ERead Warmup (is_some (cam_read env i))) (seq 0 5))
       ++ starting_line args :: rest)%list
    /\ existsb is_startup rest = false
    /\ (1 <= count args -> fuel <> 0%nat ->
        exists rest',
          rest = ERead LoopRead
                   (is_some (cam_read env (first_loop_read args))) :: rest').
Proof.
  intros Hok. unfold trace.
  rewrite (run_init_ok env args fuel Hok), guarded_loop_eq.
  pose proof (main_loop_no_startup env args fuel (loop_start args)) as L.
  assert (F : 1 <= count args -> fuel <> 0%nat ->
              exists rest',
                trace (main_loop env args fuel (loop_start args))
                = ERead LoopRead
                    (is_some (cam_read env (first_loop_read args))) :: rest').
  { intros Hc Hf. destruct fuel as [|fuel]; [contradiction|].
    rewrite <- n_reads_loop_start. apply main_loop_first_read. exact Hc. }
  unfold trace in *.
  destruct (main_loop env args fuel (loop_start args)) as [[r1 s1] t1].
  cbn [snd] in *.
  assert (G : forall tail, existsb is_startup tail = false ->
            exists rest,
              (init_events env args ++ t1 ++ tail)%list
              = ([EMkdir (PurePath.to_str (output args)) true;
                  EOpen (camera args) true;
                  ESet CAP_PROP_FRAME_WIDTH (width args);
                  ESet CAP_PROP_FRAME_HEIGHT (height args)]
                 ++ (if skip_warmup args then []
                     else map (fun i => ERead Warmup (is_some (cam_read env i)))
                            (seq 0 5))
                 ++ starting_line args :: rest)%list
              /\ existsb is_startup rest = false
              /\ (1 <= count args -> fuel <> 0%nat ->
                  exists rest',
                    rest = ERead LoopRead
                             (is_some (cam_read env (first_loop_read args)))
                           :: rest')).
  { intros tail Ht. exists (t1 ++ tail)%list. split; [|split].
    - unfold init_events, setup_events, warmup_events.
      destruct (skip_warmup args); reflexivity.
    - rewrite existsb_app, L, Ht. reflexivity.
    - intros Hc Hf. destruct (F Hc Hf) as (rest' & ->).
      eexists. reflexivity. }
  destruct r1 as [[]|[]|]; cbn [after snd];
    try (apply G; reflexivity).
  destruct (G [] eq_refl) as (rest & E & H). exists rest.
  rewrite app_nil_r in E. split; [exact E|exact H].
Qed.

Lemma X2_startup_sequence_witness :
  init_ok nominal_env default_args
  /\ firstn 11 (trace (run nominal_env default_args 3))
     = [EMkdir "captured_images" true; EOpen 0 true; ESet 3 640; ESet 4 480;
        ERead Warmup true; ERead Warmup true; ERead Warmup true;
        ERead Warmup true; ERead Warmup true;
        EPrint "Starting capture: output=captured_images, count=5, delay=3s, camera=0";
        ERead LoopRead true].
Proof.
  assert (H : init_ok nominal_env default_args) by (split; reflexivity).
  split; [exact H|].
  destruct (X2_startup_sequence nominal_env default_args 3 H)
    as (rest & E & _ & F).
  destruct F as (rest' & ->); [cbn; lia|discriminate|].
  rewrite E. reflexivity.
Defined.

(** ** The loop that is not entered, and the loops that never end *)

(** X3. With a count below one the loop is not entered: after the
    initialization (camera opened, configured and warmed up) the run goes
    straight to the finalization and returns, whatever the fuel; no frame is
    read by the loop, no window is shown, no file is written. *)
Theorem X3_count_below_one env args fuel :
  init_ok env args ->
  count args < 1 ->
  run env args fuel
  = (Ret tt, loop_start args, (init_events env args ++ cleanup_events)%list)
  /\ exit_code (outcome (run env args fuel)) = Some 0
  /\ write_calls (trace (run env args fuel)) = [].
Proof.
  intros Hok Hc.
  assert (E : run env args fuel
              = (Ret tt, loop_start args,
                 (init_events env args ++ cleanup_events)%list)).
  { rewrite (run_init_ok env args fuel Hok), guarded_loop_eq, main_loop_eq.
    change (img_index (loop_start args)) with 1.
    destruct (1 <=? count args) eqn:E; [apply Z.leb_le in E; lia|].
    reflexivity. }
  rewrite E. split; [reflexivity|]. split; [reflexivity|].
  unfold trace. cbn [snd].
  rewrite write_calls_app, write_calls_init_events. reflexivity.
Qed.

Lemma X3_count_below_one_witness :
  init_ok nominal_env no_image_args
  /\ count no_image_args < 1
  /\ outcome (run nominal_env no_image_args 0) = Ret tt
  /\ List.length (trace (run nominal_env no_image_args 0)) = 13%nat.
Proof.
  assert (H1 : init_ok nominal_env no_image_args) by (split; reflexivity).
  assert (H2 : count no_image_args < 1) by (cbn; lia).
  split; [exact H1|]. split; [exact H2|].
  rewrite (proj1 (X3_count_below_one nominal_env no_image_args 0 H1 H2)).
  split; reflexivity.
Defined.

(** The loop on a camera that delivers nothing. *)
Lemma main_loop_dead_camera env args fuel : forall s,
  img_index s <= count args ->
  (forall i, (n_reads s <= i)%nat -> cam_read env i = None) ->
  outcome (main_loop env args fuel s) = OutOfFuel
  /\ trace (main_loop env args fuel s) = List.concat (repeat failed_pass fuel)
  /\ img_index (final_state (main_loop env args fuel s)) = img_index s.
Proof.
  unfold outcome, trace, final_state.
  induction fuel as [|fuel IH]; intros s Hle Hdead;
    rewrite main_loop_eq; pose proof Hle as Hle'; apply Z.leb_le in Hle';
    rewrite Hle'; [repeat split|].
  rewrite loop_body_eq. cbv zeta.
  rewrite (Hdead (n_reads s) (Nat.le_refl _)).
  specialize (IH (set_frame None (count_read s))).
  destruct (main_loop env args fuel _) as [[r2 s2] t2].
  cbn [after fst snd] in *.
  destruct IH as (Ho & Ht & Hi); [exact Hle| |].
  { intros i Hi. apply Hdead. cbn in Hi. lia. }
  rewrite Ho, Ht, Hi. repeat split.
Qed.

(** X4. When the camera opens and then delivers no frame, the run never
    ends, in either mode: whatever the fuel it is still running, and all it
    has done after the initialization is to repeat the failed read, its
    warning and the pause of 0.2 s.  Nothing is shown, no key is polled, no
    file is written, and the camera is not released. *)
Theorem X4_dead_camera_retries_forever env args fuel :
  init_ok env args ->
  1 <= count args ->
  camera_dead env args ->
  outcome (run env args fuel) = OutOfFuel
  /\ trace (run env args fuel)
     = (init_events env args ++ List.concat (repeat failed_pass fuel))%list
  /\ img_index (final_state (run env args fuel)) = 1.
Proof.
  intros Hok Hc Hdead.
  destruct (main_loop_dead_camera env args fuel (loop_start args))
    as (Ho & Ht & Hi).
  { exact Hc. }
  { intros i Hi. apply Hdead. rewrite <- n_reads_loop_start. exact Hi. }
  rewrite (run_init_ok env args fuel Hok), guarded_loop_eq.
  unfold outcome, trace, final_state in *.
  destruct (main_loop env args fuel (loop_start args)) as [[r1 s1] t1].
  cbn [fst snd] in *. subst r1 t1. cbn [after fst snd].
  repeat split. exact Hi.
Qed.

Lemma dead_camera_env_dead : camera_dead dead_camera_env default_args.
Proof. intros i _. reflexivity. Defined.

Lemma X4_dead_camera_retries_forever_witness :
  init_ok dead_camera_env default_args
  /\ 1 <= count default_args
  /\ camera_dead dead_camera_env default_args
  /\ outcome (run dead_camera_env default_args 100) = OutOfFuel
  /\ List.length (trace (run dead_camera_env default_args 100)) = 310%nat.
Proof.
  assert (H1 : init_ok dead_camera_env default_args) by (split; reflexivity).
  assert (H2 : 1 <= count default_args) by (cbn; lia).
  destruct (X4_dead_camera_retries_forever dead_camera_env default_args 100
              H1 H2 dead_camera_env_dead) as (Ho & Ht & _).
  split; [exact H1|]. split; [exact H2|].
  split; [exact dead_camera_env_dead|]. split; [exact Ho|].
  rewrite Ht. reflexivity.
Defined.





(** ** What is shown and what is written *)

(** A trace of setup events satisfies whatever speaks of other events
    only. *)
Lemma setup_events_Forall (P : event -> Prop) t :
  (forall e, is_setup_event e = true -> P e) ->
  forallb is_setup_event t = true -> Forall P t.
Proof.
  intros HP H. apply Forall_forall. intros e Hin.
  rewrite forallb_forall in H. apply HP, H, Hin.
Qed.

(** A property of single events that holds of the events of the setup, of
    the quit lines and of the finalization holds of a run as soon as it
    holds of the events of the loop. *)
Lemma run_Forall (P : event -> Prop) env args fuel :
  (forall e, match e with
             | EShow _ | EWrite _ _ _ | EWaitKey _ _ | ESleep _ => True
             | ERead LoopRead _ | ERead CountdownRead _
             | ERead FinalRead _ | ERead Discard _ => True
             | _ => P e
             end) ->
  Forall P (trace (main_loop env args fuel (loop_start args))) ->
  Forall P (trace (run env args fuel)).
Proof.
  intros HP HL.
  destruct (run_trace env args fuel) as [Hd|(tail & -> & Htail)].
  - apply (setup_events_Forall P _); [|exact Hd].
    intros e He. specialize (HP e). destruct e; try discriminate He; exact HP.
  - apply Forall_app. split; [|apply Forall_app; split; [exact HL|]].
    + unfold init_events, setup_events, warmup_events, starting_line.
      destruct (skip_warmup args); cbn [map seq app Nat.add];
        repeat constructor;
        match goal with |- P ?e => exact (HP e) end.
    + destruct Htail as [->|[->| ->]]; unfold cleanup_events;
        repeat constructor;
        match goal with |- P ?e => exact (HP e) end.
Qed.

Lemma write_calls_nil_no_write t filename image ok :
  write_calls t = [] -> ~ In (EWrite filename image ok) t.
Proof.
  induction t as [|e t IH]; intros H Hin; [exact Hin|].
  destruct Hin as [->|Hin]; [discriminate H|].
  destruct e; try discriminate H; exact (IH H Hin).
Qed.

Lemma discard_events_Forall (P : event -> Prop) env n :
  (forall ok, P (ERead Discard ok)) -> Forall P (discard_events env n).
Proof.
  intros HP. unfold discard_events. cbn [map seq]. repeat constructor; apply HP.
Qed.

Lemma main_loop_manual_images env args fuel : forall s,
  manual args = true -> 1 <= img_index s ->
  Forall (manual_image_event env args) (trace (main_loop env args fuel s)).
Proof.
  unfold trace.
  induction fuel as [|fuel IH]; intros s Hman H1; rewrite main_loop_eq;
    destruct (img_index s <=? count args) eqn:Hle; try constructor.
  apply Z.leb_le in Hle.
  rewrite loop_body_eq. cbv zeta.
  destruct (cam_read env (n_reads s)) as [image|] eqn:Hr.
  - rewrite Hman, manual_step_eq. cbv zeta.
    cbn [img_index set_frame count_read n_keys n_reads].
    assert (Shot : manual_shot env args (img_index s)
                     (putText image (manual_text args (img_index s)) (10, 30))).
    { exists image. split; [exists (n_reads s); exact Hr|].
      split; [lia|reflexivity]. }
    destruct (_ =? 27).
    { cbn [after snd app]. repeat constructor. exists (img_index s). exact Shot. }
    destruct (_ =? 32); cbn [after];
      match goal with |- context [main_loop env args fuel ?x] =>
        specialize (IH x Hman); destruct (main_loop env args fuel x)
          as [[r2 s2] t2] end;
      cbn [after snd app] in *.
    + constructor; [exact I|].
      constructor; [exists (img_index s); exact Shot|].
      constructor; [exact I|].
      apply Forall_app. split; [|apply IH; cbn; lia].
      apply Forall_app. split; [|apply discard_events_Forall; intros; exact I].
      unfold capture_events, capture_filename.
      cbn [img_index set_frame count_read count_key n_nows].
      constructor; [|repeat constructor].
      exists (img_index s), (now_at env (n_nows s)).
      split; [exact Shot|reflexivity].
    + constructor; [exact I|].
      constructor; [exists (img_index s); exact Shot|].
      constructor; [exact I|]. apply IH. cbn. lia.
  - match goal with |- context [main_loop env args fuel ?x] =>
      specialize (IH x Hman); destruct (main_loop env args fuel x)
        as [[r2 s2] t2] end.
    cbn [after snd app] in *. repeat constructor. apply IH. cbn. lia.
Qed.

Lemma writes_shown_app t1 t2 :
  writes_shown t1 -> writes_shown t2 -> writes_shown (t1 ++ t2).
Proof.
  intros H1 H2 f image ok Hin. apply in_or_app.
  apply in_app_or in Hin. destruct Hin as [Hin|Hin]; [left|right]; eauto.
Qed.

Lemma no_write_shown t : write_calls t = [] -> writes_shown t.
Proof.
  intros H f image ok Hin.
  destruct (write_calls_nil_no_write t f image ok H Hin).
Qed.

Lemma main_loop_manual_writes_shown env args fuel s :
  manual args = true ->
  writes_shown (trace (main_loop env args fuel s)).
Proof.
  intros Hman. unfold trace.
  apply (main_loop_shape env args writes_shown);
    try (intros; congruence);
    try (intros; apply no_write_shown; reflexivity).
  - intros t1 t2. apply writes_shown_app.
  - intros image raw s0 n _ _ f img ok Hin.
    cbn [app] in Hin. destruct Hin as [Hin|[Hin|Hin]]; try discriminate Hin.
    apply in_app_or in Hin. destruct Hin as [Hin|Hin].
    + unfold capture_events in Hin.
      destruct Hin as [Hin|[Hin|[]]]; [|discriminate Hin].
      injection Hin as _ <- _. left. reflexivity.
    + exfalso. revert Hin. apply write_calls_nil_no_write. reflexivity.
Qed.

Lemma setup_events_no_write t :
  forallb is_setup_event t = true -> write_calls t = [].
Proof.
  induction t as [|e t IH]; intros H; [reflexivity|].
  cbn [forallb] in H. apply andb_true_iff in H. destruct H as [He Ht].
  destruct e; try discriminate He; cbn; auto.
Qed.

Lemma run_writes_shown env args fuel :
  manual args = true -> writes_shown (trace (run env args fuel)).
Proof.
  intros Hman.
  destruct (run_trace env args fuel) as [Hd|(tail & -> & Htail)].
  - apply no_write_shown, setup_events_no_write, Hd.
  - apply writes_shown_app; [|apply writes_shown_app].
    + apply no_write_shown, write_calls_init_events.
    + apply main_loop_manual_writes_shown, Hman.
    + apply no_write_shown. destruct Htail as [->|[->| ->]]; reflexivity.
Qed.

(** X6. In manual mode the instruction line is drawn on the frame itself,
    and that frame is what a capture writes.  Every image shown is a frame
    of the camera with the line [Manual capture i/N - SPACE to capture, ESC
    to quit] on it, for an index [i] from 1 to [N]; every image written is
    one of the images shown, so it carries that line, and the index in the
    line is the index in the file name. *)
Theorem X6_manual_capture_keeps_overlay env args fuel :
  manual args = true ->
  (forall image,
     In (EShow image) (trace (run env args fuel)) ->
     exists idx, manual_shot env args idx image)
  /\ (forall filename image ok,
        In (EWrite filename image ok) (trace (run env args fuel)) ->
        In (EShow image) (trace (run env args fuel))
        /\ exists idx now,
             manual_shot env args idx image
             /\ filename = filename_at (output args) (prefix args) idx now).
Proof.
  intros Hman.
  assert (F : Forall (manual_image_event env args) (trace (run env args fuel))).
  { apply run_Forall.
    - intros e. destruct e as [| | |[]| | | | | | |]; exact I.
    - apply main_loop_manual_images; [exact Hman|cbn; lia]. }
  rewrite Forall_forall in F. split.
  - intros image Hin. exact (F _ Hin).
  - intros filename image ok Hin. split.
    + exact (run_writes_shown env args fuel Hman _ _ _ Hin).
    + exact (F _ Hin).
Qed.

(** SPACE, then ESC: the file holds the first frame of the loop with the
    instruction line on it. *)
Lemma X6_manual_capture_keeps_overlay_witness :
  manual manual_args = true
  /\ In (EWrite "captured_images/image_001_20240517_093000.jpg"
           {| pixels := 5;
              overlay := [("Manual capture 1/2 - SPACE to capture, ESC to quit",
                           (10, 30))] |}
           true)
        (trace (run space_esc_env manual_args 2))
  /\ exists idx,
       manual_shot space_esc_env manual_args idx
         {| pixels := 5;
            overlay := [("Manual capture 1/2 - SPACE to capture, ESC to quit",
                         (10, 30))] |}.
Proof.
  assert (H1 : manual manual_args = true) by reflexivity.
  assert (H2 : In (EWrite "captured_images/image_001_20240517_093000.jpg"
                     {| pixels := 5;
                        overlay := [("Manual capture 1/2 - SPACE to capture, ESC to quit",
                                     (10, 30))] |}
                     true)
                 (trace (run space_esc_env manual_args 2))).
  { vm_compute. repeat (first [left; reflexivity | right]). }
  split; [exact H1|]. split; [exact H2|].
  destruct (proj2 (X6_manual_capture_keeps_overlay space_esc_env manual_args 2 H1)
              _ _ _ H2) as (_ & idx & now & Hshot & _).
  exists idx. exact Hshot.
Defined.

(** The countdown shows copies of camera frames and writes nothing; the
    frame it leaves in the state is a camera frame, if any. *)
Lemma countdown_images env args fuel : forall start s,
  1 <= img_index s <= count args ->
  (forall image, frame s = Some image -> from_camera env image) ->
  Forall (automatic_image_event env args)
    (trace (countdown env args fuel start s)).
Proof.
  unfold trace.
  induction fuel as [|fuel IH]; intros start s Hi Hf; [constructor|].
  rewrite countdown_S. cbv zeta.
  destruct (frame s) as [image|] eqn:Ef; [|constructor].
  assert (Shot : forall remaining,
            countdown_shot env args
              (countdown_display args image remaining (img_index s))).
  { intros remaining. exists image, remaining, (img_index s).
    split; [apply Hf; reflexivity|]. split; [exact Hi|reflexivity]. }
  destruct (_ <=? 0); [repeat constructor; apply Shot|].
  destruct (_ =? 113); [repeat constructor; apply Shot|].
  match goal with |- context [countdown env args fuel start ?x] =>
    specialize (IH start x); destruct (countdown env args fuel start x)
      as [[r1 s1] t1] end.
  cbn [snd] in *. apply Forall_app. split.
  - unfold tick_events. constructor; [apply Shot|].
    destruct (is_some _); repeat constructor.
  - apply IH; [exact Hi|].
    cbn [frame set_frame]. intros image' Hr. exists (n_reads s). exact Hr.
Qed.

Lemma main_loop_automatic_images env args fuel : forall s,
  manual args = false -> 1 <= img_index s ->
  Forall (automatic_image_event env args) (trace (main_loop env args fuel s)).
Proof.
  unfold trace.
  induction fuel as [|fuel IH]; intros s Hauto H1; rewrite main_loop_eq;
    destruct (img_index s <=? count args) eqn:Hle; try constructor.
  apply Z.leb_le in Hle.
  rewrite loop_body_eq. cbv zeta.
  destruct (cam_read env (n_reads s)) as [image|] eqn:Hr.
  - rewrite Hauto, automatic_step_eq.
    set (s0 := set_frame (Some image) (count_read s)).
    pose proof (countdown_images env args fuel (time_at env (n_times s0))
                  (count_time s0)) as C.
    pose proof (countdown_accounted env args fuel (time_at env (n_times s0))
                  (count_time s0)) as A.
    unfold trace in C.
    destruct (countdown env args fuel _ _) as [[[[]|e|] s1] t1];
      cbn [after snd] in *;
      try (constructor; [exact I|]; apply C; [cbn; lia|];
           cbn; intros image' E; injection E as <-;
           exists (n_reads s); exact Hr).
    destruct (A _ _ _ eq_refl) as (Ai & _). cbn in Ai.
    unfold final_capture.
    destruct (cam_read env (n_reads s1)) as [image1|] eqn:Hr1; cbn [after];
      match goal with |- context [main_loop env args fuel ?x] =>
        specialize (IH x Hauto); destruct (main_loop env args fuel x)
          as [[r2 s2] t2] end;
      cbn [after snd app] in *;
      (constructor; [exact I|]);
      (apply Forall_app; split; [|apply IH; cbn; lia]);
      (apply Forall_app; split;
       [apply C; [cbn; lia|];
        cbn; intros image' E; injection E as <-;
        exists (n_reads s); exact Hr|]).
    + constructor; [exact I|].
      apply Forall_app. split; [|apply discard_events_Forall; intros; exact I].
      unfold capture_events. constructor; [|repeat constructor].
      exists (n_reads s1). exact Hr1.
    + constructor; [exact I|]. constructor; [exact I|].
      apply discard_events_Forall; intros; exact I.
  - match goal with |- context [main_loop env args fuel ?x] =>
      specialize (IH x Hauto); destruct (main_loop env args fuel x)
        as [[r2 s2] t2] end.
    cbn [after snd app] in *. repeat constructor. apply IH. cbn. lia.
Qed.

(** X7. In automatic mode the texts are drawn on a copy.  Every image shown
    is a frame of the camera with exactly the two texts of the countdown
    added (the remaining time at (10, 30), the counter [i/N] at (10, height
    - 10), for an index [i] from 1 to [N]); every image written is a frame
    as the camera delivered it, with nothing drawn on it. *)
Theorem X7_automatic_capture_is_clean env args fuel :
  manual args = false ->
  (forall image,
     In (EShow image) (trace (run env args fuel)) ->
     exists raw remaining idx,
       from_camera env raw
       /\ 1 <= idx <= count args
       /\ image = countdown_display args raw remaining idx
       /\ overlay image
          = (overlay raw
             ++ [(countdown_text remaining, (10, 30));
                 ((PyStr.str_of_Z idx ++ "/"
                   ++ PyStr.str_of_Z (count args))%string,
                  (10, height args - 10))])%list)
  /\ (forall filename image ok,
        In (EWrite filename image ok) (trace (run env args fuel)) ->
        from_camera env image).
Proof.
  intros Hauto.
  assert (F : Forall (automatic_image_event env args)
                (trace (run env args fuel))).
  { apply run_Forall.
    - intros e. destruct e as [| | |[]| | | | | | |]; exact I.
    - apply main_loop_automatic_images; [exact Hauto|cbn; lia]. }
  rewrite Forall_forall in F. split.
  - intros image Hin.
    destruct (F _ Hin) as (raw & remaining & idx & Hraw & Hidx & ->).
    exists raw, remaining, idx. repeat split; try assumption; try lia.
    cbn [countdown_display putText overlay]. rewrite <- app_assoc. reflexivity.
  - intros filename image ok Hin. exact (F _ Hin).
Qed.

(** The first file of the nominal run holds the frame of the final read,
    the ninth of the camera, as it came. *)
Lemma X7_automatic_capture_is_clean_witness :
  manual default_args = false
  /\ In (EWrite "captured_images/image_001_20240517_093000.jpg"
           {| pixels := 8; overlay := [] |} true)
        (trace (run nominal_env default_args 10))
  /\ from_camera nominal_env {| pixels := 8; overlay := [] |}.
Proof.
  assert (H1 : manual default_args = false) by reflexivity.
  assert (H2 : In (EWrite "captured_images/image_001_20240517_093000.jpg"
                     {| pixels := 8; overlay := [] |} true)
                 (trace (run nominal_env default_args 10))).
  { vm_compute. repeat (first [left; reflexivity | right]). }
  split; [exact H1|]. split; [exact H2|].
  exact (proj2 (X7_automatic_capture_is_clean nominal_env default_args 10 H1)
           _ _ _ H2).
Defined.

(** ** The key that ends the run *)

(** A list is cut in one way only at the first element of a kind that has
    no other element of the kind after it. *)
Lemma split_at_only {A} (P : A -> bool) (l1 : list A) : forall a r1 l2 b r2,
  (l1 ++ a :: r1 = l2 ++ b :: r2)%list ->
  existsb P l1 = false -> existsb P r1 = false -> P b = true ->
  l1 = l2 /\ a = b /\ r1 = r2.
Proof.
  induction l1 as [|x l1 IH]; intros a r1 l2 b r2 E H1 Hr Hb.
  - destruct l2 as [|y l2]; cbn in E; injection E as -> E.
    + auto.
    + exfalso. rewrite E, existsb_app in Hr. cbn in Hr.
      rewrite Hb, orb_true_r in Hr. discriminate Hr.
  - cbn in H1. apply orb_false_iff in H1. destruct H1 as [Hx H1].
    destruct l2 as [|y l2]; cbn in E; injection E as -> E.
    + congruence.
    + destruct (IH _ _ _ _ _ E H1 Hr Hb) as (-> & -> & ->). auto.
Qed.

Lemma discard_events_no_stop args env n :
  existsb (is_stop_poll args) (discard_events env n) = false.
Proof. reflexivity. Qed.

(** The countdown is interrupted exactly when it polls [q], and then the
    poll and the quit line are the last things it does. *)
Lemma countdown_stop_poll env args fuel :
  manual args = false ->
  forall start s,
    match outcome (countdown env args fuel start s) with
    | Raise KeyboardInterrupt =>
        exists pre raw,
          trace (countdown env args fuel start s)
          = (pre ++ [EWaitKey 100 raw; quit_line])%list
          /\ existsb (is_stop_poll args) pre = false
          /\ is_stop_poll args (EWaitKey 100 raw) = true
    | _ =>
        existsb (is_stop_poll args) (trace (countdown env args fuel start s))
        = false
    end.
Proof.
  intros Hauto. unfold outcome, trace.
  induction fuel as [|fuel IH]; intros start s; [reflexivity|].
  rewrite countdown_S. cbv zeta.
  destruct (frame s) as [image|]; [|reflexivity].
  destruct (_ <=? 0); [reflexivity|].
  destruct (_ =? 113) eqn:Hq.
  { cbn [fst snd]. eexists [_], _. split; [reflexivity|].
    split; [reflexivity|].
    cbn [is_stop_poll]. unfold stop_key. rewrite Hauto. exact Hq. }
  match goal with |- context [countdown env args fuel start ?x] =>
    specialize (IH start x); destruct (countdown env args fuel start x)
      as [[r1 s1] t1] end.
  cbn [fst snd] in *.
  assert (T : forall shown r,
            existsb (is_stop_poll args)
              (tick_events shown (key_at env (n_keys s)) r) = false).
  { intros shown r. unfold tick_events.
    cbn [existsb is_stop_poll]. unfold stop_key. rewrite Hauto, Hq.
    destruct (is_some r); reflexivity. }
  destruct r1 as [[]|[]|]; try (rewrite existsb_app, T, IH; reflexivity).
  destruct IH as (pre & raw & -> & Hpre & Hraw).
  eexists (_ ++ pre)%list, raw. split; [rewrite <- app_assoc; reflexivity|].
  split; [rewrite existsb_app, T, Hpre; reflexivity|exact Hraw].
Qed.

(** The loop has polled the key that ends the run only as the last thing
    but one it did, the quit line being the last; it has then ended: by
    [break] in manual mode, by the interrupt in automatic mode. *)
Lemma main_loop_stop_poll env args fuel : forall s,
  existsb (is_stop_poll args) (trace (main_loop env args fuel s)) = true ->
  exists pre raw,
    trace (main_loop env args fuel s)
    = (pre ++ [EWaitKey (poll_timeout args) raw; quit_line])%list
    /\ existsb (is_stop_poll args) pre = false
    /\ is_stop_poll args (EWaitKey (poll_timeout args) raw) = true
    /\ outcome (main_loop env args fuel s)
       = if manual args then Ret tt else Raise KeyboardInterrupt.
Proof.
  unfold outcome, trace.
  induction fuel as [|fuel IH]; intros s; rewrite main_loop_eq;
    destruct (img_index s <=? count args); try discriminate.
  assert (Next : forall block s1,
            existsb (is_stop_poll args) block = false ->
            existsb (is_stop_poll args)
              (snd (after block (main_loop env args fuel s1))) = true ->
            exists pre raw,
              snd (after block (main_loop env args fuel s1))
              = (pre ++ [EWaitKey (poll_timeout args) raw; quit_line])%list
              /\ existsb (is_stop_poll args) pre = false
              /\ is_stop_poll args (EWaitKey (poll_timeout args) raw) = true
              /\ fst (fst (after block (main_loop env args fuel s1)))
                 = if manual args then Ret tt else Raise KeyboardInterrupt).
  { intros block s1 Hb. specialize (IH s1).
    destruct (main_loop env args fuel s1) as [[r2 s2] t2].
    cbn [after fst snd] in *. rewrite existsb_app, Hb. cbn [orb]. intros H.
    destruct (IH H) as (pre & raw & -> & Hpre & Hraw & Ho).
    exists (block ++ pre)%list, raw.
    split; [rewrite <- app_assoc; reflexivity|].
    split; [rewrite existsb_app, Hb, Hpre; reflexivity|].
    split; [exact Hraw|exact Ho]. }
  rewrite loop_body_eq. cbv zeta.
  destruct (cam_read env (n_reads s)) as [image|]; [|apply Next; reflexivity].
  destruct (manual args) eqn:Hman.
  - rewrite manual_step_eq. cbv zeta.
    destruct (_ =? 27) eqn:H27.
    { intros _. cbn [after fst snd app].
      eexists [_; _], _. unfold poll_timeout. rewrite Hman.
      split; [reflexivity|]. split; [reflexivity|].
      split; [|reflexivity].
      cbn [is_stop_poll]. unfold stop_key. rewrite Hman. exact H27. }
    destruct (_ =? 32); cbn [after];
      match goal with |- context [after ?b (main_loop env args fuel ?x)] =>
        specialize (Next b x) end;
      apply Next;
      cbn [app existsb is_stop_poll]; unfold stop_key; rewrite Hman, H27;
      reflexivity.
  - rewrite automatic_step_eq.
    match goal with |- context [countdown env args fuel ?st ?x] =>
      pose proof (countdown_stop_poll env args fuel Hman st x) as C;
      unfold outcome, trace in C;
      destruct (countdown env args fuel st x) as [[[[]|[]|] s1] t1] end;
      cbn [after fst snd] in *;
      try (cbn [app existsb is_stop_poll orb]; rewrite C; discriminate).
    + unfold final_capture.
      destruct (cam_read env (n_reads s1)); cbn [after];
        match goal with |- context [after ?b (main_loop env args fuel ?x)] =>
          specialize (Next b x) end;
        apply Next;
        cbn [app existsb is_stop_poll orb]; rewrite !existsb_app, C;
        cbn [app existsb is_stop_poll orb];
        rewrite ?existsb_app, ?discard_events_no_stop; reflexivity.
    + intros _. destruct C as (pre & raw & -> & Hpre & Hraw).
      exists (ERead LoopRead true :: pre), raw.
      unfold poll_timeout. rewrite Hman.
      split; [reflexivity|]. split; [exact Hpre|].
      split; [exact Hraw|reflexivity].
Qed.

(** The same for a whole run: after the poll that reads the key that ends
    the run come the quit line, the interrupt line in automatic mode, and
    the finalization, and nothing else. *)
Lemma run_stop_poll env args fuel pre ms raw post :
  trace (run env args fuel) = (pre ++ EWaitKey ms raw :: post)%list ->
  Z.land raw 255 = stop_key args ->
  post = events_after_stop args
  /\ ms = poll_timeout args
  /\ existsb (is_stop_poll args) pre = false
  /\ outcome (run env args fuel) = Ret tt.
Proof.
  intros E Hraw.
  assert (Hstop : is_stop_poll args (EWaitKey ms raw) = true)
    by (cbn; apply Z.eqb_eq; exact Hraw).
  assert (Hin : existsb (is_stop_poll args) (trace (run env args fuel)) = true).
  { rewrite E, existsb_app. cbn [existsb]. rewrite Hstop.
    apply orb_true_iff. right. reflexivity. }
  destruct (init_ok_dec env args) as [Hok|Hno].
  - rewrite (run_init_ok env args fuel Hok), guarded_loop_eq in *.
    assert (I : existsb (is_stop_poll args) (init_events env args) = false)
      by (unfold init_events; destruct (skip_warmup args); reflexivity).
    pose proof (main_loop_stop_poll env args fuel (loop_start args)) as L.
    unfold outcome, trace in *.
    assert (Hloop : existsb (is_stop_poll args)
                      (snd (main_loop env args fuel (loop_start args))) = true).
    { destruct (main_loop env args fuel (loop_start args))
        as [[[[]|[]|] s1] t1]; cbn [after fst snd] in *;
        rewrite existsb_app, I in Hin; cbn [orb] in Hin;
        rewrite ?existsb_app in Hin; cbn in Hin;
        rewrite ?orb_false_r in Hin; exact Hin. }
    destruct (L Hloop) as (pre0 & raw0 & Ht & Hpre0 & Hraw0 & Ho). clear L.
    destruct (main_loop env args fuel (loop_start args)) as [[r1 s1] t1].
    cbn [fst snd] in *. subst t1 r1.
    assert (S : (pre ++ EWaitKey ms raw :: post
                 = (init_events env args ++ pre0)
                   ++ EWaitKey (poll_timeout args) raw0 :: events_after_stop args)%list
                /\ fst (fst (after (init_events env args)
                          (if manual args
                           then (Ret tt, s1,
                                 ((pre0 ++ [EWaitKey (poll_timeout args) raw0;
                                            quit_line]) ++ cleanup_events)%list)
                           else (Ret tt, s1,
                                 ((pre0 ++ [EWaitKey (poll_timeout args) raw0;
                                            quit_line])
                                  ++ EPrint "Capture interrupted."
                                     :: cleanup_events)%list))))
                   = @Ret unit tt).
    { unfold events_after_stop.
      destruct (manual args); cbn [after fst snd] in *;
        (split; [|reflexivity]); rewrite <- E, <- !app_assoc; reflexivity. }
    destruct S as [S So].
    symmetry in S. apply (split_at_only (is_stop_poll args)) in S.
    + destruct S as (<- & S & <-). injection S as <- <-.
      split; [reflexivity|]. split; [reflexivity|].
      split; [rewrite existsb_app, I, Hpre0; reflexivity|].
      destruct (manual args); exact So.
    + rewrite existsb_app, I, Hpre0. reflexivity.
    + unfold events_after_stop. destruct (manual args); reflexivity.
    + exact Hstop.
  - exfalso. unfold run in Hin. rewrite main_eq, initialize_eq in Hin.
    destruct (mkdir_parents_exist_ok _ _) eqn:Hmk; [discriminate Hin|].
    destruct (camera_opens env) eqn:Hc; [|discriminate Hin].
    apply Hno. split; assumption.
Qed.

(** X8. In automatic mode [q] ends the run on the spot.  When a poll reads
    a key whose low byte is [q], the only things the run does after it are:
    print the quit line, print [Capture interrupted.], release the camera,
    close the windows, print [Cleanup done.].  The capture that was being
    counted down is not made, the run returns with exit status 0, and no
    earlier poll had read [q]. *)
Theorem X8_quit_key_ends_automatic_run env args fuel pre ms raw post :
  manual args = false ->
  trace (run env args fuel) = (pre ++ EWaitKey ms raw :: post)%list ->
  Z.land raw 255 = 113 ->
  post = [EPrint "Quitting by user request."; EPrint "Capture interrupted.";
          ERelease; EDestroyAllWindows; EPrint "Cleanup done."]
  /\ ms = 100
  /\ existsb (is_stop_poll args) pre = false
  /\ outcome (run env args fuel) = Ret tt
  /\ exit_code (outcome (run env args fuel)) = Some 0.
Proof.
  intros Hauto E Hraw.
  destruct (run_stop_poll env args fuel pre ms raw post E) as (Hp & Hm & Hn & Ho).
  { unfold stop_key. rewrite Hauto. exact Hraw. }
  unfold events_after_stop, poll_timeout in *. rewrite Hauto in *.
  rewrite Ho. repeat split; assumption.
Qed.

(** [q] at the first poll of the default command line. *)
Lemma X8_quit_key_ends_automatic_run_witness :
  manual default_args = false
  /\ trace (run quit_env default_args 5)
     = (firstn 12 (trace (run quit_env default_args 5))
        ++ EWaitKey 100 113 :: skipn 13 (trace (run quit_env default_args 5)))%list
  /\ Z.land 113 255 = 113
  /\ skipn 13 (trace (run quit_env default_args 5))
     = [EPrint "Quitting by user request."; EPrint "Capture interrupted.";
        ERelease; EDestroyAllWindows; EPrint "Cleanup done."]
  /\ written_files (trace (run quit_env default_args 5)) = [].
Proof.
  assert (H1 : manual default_args = false) by reflexivity.
  assert (H2 : trace (run quit_env default_args 5)
               = (firstn 12 (trace (run quit_env default_args 5))
                  ++ EWaitKey 100 113
                     :: skipn 13 (trace (run quit_env default_args 5)))%list)
    by (vm_compute; reflexivity).
  assert (H3 : Z.land 113 255 = 113) by reflexivity.
  split; [exact H1|]. split; [exact H2|]. split; [exact H3|].
  split; [|reflexivity].
  exact (proj1 (X8_quit_key_ends_automatic_run quit_env default_args 5
                  _ _ _ _ H1 H2 H3)).
Defined.

(** X9. In manual mode ESC ends the run on the spot, by [break].  When a
    poll reads a key whose low byte is ESC, the only things the run does
    after it are: print the quit line, release the camera, close the
    windows, print [Cleanup done.]; the line [Capture interrupted.] is not
    printed.  The run returns with exit status 0, and no earlier poll had
    read ESC. *)
Theorem X9_escape_ends_manual_run env args fuel pre ms raw post :
  manual args = true ->
  trace (run env args fuel) = (pre ++ EWaitKey ms raw :: post)%list ->
  Z.land raw 255 = 27 ->
  post = [EPrint "Quitting by user request.";
          ERelease; EDestroyAllWindows; EPrint "Cleanup done."]
  /\ ms = 1
  /\ existsb (is_stop_poll args) pre = false
  /\ outcome (run env args fuel) = Ret tt
  /\ exit_code (outcome (run env args fuel)) = Some 0.
Proof.
  intros Hman E Hraw.
  destruct (run_stop_poll env args fuel pre ms raw post E) as (Hp & Hm & Hn & Ho).
  { unfold stop_key. rewrite Hman. exact Hraw. }
  unfold events_after_stop, poll_timeout in *. rewrite Hman in *.
  rewrite Ho. repeat split; assumption.
Qed.

(** ESC at the first poll. *)
Lemma X9_escape_ends_manual_run_witness :
  manual manual_args = true
  /\ trace (run esc_env manual_args 5)
     = (firstn 12 (trace (run esc_env manual_args 5))
        ++ EWaitKey 1 27 :: skipn 13 (trace (run esc_env manual_args 5)))%list
  /\ Z.land 27 255 = 27
  /\ skipn 13 (trace (run esc_env manual_args 5))
     = [EPrint "Quitting by user request.";
        ERelease; EDestroyAllWindows; EPrint "Cleanup done."].
Proof.
  assert (H1 : manual manual_args = true) by reflexivity.
  assert (H2 : trace (run esc_env manual_args 5)
               = (firstn 12 (trace (run esc_env manual_args 5))
                  ++ EWaitKey 1 27
                     :: skipn 13 (trace (run esc_env manual_args 5)))%list)
    by (vm_compute; reflexivity).
  assert (H3 : Z.land 27 255 = 27) by reflexivity.
  split; [exact H1|]. split; [exact H2|]. split; [exact H3|].
  exact (proj1 (X9_escape_ends_manual_run esc_env manual_args 5
                  _ _ _ _ H1 H2 H3)).
Defined.

(** ** Pauses *)

Lemma each_after_mono (ok : list event -> event -> Prop) t :
  (forall h h' e, ok h e -> ok (h ++ h')%list e) ->
  forall h h', each_after ok h t -> each_after ok (h ++ h')%list t.
Proof.
  intros Hok. induction t as [|e t IH]; intros h h' H; [exact I|].
  destruct H as [He Ht]. split; [apply Hok; exact He|].
  apply (IH (e :: h) h'). exact Ht.
Qed.

Lemma each_after_app (ok : list event -> event -> Prop) t1 t2 :
  (forall h h' e, ok h e -> ok (h ++ h')%list e) ->
  each_after ok [] t1 -> each_after ok [] t2 -> each_after ok [] (t1 ++ t2).
Proof.
  intros Hok H1 H2.
  assert (G : forall h, each_after ok h t1 ->
                        each_after ok h (t1 ++ t2)).
  { clear H1. induction t1 as [|e t1 IH]; intros h H1.
    - apply (each_after_mono ok t2 Hok [] h). exact H2.
    - destruct H1 as [He H1]. split; [exact He|]. apply IH. exact H1. }
  apply G. exact H1.
Qed.

Lemma each_after_split (ok : list event -> event -> Prop) pre : forall h e post,
  each_after ok h (pre ++ e :: post) -> ok (rev pre ++ h)%list e.
Proof.
  induction pre as [|x pre IH]; intros h e post H.
  - exact (proj1 H).
  - destruct H as [_ H]. apply IH in H.
    cbn [rev]. rewrite <- app_assoc. exact H.
Qed.

Lemma each_before_app (ok : event -> list event -> Prop) t1 t2 :
  (forall e r r', ok e r -> ok e (r ++ r')%list) ->
  each_before ok t1 -> each_before ok t2 -> each_before ok (t1 ++ t2).
Proof.
  intros Hok H1 H2. induction t1 as [|e t1 IH]; [exact H2|].
  destruct H1 as [He H1]. split; [apply Hok; exact He|apply IH; exact H1].
Qed.

Lemma each_before_split (ok : event -> list event -> Prop) pre : forall e post,
  each_before ok (pre ++ e :: post) -> ok e post.
Proof.
  induction pre as [|x pre IH]; intros e post H.
  - exact (proj1 H).
  - destruct H as [_ H]. apply IH in H. exact H.
Qed.

Lemma pause_justified_mono h h' e :
  pause_justified h e -> pause_justified (h ++ h')%list e.
Proof.
  destruct e; try (intros; exact I).
  destruct h as [|x [|y h]]; cbn [pause_justified app];
    repeat match goal with
           | |- context [match ?x with _ => _ end] => destruct x
           end; tauto.
Qed.

Lemma pause_follows_mono e r r' :
  pause_follows e r -> pause_follows e (r ++ r')%list.
Proof.
  destruct e as [| | |[] []| | | | | | |]; try (intros; exact I);
    intros (rest' & ->); eexists; reflexivity.
Qed.

Lemma rev_eq_two {A} (l : list A) a b r :
  rev l = a :: b :: r -> l = (rev r ++ [b; a])%list.
Proof.
  intros H. rewrite <- (rev_involutive l), H. cbn [rev].
  rewrite <- app_assoc. reflexivity.
Qed.

Lemma pauses_in_place_app t1 t2 :
  pauses_in_place t1 -> pauses_in_place t2 -> pauses_in_place (t1 ++ t2).
Proof.
  intros [A1 B1] [A2 B2]. split.
  - apply each_after_app; auto using pause_justified_mono.
  - apply each_before_app; auto using pause_follows_mono.
Qed.

Ltac pauses :=
  unfold pauses_in_place, retry_warning, dropped_warning, capture_events,
    discard_events, loop_read_warning, final_read_warning, cleanup_events;
  cbn [each_after each_before pause_justified pause_follows app map seq];
  repeat split;
  try (eexists; reflexivity);
  try (left; repeat split; reflexivity);
  try (right; repeat split; reflexivity).

Lemma main_loop_pauses env args fuel s :
  pauses_in_place (trace (main_loop env args fuel s)).
Proof.
  unfold trace.
  apply (main_loop_shape env args pauses_in_place);
    try (intros; pauses; fail).
  - intros t1 t2. apply pauses_in_place_app.
  - intros. unfold tick_events. destruct r; pauses.
Qed.

Lemma run_pauses env args fuel :
  pauses_in_place (trace (run env args fuel)).
Proof.
  destruct (init_ok_dec env args) as [Hok|Hno].
  - rewrite (run_init_ok env args fuel Hok), guarded_loop_eq.
    pose proof (main_loop_pauses env args fuel (loop_start args)) as L.
    assert (I : pauses_in_place (init_events env args)).
    { unfold init_events, setup_events, warmup_events, starting_line.
      destruct (skip_warmup args); pauses. }
    unfold trace in *.
    destruct (main_loop env args fuel (loop_start args)) as [[[[]|[]|] s1] t1];
      cbn [after snd] in *;
      repeat (apply pauses_in_place_app; try assumption); pauses.
  - unfold run. rewrite main_eq, initialize_eq.
    destruct (mkdir_parents_exist_ok _ _) eqn:Hmk; [pauses|].
    destruct (camera_opens env) eqn:Hc; [|pauses].
    exfalso. apply Hno. split; assumption.
Qed.

(** X10. The script pauses only after a failed read, and after every failed
    read of the loop or of the countdown preview: a pause of 0.2 s comes
    right after the warning of a failed read of the loop, a pause of 0.05 s
    right after the warning of a failed preview read, and there is no other
    pause (none after a failed warm-up, final or discarded read). *)
Theorem X10_pauses_only_after_failed_reads env args fuel :
  (forall pre ms post,
     trace (run env args fuel) = (pre ++ ESleep ms :: post)%list ->
     (ms = 200
      /\ exists pre', pre = (pre' ++ [ERead LoopRead false; retry_warning])%list)
     \/ (ms = 50
         /\ exists pre',
              pre = (pre' ++ [ERead CountdownRead false; dropped_warning])%list))
  /\ (forall pre post,
        trace (run env args fuel) = (pre ++ ERead LoopRead false :: post)%list ->
        exists post', post = retry_warning :: ESleep 200 :: post')
  /\ (forall pre post,
        trace (run env args fuel)
        = (pre ++ ERead CountdownRead false :: post)%list ->
        exists post', post = dropped_warning :: ESleep 50 :: post').
Proof.
  destruct (run_pauses env args fuel) as [A B]. split; [|split].
  - intros pre ms post E. rewrite E in A.
    apply each_after_split in A. rewrite app_nil_r in A.
    cbn [pause_justified] in A.
    destruct (rev pre) as [|x [|y r]] eqn:R; cbn iota in A;
      try contradiction;
      repeat match type of A with
             | match ?z with _ => _ end => destruct z; try contradiction
             end.
    apply rev_eq_two in R.
    destruct A as [(-> & Hl & ->)|(-> & Hl & ->)]; rewrite Hl in R;
      [left|right]; (split; [reflexivity|]); exists (rev r); exact R.
  - intros pre post E. rewrite E in B.
    exact (each_before_split pause_follows pre _ _ B).
  - intros pre post E. rewrite E in B.
    exact (each_before_split pause_follows pre _ _ B).
Qed.

(** The first pause of the run on a camera that delivers nothing. *)
Lemma X10_pauses_only_after_failed_reads_witness :
  trace (run dead_camera_env default_args 2)
  = (firstn 12 (trace (run dead_camera_env default_args 2))
     ++ ESleep 200 :: skipn 13 (trace (run dead_camera_env default_args 2)))%list
  /\ ((200 = 200
       /\ exists pre',
            firstn 12 (trace (run dead_camera_env default_args 2))
            = (pre' ++ [ERead LoopRead false; retry_warning])%list)
      \/ (200 = 50
          /\ exists pre',
               firstn 12 (trace (run dead_camera_env default_args 2))
               = (pre' ++ [ERead CountdownRead false; dropped_warning])%list)).
Proof.
  assert (H : trace (run dead_camera_env default_args 2)
              = (firstn 12 (trace (run dead_camera_env default_args 2))
                 ++ ESleep 200
                    :: skipn 13 (trace (run dead_camera_env default_args 2)))%list)
    by (vm_compute; reflexivity).
  split; [exact H|].
  exact (proj1 (X10_pauses_only_after_failed_reads dead_camera_env default_args 2)
           _ _ _ H).
Defined.

(** ** The attribute error *)

Lemma crash_spec_after {A} block (o : result A * State * list event) :
  existsb is_dropped_preview block = false ->
  crash_spec o -> crash_spec (after block o).
Proof.
  intros Hb. destruct o as [[r s] t]. unfold crash_spec, outcome, trace.
  cbn [after fst snd].
  destruct r as [a|[]|]; try (intros H; rewrite existsb_app, Hb, H; reflexivity);
    [|exact id].
  intros (Ho & pre & -> & Hpre). split; [exact Ho|].
  exists (block ++ pre)%list. split; [rewrite <- app_assoc; reflexivity|].
  rewrite existsb_app, Hb, Hpre. reflexivity.
Qed.

Lemma discard_events_no_dropped env n :
  existsb is_dropped_preview (discard_events env n) = false.
Proof. reflexivity. Qed.

(** A countdown that starts with a frame. *)
Lemma countdown_crash env args fuel : forall start s,
  frame s <> None -> crash_spec (countdown env args fuel start s).
Proof.
  induction fuel as [|fuel IH]; intros start s Hf; [exact I|].
  rewrite countdown_S. cbv zeta.
  destruct (frame s) as [image|]; [|contradiction].
  destruct (_ <=? 0); [reflexivity|].
  destruct (_ =? 113); [reflexivity|].
  destruct (cam_read env (n_reads s)) as [image'|].
  - match goal with |- context [countdown env args fuel start ?x] =>
      specialize (IH start x);
      change (crash_spec (after (tick_events
                (countdown_display args image
                   (delay args - elapsed_seconds start (time_at env (n_times s)))
                   (img_index s))
                (key_at env (n_keys s)) (Some image'))
              (countdown env args fuel start x))) end.
    apply crash_spec_after; [reflexivity|]. apply IH. discriminate.
  - destruct fuel as [|fuel]; [exact I|].
    rewrite countdown_without_frame by reflexivity.
    unfold crash_spec, outcome, trace, tick_events. cbn [fst snd is_some].
    split; [reflexivity|]. eexists [_; _]. split; reflexivity.
Qed.

Lemma main_loop_crash env args fuel : forall s,
  crash_spec (main_loop env args fuel s)
  /\ (manual args = true ->
      existsb is_dropped_preview (trace (main_loop env args fuel s)) = false).
Proof.
  induction fuel as [|fuel IH]; intros s; rewrite main_loop_eq;
    destruct (img_index s <=? count args); try (split; reflexivity).
  assert (Next : forall block s1,
            existsb is_dropped_preview block = false ->
            crash_spec (after block (main_loop env args fuel s1))
            /\ (manual args = true ->
                existsb is_dropped_preview
                  (trace (after block (main_loop env args fuel s1))) = false)).
  { intros block s1 Hb. destruct (IH s1) as [IH1 IH2]. split.
    - apply crash_spec_after; assumption.
    - intros Hman. specialize (IH2 Hman). unfold trace in *.
      destruct (main_loop env args fuel s1) as [[r2 s2] t2].
      cbn [after snd] in *. rewrite existsb_app, Hb, IH2. reflexivity. }
  rewrite loop_body_eq. cbv zeta.
  destruct (cam_read env (n_reads s)) as [image|]; [|apply Next; reflexivity].
  destruct (manual args) eqn:Hman.
  - rewrite manual_step_eq. cbv zeta.
    destruct (_ =? 27); [split; reflexivity|].
    destruct (_ =? 32); cbn [after]; apply Next; reflexivity.
  - rewrite automatic_step_eq.
    match goal with |- context [countdown env args fuel ?st ?x] =>
      pose proof (countdown_crash env args fuel st x) as C;
      destruct (countdown env args fuel st x) as [[[[]|e|] s1] t1] end.
    + assert (C' : existsb is_dropped_preview t1 = false)
        by (apply C; discriminate).
      unfold final_capture.
      destruct (cam_read env (n_reads s1)); cbn [after];
        apply Next; cbn [app existsb is_dropped_preview orb];
        rewrite existsb_app, C'; reflexivity.
    + split; [|discriminate]. cbn [after].
      apply (crash_spec_after [ERead LoopRead true] (Raise e, s1, t1));
        [reflexivity|].
      apply C. discriminate.
    + split; [exact I|discriminate].
Qed.

(** X11. A run that has ended has ended with the attribute error of
    [frame.copy()] exactly when a preview read of the countdown has failed.
    It is then a run of automatic mode, its exit status is 1, and the last
    things it did are that read, its warning, its pause and the
    finalization: nothing is drawn or written after the frame was dropped.
    A run of manual mode that has ended has returned, or failed at the
    initialization. *)
Theorem X11_crash_exactly_after_dropped_preview env args fuel :
  outcome (run env args fuel) <> OutOfFuel ->
  (outcome (run env args fuel) = Raise no_copy_error
   <-> In (ERead CountdownRead false) (trace (run env args fuel)))
  /\ (outcome (run env args fuel) = Raise no_copy_error ->
      manual args = false
      /\ exit_code (outcome (run env args fuel)) = Some 1
      /\ exists pre,
           trace (run env args fuel) = (pre ++ crash_events)%list
           /\ ~ In (ERead CountdownRead false) pre)
  /\ (manual args = true ->
      outcome (run env args fuel) = Ret tt
      \/ outcome (run env args fuel) = Raise (SystemExit 1)).
Proof.
  intros Hend.
  assert (Dropped : forall t,
            In (ERead CountdownRead false) t
            <-> existsb is_dropped_preview t = true).
  { intros t. rewrite existsb_exists. split.
    - intros H. exists (ERead CountdownRead false). split; [exact H|reflexivity].
    - intros (e & Hin & He).
      destruct e as [| | |[] []| | | | | | |]; try discriminate He. exact Hin. }
  destruct (init_ok_dec env args) as [Hok|Hno].
  - rewrite (run_init_ok env args fuel Hok), guarded_loop_eq in *.
    assert (I : existsb is_dropped_preview (init_events env args) = false)
      by (unfold init_events; destruct (skip_warmup args); reflexivity).
    destruct (main_loop_crash env args fuel (loop_start args)) as [C M].
    pose proof (main_loop_outcomes env args fuel (loop_start args)) as O.
    unfold crash_spec, outcome, trace in *.
    destruct (main_loop env args fuel (loop_start args)) as [[[[]|[]|] s1] t1];
      cbn [after fst snd] in *; try contradiction; try discriminate O.
    + split; [|split; [discriminate|auto]].
      rewrite Dropped, !existsb_app, I, C. split; discriminate.
    + split; [|split; [discriminate|auto]].
      rewrite Dropped, !existsb_app, I, C. split; discriminate.
    + destruct C as (Ho & pre & -> & Hpre). injection Ho as ->.
      assert (Hm : manual args = false).
      { destruct (manual args); [|reflexivity].
        specialize (M eq_refl). rewrite existsb_app in M. cbn in M.
        rewrite orb_true_r in M. discriminate M. }
      split; [|split].
      * split; [intros _|reflexivity].
        apply Dropped. rewrite !existsb_app. cbn.
        rewrite !orb_true_r. reflexivity.
      * intros _. split; [exact Hm|]. split; [reflexivity|].
        exists (init_events env args ++ pre)%list. split.
        { unfold crash_events, cleanup_events. rewrite <- !app_assoc.
          reflexivity. }
        { rewrite Dropped, existsb_app, I, Hpre. discriminate. }
      * rewrite Hm. discriminate.
  - destruct (run_init_failed env args fuel Hno) as (t & R & _).
    assert (T : existsb is_dropped_preview (trace (run env args fuel)) = false).
    { unfold run. rewrite main_eq, initialize_eq.
      destruct (mkdir_parents_exist_ok _ _) eqn:Hmk; [reflexivity|].
      destruct (camera_opens env) eqn:Hc; [|reflexivity].
      exfalso. apply Hno. split; assumption. }
    rewrite Dropped, T. rewrite R. unfold outcome. cbn [fst].
    split; [split; discriminate|]. split; [discriminate|auto].
Qed.

(** The default command line on a camera that drops its seventh frame. *)
Lemma X11_crash_exactly_after_dropped_preview_witness :
  outcome (run dropped_preview_env default_args 10) <> OutOfFuel
  /\ In (ERead CountdownRead false)
       (trace (run dropped_preview_env default_args 10))
  /\ outcome (run dropped_preview_env default_args 10) = Raise no_copy_error.
Proof.
  assert (H1 : outcome (run dropped_preview_env default_args 10) <> OutOfFuel)
    by (vm_compute; discriminate).
  assert (H2 : In (ERead CountdownRead false)
                 (trace (run dropped_preview_env default_args 10))).
  { vm_compute. repeat (first [left; reflexivity | right]). }
  split; [exact H1|]. split; [exact H2|].
  exact (proj2 (proj1 (X11_crash_exactly_after_dropped_preview
                         dropped_preview_env default_args 10 H1)) H2).
Defined.

(** ** Manual mode to the end *)

Lemma same_end_trans {A} (o1 o2 o3 : result A * State * list event) :
  same_end o1 o2 -> same_end o2 o3 -> same_end o1 o3.
Proof. intros [H1 H2] [H3 H4]. split; congruence. Qed.

Lemma same_end_after {A} t0 (o : result A * State * list event) :
  same_end (after t0 o) o.
Proof. split; [apply outcome_after|apply final_state_after]. Qed.

(** One pass of manual mode whose poll, if any, does not read ESC.  It
    uses up at least one read.  When its read fails it polls nothing; else
    it polls once, captures on SPACE and does nothing else otherwise.  The
    loop goes on from a state that does not depend on the fuel. *)
Lemma manual_pass_on env args s :
  manual args = true -> img_index s <= count args ->
  Z.land (key_at env (n_keys s)) 255 <> 27 ->
  exists s',
    (n_reads s < n_reads s')%nat
    /\ ((cam_read env (n_reads s) = None
         /\ n_keys s' = n_keys s /\ img_index s' = img_index s)
        \/ (cam_read env (n_reads s) <> None
            /\ n_keys s' = S (n_keys s)
            /\ img_index s'
               = (if Z.land (key_at env (n_keys s)) 255 =? 32
                  then img_index s + 1 else img_index s)))
    /\ forall fuel,
         same_end (main_loop env args (S fuel) s) (main_loop env args fuel s').
Proof.
  intros Hman Hle H27. apply Z.leb_le in Hle. apply Z.eqb_neq in H27.
  destruct (cam_read env (n_reads s)) as [image|] eqn:Hr.
  - destruct (Z.land (key_at env (n_keys s)) 255 =? 32) eqn:H32.
    + eexists. split; [|split].
      3:{ intros fuel. rewrite main_loop_eq, Hle, loop_body_eq. cbv zeta.
          rewrite Hr, Hman, manual_step_eq. cbv zeta.
          cbn [n_keys set_frame count_read]. rewrite H27, H32.
          cbn [after]. apply same_end_after. }
      * cbn. lia.
      * right. split; [discriminate|]. split; reflexivity.
    + eexists. split; [|split].
      3:{ intros fuel. rewrite main_loop_eq, Hle, loop_body_eq. cbv zeta.
          rewrite Hr, Hman, manual_step_eq. cbv zeta.
          cbn [n_keys set_frame count_read]. rewrite H27, H32.
          cbn [after]. apply same_end_after. }
      * cbn. lia.
      * right. split; [discriminate|]. split; reflexivity.
  - eexists. split; [|split].
    3:{ intros fuel. rewrite main_loop_eq, Hle, loop_body_eq. cbv zeta.
        rewrite Hr. apply same_end_after. }
    + cbn. lia.
    + left. repeat split.
Qed.

(** From a state whose index is within the count, a SPACE [d] polls ahead
    gets the next capture made, once the camera has recovered. *)
Lemma manual_capture_eventually env args bound :
  manual args = true -> never_escapes env ->
  (forall i, (bound <= i)%nat -> cam_read env i <> None) ->
  forall (m d : nat) s,
    (bound - n_reads s + d <= m)%nat ->
    img_index s <= count args ->
    Z.land (key_at env (n_keys s + d)) 255 = 32 ->
    exists n s',
      img_index s' = img_index s + 1
      /\ forall extra,
           same_end (main_loop env args (n + extra) s)
             (main_loop env args extra s').
Proof.
  intros Hman Hesc Hrec.
  induction m as [|m IH]; intros d s Hm Hle Hd;
    destruct (manual_pass_on env args s Hman Hle (Hesc _))
      as (s1 & Hreads & Hcase & Hpass);
    destruct Hcase as [(Hnone & Hk1 & Hi1)|(Hsome & Hk1 & Hi1)];
    try (exfalso;
         assert (bound <= n_reads s)%nat by lia;
         exact (Hrec _ ltac:(eassumption) Hnone)).
  - assert (d = 0)%nat by lia. subst d. rewrite Nat.add_0_r in Hd.
    rewrite Hd in Hi1. cbn in Hi1.
    exists 1%nat, s1. split; [exact Hi1|]. intros extra. apply Hpass.
  - assert (n_reads s < bound)%nat.
    { destruct (Nat.lt_ge_cases (n_reads s) bound) as [Hlt|Hge]; [exact Hlt|].
      destruct (Hrec _ Hge Hnone). }
    destruct (IH d s1) as (n & s' & Hi' & Hn).
    { lia. }
    { lia. }
    { rewrite Hk1. exact Hd. }
    exists (S n), s'. split; [lia|]. intros extra.
    eapply same_end_trans; [apply Hpass|apply Hn].
  - destruct (Z.land (key_at env (n_keys s)) 255 =? 32) eqn:H32.
    + exists 1%nat, s1. split; [exact Hi1|]. intros extra. apply Hpass.
    + destruct d as [|d].
      { rewrite Nat.add_0_r in Hd. rewrite Hd in H32. discriminate H32. }
      destruct (IH d s1) as (n & s' & Hi' & Hn).
      { lia. }
      { lia. }
      { rewrite Hk1. cbn [Nat.add]. rewrite <- Nat.add_succ_r. exact Hd. }
      exists (S n), s'. split; [lia|]. intros extra.
      eapply same_end_trans; [apply Hpass|apply Hn].
Qed.

(** While SPACE keeps coming the loop of manual mode returns. *)
Lemma manual_loop_returns env args bound :
  manual args = true -> never_escapes env -> space_recurs env ->
  (forall i, (bound <= i)%nat -> cam_read env i <> None) ->
  forall (m : nat) s,
    count args + 1 - img_index s <= Z.of_nat m ->
    exists N, forall extra,
      outcome (main_loop env args (N + extra) s) = Ret tt.
Proof.
  intros Hman Hesc Hspace Hrec.
  induction m as [|m IH]; intros s Hm.
  - exists 0%nat. intros extra. rewrite main_loop_eq.
    destruct (_ <=? _) eqn:E; [apply Z.leb_le in E; lia|reflexivity].
  - destruct (Z.leb_spec (img_index s) (count args)) as [Hle|Hgt].
    + destruct (Hspace (n_keys s)) as (j & Hj & Hkey).
      destruct (manual_capture_eventually env args bound Hman Hesc Hrec
                  (bound - n_reads s + (j - n_keys s)) (j - n_keys s) s
                  (Nat.le_refl _) Hle) as (n & s' & Hi & Hn).
      { replace (n_keys s + (j - n_keys s))%nat with j by lia. exact Hkey. }
      destruct (IH s') as (N & HN); [lia|].
      exists (n + N)%nat. intros extra.
      rewrite <- Nat.add_assoc. rewrite (proj1 (Hn (N + extra)%nat)).
      apply HN.
    + exists 0%nat. intros extra. rewrite main_loop_eq.
      destruct (_ <=? _) eqn:E; [apply Z.leb_le in E; lia|reflexivity].
Qed.

(** Without ESC the loop of manual mode returns only with the index past
    the count. *)
Lemma manual_loop_exit env args fuel : forall s,
  manual args = true -> never_escapes env ->
  outcome (main_loop env args fuel s) = Ret tt ->
  count args < img_index (final_state (main_loop env args fuel s)).
Proof.
  unfold outcome, final_state.
  induction fuel as [|fuel IH]; intros s Hman Hesc; rewrite main_loop_eq;
    destruct (img_index s <=? count args) eqn:Hle; try discriminate;
    try (intros _; apply Z.leb_gt in Hle; exact Hle).
  rewrite loop_body_eq. cbv zeta.
  destruct (cam_read env (n_reads s)) as [image|].
  - rewrite Hman, manual_step_eq. cbv zeta.
    destruct (_ =? 27) eqn:H27; [apply Z.eqb_eq in H27; destruct (Hesc _ H27)|].
    destruct (_ =? 32); cbn [after];
      match goal with |- context [main_loop env args fuel ?x] =>
        specialize (IH x Hman Hesc); destruct (main_loop env args fuel x)
          as [[r2 s2] t2] end; exact IH.
  - match goal with |- context [main_loop env args fuel ?x] =>
      specialize (IH x Hman Hesc); destruct (main_loop env args fuel x)
        as [[r2 s2] t2] end.
    exact IH.
Qed.

(** X12. Manual mode ends by itself once the count is reached, and no
    failed read stops it.  When the initialization passes, the camera fails
    only finitely often, nobody presses ESC and SPACE keeps being pressed
    (with any other keys and any idle polls in between), the run returns,
    with enough fuel and with any more; it has made exactly [N] captures,
    for the indices 1 to [N] in this order, and the index ends at
    [N + 1]. *)
Theorem X12_manual_run_takes_N_images env args :
  manual args = true ->
  1 <= count args ->
  init_ok env args ->
  camera_recovers env ->
  never_escapes env ->
  space_recurs env ->
  exists enough, forall extra,
    let o := run env args (enough + extra) in
    outcome o = Ret tt
    /\ map fst (write_calls (trace o))
       = map (documented_filename env args) (seq 1 (Z.to_nat (count args)))
    /\ img_index (final_state o) = count args + 1
    /\ (writes_succeed env ->
        written_files (trace o)
        = map (documented_filename env args) (seq 1 (Z.to_nat (count args)))).
Proof.
  intros Hman Hcount Hok (bound & Hrec) Hesc Hspace.
  destruct (manual_loop_returns env args bound Hman Hesc Hspace Hrec
              (Z.to_nat (count args)) (loop_start args)) as (N & HN).
  { change (img_index (loop_start args)) with 1. lia. }
  exists N. intros extra. cbv zeta. specialize (HN extra).
  set (fuel := (N + extra)%nat) in *.
  pose proof (manual_loop_exit env args fuel (loop_start args) Hman Hesc HN)
    as Hx.
  destruct (run_of_loop env args fuel Hok HN) as [Ro Rs].
  split; [exact Ro|].
  destruct (run env args fuel) as [[r s] t] eqn:R.
  destruct (run_accounted env args fuel r s t Hok R) as (k & Hk & Ht & _ & Hb).
  unfold final_state, trace in *. cbn [fst snd] in *.
  rewrite <- Rs, Hk in Hx.
  assert (Ek : k = Z.to_nat (count args)) by lia.
  assert (Hnames : map fst (write_calls t)
                   = map (documented_filename env args)
                       (seq 1 (Z.to_nat (count args)))).
  { rewrite Ht, expected_writes_paths, <- Ek.
    apply map_ext. intros i. apply nth_filename_documented. }
  split; [exact Hnames|]. split; [lia|].
  intros Hw. rewrite <- Hnames. apply written_files_all_ok.
  rewrite Ht. unfold expected_writes. rewrite forallb_forall.
  intros [f ok] Hin. apply in_map_iff in Hin.
  destruct Hin as (i & E & _). injection E as _ <-. apply Hw.
Qed.

Lemma space_env_recovers : camera_recovers space_env.
Proof. exists 0%nat. intros i _. cbn. discriminate. Defined.

Lemma space_env_never_escapes : never_escapes space_env.
Proof. intros i. cbn. discriminate. Defined.

Lemma space_env_space_recurs : space_recurs space_env.
Proof. intros k. exists k. split; [lia|reflexivity]. Defined.

(** SPACE at every poll, count 2. *)
Lemma X12_manual_run_takes_N_images_witness :
  manual manual_args = true
  /\ 1 <= count manual_args
  /\ init_ok space_env manual_args
  /\ camera_recovers space_env
  /\ never_escapes space_env
  /\ space_recurs space_env
  /\ exists enough, forall extra,
       outcome (run space_env manual_args (enough + extra)) = Ret tt
       /\ img_index (final_state (run space_env manual_args (enough + extra)))
          = 3.
Proof.
  assert (H1 : manual manual_args = true) by reflexivity.
  assert (H2 : 1 <= count manual_args) by (cbn; lia).
  assert (H3 : init_ok space_env manual_args) by (split; reflexivity).
  destruct (X12_manual_run_takes_N_images space_env manual_args H1 H2 H3
              space_env_recovers space_env_never_escapes
              space_env_space_recurs) as (enough & He).
  split; [exact H1|]. split; [exact H2|]. split; [exact H3|].
  split; [exact space_env_recovers|].
  split; [exact space_env_never_escapes|].
  split; [exact space_env_space_recurs|].
  exists enough. intros extra. destruct (He extra) as (Ho & _ & Hi & _).
  split; [exact Ho|exact Hi].
Defined.

(** ** More on file names *)

Lemma root_of_absolute s :
  exists r, PurePath.root_of (String "/" s) = String "/" r.
Proof.
  unfold PurePath.root_of. cbn [PurePath.leading_slashes].
  change (Ascii.eqb "/" "/") with true. cbv iota.
  destruct (PurePath.leading_slashes s) as [|[|n]]; eexists; reflexivity.
Qed.

Lemma join_absolute folder s :
  PurePath.join folder (String "/" s) = PurePath.parse (String "/" s).
Proof.
  unfold PurePath.join. destruct (root_of_absolute s) as (r & R).
  cbn [PurePath.parse PurePath.root]. rewrite R. reflexivity.
Qed.

Lemma to_str_absolute s :
  exists rest, PurePath.to_str (PurePath.parse (String "/" s)) = String "/" rest.
Proof.
  unfold PurePath.to_str. destruct (root_of_absolute s) as (r & R).
  cbn [PurePath.parse PurePath.root PurePath.parts]. rewrite R.
  eexists. reflexivity.
Qed.

(** X13. A prefix that starts with a slash takes the file out of the output
    folder: [folder / name] drops the folder when the name is absolute, so
    the path [build_filename] returns is the same for every folder, and it
    is an absolute path. *)
Theorem X13_absolute_prefix_leaves_folder folder folder' p idx now :
  filename_at folder (String "/" p) idx now
  = filename_at folder' (String "/" p) idx now
  /\ exists rest, filename_at folder (String "/" p) idx now = String "/" rest.
Proof.
  unfold filename_at, file_name. cbn [append]. rewrite !join_absolute.
  split; [reflexivity|apply to_str_absolute].
Qed.

Example absolute_prefix_example :
  filename_at (PurePath.parse "captured_images") "/tmp/shot" 1
    {| year := 2024; month := 5; day := 17;
       hour := 9; minute := 30; second := 0 |}
  = "/tmp/shot_001_20240517_093000.jpg".
Proof. reflexivity. Qed.

Lemma compare_app_prefix a x y :
  String.compare (a ++ x) (a ++ y) = String.compare x y.
Proof.
  induction a as [|c a IH]; [reflexivity|].
  cbn [append String.compare]. unfold Ascii.compare.
  rewrite N.compare_refl. exact IH.
Qed.

Lemma compare_app_lt u : forall v x y,
  String.length u = String.length v ->
  String.compare u v = Lt ->
  String.compare (u ++ x) (v ++ y) = Lt.
Proof.
  induction u as [|c u IH]; intros [|d v] x y Hl H; try discriminate.
  cbn [append String.compare] in *.
  destruct (Ascii.compare c d); try discriminate; [|reflexivity].
  apply IH; [|exact H]. cbn in Hl. lia.
Qed.

Lemma compare_lt_trans a : forall b c,
  String.compare a b = Lt -> String.compare b c = Lt -> String.compare a c = Lt.
Proof.
  induction a as [|x a IH]; intros [|y b] [|z c] H1 H2;
    try discriminate; try reflexivity.
  cbn [String.compare] in *. unfold Ascii.compare in *.
  destruct (N.compare_spec (N_of_ascii x) (N_of_ascii y)) as [E1|L1|G1];
    try discriminate;
    destruct (N.compare_spec (N_of_ascii y) (N_of_ascii z)) as [E2|L2|G2];
    try discriminate.
  - rewrite E1, E2, N.compare_refl. exact (IH _ _ H1 H2).
  - rewrite E1. apply N.compare_lt_iff in L2. rewrite L2. reflexivity.
  - rewrite <- E2. apply N.compare_lt_iff in L1. rewrite L1. reflexivity.
  - assert (L : (N_of_ascii x < N_of_ascii z)%N) by lia.
    apply N.compare_lt_iff in L. rewrite L. reflexivity.
Qed.

(** The index fields of two indices up to 999 compare as the indices do. *)
Lemma index_fields_ordered i j :
  (i < j)%nat -> (j <= 999)%nat ->
  String.compare (PyStr.fmt_0d 3 (Z.of_nat i)) (PyStr.fmt_0d 3 (Z.of_nat j))
  = Lt.
Proof.
  assert (B : forallb
                (fun a =>
                   match String.compare (PyStr.fmt_0d 3 (Z.of_nat a))
                           (PyStr.fmt_0d 3 (Z.of_nat (S a))) with
                   | Lt => true
                   | _ => false
                   end)
                (seq 0 999) = true) by (vm_compute; reflexivity).
  rewrite forallb_forall in B.
  assert (Step : forall a, (a < 999)%nat ->
            String.compare (PyStr.fmt_0d 3 (Z.of_nat a))
              (PyStr.fmt_0d 3 (Z.of_nat (S a))) = Lt).
  { intros a Ha. specialize (B a ltac:(apply in_seq; lia)).
    destruct (String.compare _ _); try discriminate B. reflexivity. }
  intros Hij. induction Hij as [|j Hij IH]; intros Hj.
  - apply Step. lia.
  - eapply compare_lt_trans; [apply IH; lia|apply Step; lia].
Qed.

(** X14. The zero-filled index makes the names of a run sort in the order
    of capture, whatever the time stamps are, as long as the indices have
    three digits: compared as strings, character by character, the path of
    index [i] comes before that of index [j] when [i < j <= 999].  At 1000
    the order breaks: the path of index 1000 comes before that of 999. *)
Theorem X14_names_sort_by_index folder prefix now now' :
  (forall i j,
     0 <= i -> i < j -> j <= 999 ->
     String.compare (filename_at folder prefix i now)
       (filename_at folder prefix j now') = Lt)
  /\ String.compare (filename_at folder prefix 1000 now)
       (filename_at folder prefix 999 now') = Lt.
Proof.
  split.
  - intros i j Hi Hij Hj. rewrite !filename_at_pattern.
    rewrite compare_app_prefix. cbn [append String.compare].
    change (Ascii.compare "_" "_") with Eq. cbv iota.
    rewrite <- (Z2Nat.id i), <- (Z2Nat.id j) by lia.
    apply compare_app_lt.
    + rewrite !(proj2 (proj2 (proj2 (index_field _)))) by lia. reflexivity.
    + apply index_fields_ordered; lia.
  - rewrite !filename_at_pattern, compare_app_prefix. reflexivity.
Qed.

Lemma X14_names_sort_by_index_witness :
  0 <= 9 /\ 9 < 10 /\ 10 <= 999
  /\ String.compare "captured_images/image_009_20240517_093059.jpg"
       "captured_images/image_010_20240517_093000.jpg" = Lt.
Proof.
  split; [lia|]. split; [lia|]. split; [lia|].
  exact (proj1 (X14_names_sort_by_index (PurePath.parse "captured_images")
                  "image"
                  {| year := 2024; month := 5; day := 17;
                     hour := 9; minute := 30; second := 59 |}
                  {| year := 2024; month := 5; day := 17;
                     hour := 9; minute := 30; second := 0 |})
           9 10 ltac:(lia) ltac:(lia) ltac:(lia)).
Defined.

(** ** A delay that is not positive *)

Lemma main_loop_no_tick env args fuel s :
  manual args = false -> delay args <= 0 -> clock_monotone env ->
  existsb is_countdown_tick (trace (main_loop env args fuel s)) = false
  /\ Forall (final_preview args) (trace (main_loop env args fuel s)).
Proof.
  intros Hauto Hd Hm. unfold trace.
  apply (main_loop_shape env args
           (fun t => existsb is_countdown_tick t = false
                     /\ Forall (final_preview args) t));
    try (intros; congruence);
    try (intros; split; [reflexivity|];
         unfold capture_events, discard_events, loop_read_warning,
           final_read_warning;
         cbn [map seq app]; repeat constructor; fail).
  - intros t1 t2 [H1 F1] [H2 F2]. split.
    + rewrite existsb_app, H1, H2. reflexivity.
    + apply Forall_app. split; assumption.
  - intros image idx raw r k j _ Hkj remaining Hr _. exfalso.
    pose proof (elapsed_seconds_nonneg env k j Hm (Nat.lt_le_incl _ _ Hkj)).
    subst remaining. lia.
  - intros image idx raw k j _ Hkj remaining Hr _. exfalso.
    pose proof (elapsed_seconds_nonneg env k j Hm (Nat.lt_le_incl _ _ Hkj)).
    subst remaining. lia.
  - intros image idx k j _ _ remaining Hr. split; [reflexivity|].
    repeat constructor. exists image, remaining, idx. split; [reflexivity|exact Hr].
Qed.

(** X15. A delay of zero or less is taken as no delay at all.  In automatic
    mode, with a clock that does not run backwards, every countdown ends in
    its first turn: every preview shown carries the text [Capturing...], no
    key is ever polled and no preview frame is ever read.  So such a run
    cannot be cancelled from the keyboard, and when it has ended it has
    returned or failed at the initialization. *)
Theorem X15_delay_not_positive env args fuel :
  manual args = false ->
  delay args <= 0 ->
  clock_monotone env ->
  existsb is_countdown_tick (trace (run env args fuel)) = false
  /\ (forall image,
        In (EShow image) (trace (run env args fuel)) ->
        exists raw remaining idx,
          image = countdown_display args raw remaining idx
          /\ countdown_text remaining = "Capturing...")
  /\ (outcome (run env args fuel) = Ret tt
      \/ outcome (run env args fuel) = Raise (SystemExit 1)
      \/ outcome (run env args fuel) = OutOfFuel).
Proof.
  intros Hauto Hd Hm.
  assert (T : existsb is_countdown_tick (trace (run env args fuel)) = false
              /\ Forall (final_preview args) (trace (run env args fuel))).
  { destruct (run_trace env args fuel) as [Hs|(tail & -> & Htail)].
    - split.
      + generalize dependent (trace (run env args fuel)). intros t.
        induction t as [|e t IH]; intros H; [reflexivity|].
        cbn [forallb] in H. apply andb_true_iff in H. destruct H as [He Ht].
        destruct e; try discriminate He; cbn; auto.
      + apply setup_events_Forall with (2 := Hs).
        intros e He. destruct e; try discriminate He; exact I.
    - destruct (main_loop_no_tick env args fuel (loop_start args) Hauto Hd Hm)
        as [L1 L2].
      split.
      + rewrite !existsb_app, L1.
        replace (existsb is_countdown_tick (init_events env args)) with false
          by (unfold init_events; destruct (skip_warmup args); reflexivity).
        destruct Htail as [->|[->| ->]]; reflexivity.
      + apply Forall_app. split; [|apply Forall_app; split; [exact L2|]].
        * unfold init_events, setup_events, warmup_events.
          destruct (skip_warmup args); cbn [map seq app];
            repeat constructor.
        * destruct Htail as [->|[->| ->]]; repeat constructor. }
  destruct T as [T1 T2]. split; [exact T1|]. split.
  - intros image Hin. rewrite Forall_forall in T2.
    destruct (T2 _ Hin) as (raw & remaining & idx & -> & Hr).
    exists raw, remaining, idx. split; [reflexivity|].
    unfold countdown_text.
    destruct (0 <? remaining) eqn:E; [apply Z.ltb_lt in E; lia|reflexivity].
  - destruct (outcome (run env args fuel)) as [[]|e|] eqn:O; auto.
    right. left.
    destruct (exit_code_spec env args fuel
                (match e with SystemExit c => c | _ => 1 end))
      as [(_ & _ & H)|[(_ & _ & H)|(_ & Hok & H)]].
    + rewrite O. destruct e; reflexivity.
    + rewrite O in H. discriminate H.
    + rewrite O in H. exact H.
    + exfalso.
      assert (Hend : outcome (run env args fuel) <> OutOfFuel)
        by (rewrite H; discriminate).
      rewrite (run_init_ok env args fuel Hok), guarded_loop_eq in *.
      destruct (main_loop_crash env args fuel (loop_start args)) as [C _].
      destruct (main_loop_no_tick env args fuel (loop_start args) Hauto Hd Hm)
        as [L1 _].
      unfold crash_spec, outcome, trace in *.
      destruct (main_loop env args fuel (loop_start args))
        as [[[[]|[]|] s1] t1]; cbn [after fst snd] in *; try discriminate H.
      destruct C as (_ & pre & -> & _).
      rewrite existsb_app in L1. cbn in L1. rewrite orb_true_r in L1.
      discriminate L1.
Qed.

Lemma X15_delay_not_positive_witness :
  manual negative_delay_args = false
  /\ delay negative_delay_args <= 0
  /\ clock_monotone nominal_env
  /\ existsb is_countdown_tick (trace (run nominal_env negative_delay_args 10))
     = false
  /\ List.length (written_files (trace (run nominal_env negative_delay_args 10)))
     = 2%nat.
Proof.
  assert (H1 : manual negative_delay_args = false) by reflexivity.
  assert (H2 : delay negative_delay_args <= 0) by (cbn; lia).
  split; [exact H1|]. split; [exact H2|].
  split; [exact nominal_clock_monotone|].
  split; [|reflexivity].
  exact (proj1 (X15_delay_not_positive nominal_env negative_delay_args 10
                  H1 H2 nominal_clock_monotone)).
Defined.

(** ** How long the countdown lasts *)

(** A countdown that has returned has read the clock until the first
    reading at which the delay had passed, polling the keyboard once after
    each of the readings before it. *)
Lemma countdown_timing env args fuel : forall start s s' t,
  countdown env args fuel start s = (Ret tt, s', t) ->
  exists last,
    (n_times s <= last)%nat
    /\ n_times s' = S last
    /\ delay args <= elapsed_seconds start (time_at env last)
    /\ (forall j, (n_times s <= j < last)%nat ->
                  elapsed_seconds start (time_at env j) < delay args)
    /\ List.length (filter is_key_poll t) = (last - n_times s)%nat.
Proof.
  induction fuel as [|fuel IH]; intros start s s' t H; [discriminate H|].
  rewrite countdown_S in H. cbv zeta in H.
  destruct (frame s) as [image|]; [|discriminate H].
  destruct (_ <=? 0) eqn:Hr.
  { injection H as <- <-. apply Z.leb_le in Hr.
    exists (n_times s). split; [lia|]. split; [reflexivity|].
    split; [lia|]. split; [intros j Hj; lia|].
    rewrite Nat.sub_diag. reflexivity. }
  apply Z.leb_gt in Hr.
  destruct (_ =? 113); [discriminate H|].
  destruct (countdown env args fuel start _) as [[r1 s1] t1] eqn:C.
  injection H as -> <- <-.
  destruct (IH _ _ _ _ C) as (last & Hl & Hs & Hd & Hbefore & Hpolls).
  cbn [n_times set_frame count_read count_key count_time] in *.
  exists last. split; [lia|]. split; [exact Hs|]. split; [exact Hd|].
  split.
  - intros j Hj. destruct (Nat.eq_dec j (n_times s)) as [->|Hne]; [lia|].
    apply Hbefore. lia.
  - cbn [filter is_key_poll List.length].
    rewrite filter_app, length_app, Hpolls.
    destruct (is_some _); cbn; lia.
Qed.

(** X16. The countdown lasts the delay.  When a pass of automatic mode has
    taken its final read, the clock reading that ended its countdown is the
    first one, after the reading taken as start time, at which [delay]
    whole seconds had passed; for a delay of at least one second it is at
    least [delay] seconds later than the start.  The keyboard was polled
    once after each reading before it, and never after it. *)
Theorem X16_countdown_lasts_the_delay env args fuel s c s' t :
  automatic_step env args fuel s = (Ret c, s', t) ->
  exists last,
    (n_times s < last)%nat
    /\ n_times s' = S last
    /\ delay args
       <= elapsed_seconds (time_at env (n_times s)) (time_at env last)
    /\ (forall j, (n_times s < j < last)%nat ->
          elapsed_seconds (time_at env (n_times s)) (time_at env j)
          < delay args)
    /\ (1 <= delay args ->
        delay args * ticks_per_second
        <= time_at env last - time_at env (n_times s))
    /\ List.length (filter is_key_poll t) = (last - S (n_times s))%nat.
Proof.
  rewrite automatic_step_eq. intros H.
  destruct (countdown env args fuel _ _) as [[[[]|e|] s1] t1] eqn:C;
    try discriminate H.
  destruct (countdown_timing env args fuel _ _ _ _ C)
    as (last & Hl & Hs & Hd & Hbefore & Hpolls).
  cbn [n_times count_time] in *.
  assert (E : n_times s' = n_times s1
              /\ filter is_key_poll t = filter is_key_poll t1).
  { unfold final_capture in H.
    destruct (cam_read env (n_reads s1)); cbn [after] in H;
      injection H as _ <- <-; rewrite filter_app;
      (split; [reflexivity|]); cbn; rewrite app_nil_r; reflexivity. }
  destruct E as [E1 E2].
  exists last. split; [lia|]. split; [congruence|]. split; [exact Hd|].
  split; [intros j Hj; apply Hbefore; lia|]. split; [|congruence].
  intros H1. unfold elapsed_seconds, ticks_per_second in *.
  set (x := time_at env last - time_at env (n_times s)) in *.
  assert (0 <= x).
  { destruct (Z.le_gt_cases 0 x) as [Hx|Hx]; [exact Hx|].
    assert (Z.quot x 1000000 <= 0) by (apply Z.quot_le_upper_bound; lia).
    assert (Z.quot x 1000000 <= 0); lia. }
  rewrite Z.quot_div_nonneg in Hd by lia.
  pose proof (Z.mul_div_le x 1000000 ltac:(lia)). nia.
Qed.

Lemma X16_countdown_lasts_the_delay_witness :
  automatic_step nominal_env default_args 5 first_pass_state
  = (Ret Continue,
     final_state (automatic_step nominal_env default_args 5 first_pass_state),
     trace (automatic_step nominal_env default_args 5 first_pass_state))
  /\ exists last,
       n_times (final_state
                  (automatic_step nominal_env default_args 5 first_pass_state))
       = S last
       /\ 3 * ticks_per_second
          <= time_at nominal_env last - time_at nominal_env 0.
Proof.
  assert (H : automatic_step nominal_env default_args 5 first_pass_state
              = (Ret Continue,
                 final_state
                   (automatic_step nominal_env default_args 5 first_pass_state),
                 trace
                   (automatic_step nominal_env default_args 5 first_pass_state)))
    by (vm_compute; reflexivity).
  split; [exact H|].
  destruct (X16_countdown_lasts_the_delay _ _ _ _ _ _ _ H)
    as (last & _ & Hs & _ & _ & Hd & _).
  exists last. split; [exact Hs|]. apply Hd. cbn. lia.
Defined.

(** ** The keys that count *)

Section Keys.

Variable env : Env.
Variable args : Args.
Variable keys : nat -> Z.

Hypothesis same_class :
  forall i, key_class args (keys i) = key_class args (key_at env i).

Lemma alike_refl {A} (o : result A * State * list event) : alike args o o.
Proof. repeat split. Qed.

Lemma alike_after {A} b1 b2 (o1 o2 : result A * State * list event) :
  map (classify_poll args) b1 = map (classify_poll args) b2 ->
  alike args o1 o2 -> alike args (after b1 o1) (after b2 o2).
Proof.
  intros Hb (Ho & Hs & Ht).
  destruct o1 as [[r1 s1] t1], o2 as [[r2 s2] t2].
  unfold alike, outcome, final_state, trace in *. cbn [after fst snd] in *.
  rewrite !map_app, Hb, Ht. auto.
Qed.

Lemma same_test_113 i :
  manual args = false ->
  (Z.land (keys i) 255 =? 113) = (Z.land (key_at env i) 255 =? 113).
Proof.
  intros Hauto. pose proof (same_class i) as H. unfold key_class in H.
  rewrite Hauto in H. cbv zeta in H.
  destruct (Z.land (keys i) 255 =? 113), (Z.land (key_at env i) 255 =? 113);
    try reflexivity; discriminate H.
Qed.

Lemma same_tests_manual i :
  manual args = true ->
  (Z.land (keys i) 255 =? 27) = (Z.land (key_at env i) 255 =? 27)
  /\ ((Z.land (keys i) 255 =? 27) = false ->
      (Z.land (keys i) 255 =? 32) = (Z.land (key_at env i) 255 =? 32)).
Proof.
  intros Hman. pose proof (same_class i) as H. unfold key_class in H.
  rewrite Hman in H. cbv zeta in H.
  destruct (Z.land (keys i) 255 =? 27), (Z.land (key_at env i) 255 =? 27),
    (Z.land (keys i) 255 =? 32), (Z.land (key_at env i) 255 =? 32);
    try (split; [reflexivity|intros; try reflexivity; discriminate]);
    discriminate H.
Qed.

Lemma countdown_keys fuel :
  manual args = false ->
  forall start s,
    alike args (countdown (with_keys env keys) args fuel start s)
      (countdown env args fuel start s).
Proof.
  intros Hauto. induction fuel as [|fuel IH]; intros start s;
    [apply alike_refl|].
  rewrite !countdown_S. cbv zeta.
  cbn [time_at key_at cam_read with_keys].
  destruct (frame s) as [image|]; [|apply alike_refl].
  destruct (_ <=? 0); [apply alike_refl|].
  rewrite (same_test_113 (n_keys s) Hauto).
  destruct (_ =? 113).
  { unfold alike, outcome, final_state, trace. cbn [fst snd map classify_poll].
    rewrite same_class. auto. }
  match goal with |- context [countdown env args fuel start ?x] =>
    specialize (IH start x);
    destruct (countdown (with_keys env keys) args fuel start x)
      as [[r1 s1] t1];
    destruct (countdown env args fuel start x) as [[r2 s2] t2] end.
  destruct IH as (Ho & Hs & Ht).
  unfold alike, outcome, final_state, trace in *. cbn [fst snd] in *.
  subst r2 s2. repeat split.
  rewrite !map_app, Ht. f_equal.
  unfold tick_events. cbn [map classify_poll]. rewrite same_class.
  destruct (is_some _); reflexivity.
Qed.

Lemma main_loop_keys fuel : forall s,
  alike args (main_loop (with_keys env keys) args fuel s)
    (main_loop env args fuel s).
Proof.
  induction fuel as [|fuel IH]; intros s; rewrite !main_loop_eq;
    destruct (img_index s <=? count args); try apply alike_refl.
  rewrite !loop_body_eq. cbv zeta. cbn [cam_read with_keys].
  destruct (cam_read env (n_reads s)) as [image|].
  2:{ apply alike_after; [reflexivity|apply IH]. }
  destruct (manual args) eqn:Hman.
  - rewrite !manual_step_eq. cbv zeta. cbn [key_at with_keys].
    destruct (same_tests_manual
                (n_keys (set_frame (Some image) (count_read s))) Hman)
      as [H27 H32].
    cbn [n_keys set_frame count_read] in *. rewrite <- H27.
    destruct (Z.land (keys (n_keys s)) 255 =? 27) eqn:E27.
    { unfold alike, outcome, final_state, trace.
      cbn [after fst snd app map classify_poll]. rewrite same_class. auto. }
    rewrite <- (H32 eq_refl).
    destruct (Z.land (keys (n_keys s)) 255 =? 32); cbn [after];
      (apply alike_after; [|apply IH]);
      cbn [app map classify_poll]; rewrite same_class; reflexivity.
  - rewrite !automatic_step_eq. cbn [time_at with_keys].
    match goal with |- context [countdown env args fuel ?st ?x] =>
      pose proof (countdown_keys fuel Hman st x) as C;
      destruct (countdown (with_keys env keys) args fuel st x)
        as [[r1 s1] t1];
      destruct (countdown env args fuel st x) as [[r2 s2] t2] end.
    destruct C as (Ho & Hs & Ht).
    unfold outcome, final_state, trace in Ho, Hs, Ht. cbn [fst snd] in *.
    subst r2 s2.
    destruct r1 as [[]|e|];
      try (unfold alike, outcome, final_state, trace;
           cbn [after fst snd app map]; rewrite Ht; auto; fail).
    change (final_capture (with_keys env keys) args s1)
      with (final_capture env args s1).
    destruct (final_capture env args s1) as [[[[]|e|] s3] t3];
      cbn [after];
      try (unfold alike, outcome, final_state, trace;
           cbn [after fst snd app map]; rewrite !map_app, Ht; auto; fail).
    apply alike_after; [|apply IH].
    cbn [app map]. rewrite !map_app, Ht. reflexivity.
Qed.

Lemma run_keys fuel :
  alike args (run (with_keys env keys) args fuel) (run env args fuel).
Proof.
  unfold run. rewrite !main_eq.
  change (initialize (with_keys env keys) args initial_state)
    with (initialize env args initial_state).
  destruct (initialize env args initial_state) as [[[[]|e|] s1] t1];
    try apply alike_refl.
  apply alike_after; [reflexivity|].
  rewrite !guarded_loop_eq.
  pose proof (main_loop_keys fuel (set_img_index 1 s1)) as L.
  destruct (main_loop (with_keys env keys) args fuel _) as [[r2 s2] t2].
  destruct (main_loop env args fuel _) as [[r3 s3] t3].
  destruct L as (Ho & Hs & Ht).
  unfold alike, outcome, final_state, trace in *. cbn [fst snd] in *.
  subst r3 s3.
  destruct r2 as [[]|[]|]; cbn [fst snd]; rewrite ?map_app, Ht; auto.
Qed.

End Keys.

Lemma write_calls_classified args t :
  write_calls (map (classify_poll args) t) = write_calls t.
Proof.
  induction t as [|e t IH]; [reflexivity|].
  destruct e; cbn; rewrite ?IH; reflexivity.
Qed.

(** X17. The script looks at the low byte of what a poll returns, and there
    only at ESC and SPACE in manual mode and at [q] in automatic mode.  Two
    keyboards whose values fall in the same classes at every poll give the
    same run: the same outcome, the same final state, the same actions in
    the same order (but for the values the polls log), and so the same
    files. *)
Theorem X17_only_the_key_class_counts env args keys fuel :
  (forall i, key_class args (keys i) = key_class args (key_at env i)) ->
  outcome (run (with_keys env keys) args fuel) = outcome (run env args fuel)
  /\ final_state (run (with_keys env keys) args fuel)
     = final_state (run env args fuel)
  /\ map (classify_poll args) (trace (run (with_keys env keys) args fuel))
     = map (classify_poll args) (trace (run env args fuel))
  /\ write_calls (trace (run (with_keys env keys) args fuel))
     = write_calls (trace (run env args fuel)).
Proof.
  intros H. destruct (run_keys env args keys H fuel) as (Ho & Hs & Ht).
  repeat split; try assumption.
  rewrite <- (write_calls_classified args (trace (run (with_keys env keys) _ _))),
    Ht.
  apply write_calls_classified.
Qed.

(** A cursor key (65361, low byte 81) counts as no key, and 1048603, ESC
    with a bit above the low byte, counts as ESC. *)
Lemma X17_only_the_key_class_counts_witness :
  (forall i,
     key_class manual_args (modifier_keys i)
     = key_class manual_args (key_at (with_keys nominal_env idle_then_esc) i))
  /\ outcome (run (with_keys (with_keys nominal_env idle_then_esc) modifier_keys)
                manual_args 5)
     = outcome (run (with_keys nominal_env idle_then_esc) manual_args 5)
  /\ outcome (run (with_keys nominal_env idle_then_esc) manual_args 5) = Ret tt.
Proof.
  assert (H : forall i,
            key_class manual_args (modifier_keys i)
            = key_class manual_args
                (key_at (with_keys nominal_env idle_then_esc) i))
    by (intros [|i]; reflexivity).
  split; [exact H|]. split; [|reflexivity].
  exact (proj1 (X17_only_the_key_class_counts
                  (with_keys nominal_env idle_then_esc)
                  manual_args modifier_keys 5 H)).
Defined.

(** ** The line that reports a capture *)

Lemma report_justified_mono h h' e :
  report_justified h e -> report_justified (h ++ h')%list e.
Proof.
  destruct e; try (intros; exact I).
  destruct h as [|x h]; cbn [report_justified app].
  - intros H Hp. destruct (H Hp).
  - exact id.
Qed.

Lemma report_follows_mono e r r' :
  report_follows e r -> report_follows e (r ++ r')%list.
Proof.
  destruct e; try (intros; exact I).
  intros (rest' & ->). eexists. reflexivity.
Qed.

Lemma reports_in_place_app t1 t2 :
  reports_in_place t1 -> reports_in_place t2 -> reports_in_place (t1 ++ t2).
Proof.
  intros [A1 B1] [A2 B2]. split.
  - apply each_after_app; auto using report_justified_mono.
  - apply each_before_app; auto using report_follows_mono.
Qed.

Ltac reports :=
  unfold reports_in_place, capture_events, discard_events, loop_read_warning,
    final_read_warning, cleanup_events, captured_line, starting_line,
    mkdir_error_line, camera_error_line;
  cbn [each_after each_before report_justified report_follows app map seq
       starts_with append];
  repeat split;
  try (eexists; reflexivity);
  try (let X := fresh in intros X; cbv in X; discriminate X);
  try (intros _; reflexivity).

Lemma main_loop_reports env args fuel s :
  reports_in_place (trace (main_loop env args fuel s)).
Proof.
  unfold trace.
  apply (main_loop_shape env args reports_in_place);
    try (intros; reports; fail).
  - intros t1 t2. apply reports_in_place_app.
  - intros. unfold tick_events. destruct r; reports.
Qed.

Lemma run_reports env args fuel :
  reports_in_place (trace (run env args fuel)).
Proof.
  destruct (init_ok_dec env args) as [Hok|Hno].
  - rewrite (run_init_ok env args fuel Hok), guarded_loop_eq.
    pose proof (main_loop_reports env args fuel (loop_start args)) as L.
    assert (I : reports_in_place (init_events env args)).
    { unfold init_events, setup_events, warmup_events.
      destruct (skip_warmup args); reports. }
    unfold trace in *.
    destruct (main_loop env args fuel (loop_start args)) as [[[[]|[]|] s1] t1];
      cbn [after snd] in *;
      repeat (apply reports_in_place_app; try assumption); reports.
  - unfold run. rewrite main_eq, initialize_eq.
    destruct (mkdir_parents_exist_ok _ _) eqn:Hmk; [reports|].
    destruct (camera_opens env) eqn:Hc; [|reports].
    exfalso. apply Hno. split; assumption.
Qed.

(** X18. The line [Captured <path>] reports the call, not the file.  Every
    [imwrite] call is followed at once by the line [Captured] with the path
    of the call, also when the call returned [False] and no file was
    written; and a line that starts with [Captured ] is printed only there,
    right after the call whose path it gives. *)
Theorem X18_captured_line_follows_every_write env args fuel :
  (forall pre filename image ok post,
     trace (run env args fuel)
     = (pre ++ EWrite filename image ok :: post)%list ->
     exists post', post = EPrint ("Captured " ++ filename) :: post')
  /\ (forall pre line post,
        trace (run env args fuel) = (pre ++ EPrint line :: post)%list ->
        starts_with "Captured " line = true ->
        exists pre' filename image ok,
          pre = (pre' ++ [EWrite filename image ok])%list
          /\ line = "Captured " ++ filename).
Proof.
  destruct (run_reports env args fuel) as [A B]. split.
  - intros pre filename image ok post E. rewrite E in B.
    exact (each_before_split report_follows pre _ _ B).
  - intros pre line post E Hp. rewrite E in A.
    apply each_after_split in A. rewrite app_nil_r in A.
    cbn [report_justified] in A. specialize (A Hp).
    destruct (rev pre) as [|x r] eqn:R; [contradiction|].
    destruct x; try contradiction.
    exists (rev r), filename, image, ok. split.
    + rewrite <- (rev_involutive pre), R. reflexivity.
    + unfold captured_line in A. injection A as ->. reflexivity.
Qed.

(** The write that fails in [full_disk_env] is reported like any other. *)
Lemma X18_captured_line_follows_every_write_witness :
  trace (run full_disk_env one_manual_shot 2)
  = (firstn 13 (trace (run full_disk_env one_manual_shot 2))
     ++ EWrite "captured_images/image_001_20240517_093000.jpg"
          {| pixels := 5;
             overlay := [("Manual capture 1/1 - SPACE to capture, ESC to quit",
                          (10, 30))] |}
          false
        :: skipn 14 (trace (run full_disk_env one_manual_shot 2)))%list
  /\ written_files (trace (run full_disk_env one_manual_shot 2)) = []
  /\ exists post',
       skipn 14 (trace (run full_disk_env one_manual_shot 2))
       = EPrint "Captured captured_images/image_001_20240517_093000.jpg"
         :: post'.
Proof.
  assert (H : trace (run full_disk_env one_manual_shot 2)
              = (firstn 13 (trace (run full_disk_env one_manual_shot 2))
                 ++ EWrite "captured_images/image_001_20240517_093000.jpg"
                      {| pixels := 5;
                         overlay := [("Manual capture 1/1 - SPACE to capture, ESC to quit",
                                      (10, 30))] |}
                      false
                    :: skipn 14 (trace (run full_disk_env one_manual_shot 2)))%list)
    by (vm_compute; reflexivity).
  split; [exact H|]. split; [reflexivity|].
  exact (proj1 (X18_captured_line_follows_every_write full_disk_env
                  one_manual_shot 2) _ _ _ _ _ H).
Defined.

(** ** The flag of a write *)

Section Writes.

Variable env : Env.
Variable args : Args.
Variable oks : nat -> bool.

Lemma same_but_flags_refl {A} (o : result A * State * list event) :
  same_but_flags o o.
Proof. repeat split. Qed.

Lemma same_but_flags_after {A} b1 b2 (o1 o2 : result A * State * list event) :
  map hide_write_flag b1 = map hide_write_flag b2 ->
  same_but_flags o1 o2 -> same_but_flags (after b1 o1) (after b2 o2).
Proof.
  intros Hb (Ho & Hs & Ht).
  destruct o1 as [[r1 s1] t1], o2 as [[r2 s2] t2].
  unfold same_but_flags, outcome, final_state, trace in *.
  cbn [after fst snd] in *. rewrite !map_app, Hb, Ht. auto.
Qed.

(** The countdown does not write. *)
Lemma countdown_writes fuel : forall start s,
  countdown (with_writes env oks) args fuel start s
  = countdown env args fuel start s.
Proof.
  induction fuel as [|fuel IH]; intros start s; [reflexivity|].
  rewrite !countdown_S. cbv zeta. cbn [time_at key_at cam_read with_writes].
  destruct (frame s); [|reflexivity].
  destruct (_ <=? 0); [reflexivity|].
  destruct (_ =? 113); [reflexivity|].
  rewrite IH. reflexivity.
Qed.

Lemma discard_events_writes n :
  discard_events (with_writes env oks) n = discard_events env n.
Proof. reflexivity. Qed.

Lemma capture_events_flags image s :
  map hide_write_flag (capture_events (with_writes env oks) args image s)
  = map hide_write_flag (capture_events env args image s).
Proof. reflexivity. Qed.

Lemma main_loop_writes fuel : forall s,
  same_but_flags (main_loop (with_writes env oks) args fuel s)
    (main_loop env args fuel s).
Proof.
  induction fuel as [|fuel IH]; intros s; rewrite !main_loop_eq;
    destruct (img_index s <=? count args); try apply same_but_flags_refl.
  rewrite !loop_body_eq. cbv zeta. cbn [cam_read with_writes].
  destruct (cam_read env (n_reads s)) as [image|].
  2:{ apply same_but_flags_after; [reflexivity|apply IH]. }
  destruct (manual args) eqn:Hman.
  - rewrite !manual_step_eq. cbv zeta. cbn [key_at with_writes].
    destruct (_ =? 27); [apply same_but_flags_refl|].
    destruct (_ =? 32); cbn [after];
      (apply same_but_flags_after; [|apply IH]); [|reflexivity].
    cbn [app map hide_write_flag]. rewrite !map_app, capture_events_flags.
    reflexivity.
  - rewrite !automatic_step_eq, countdown_writes. cbn [time_at with_writes].
    destruct (countdown env args fuel _ _) as [[[[]|e|] s1] t1];
      try apply same_but_flags_refl.
    unfold final_capture. cbn [cam_read with_writes].
    destruct (cam_read env (n_reads s1)) as [image1|]; cbn [after];
      (apply same_but_flags_after; [|apply IH]); [|reflexivity].
    cbn [app map hide_write_flag].
    rewrite !map_app. cbn [map hide_write_flag].
    rewrite !map_app, capture_events_flags. reflexivity.
Qed.

Lemma run_writes :
  forall fuel,
    same_but_flags (run (with_writes env oks) args fuel) (run env args fuel).
Proof.
  intros fuel. unfold run. rewrite !main_eq.
  change (initialize (with_writes env oks) args initial_state)
    with (initialize env args initial_state).
  destruct (initialize env args initial_state) as [[[[]|e|] s1] t1];
    try apply same_but_flags_refl.
  apply same_but_flags_after; [reflexivity|].
  rewrite !guarded_loop_eq.
  pose proof (main_loop_writes fuel (set_img_index 1 s1)) as L.
  destruct (main_loop (with_writes env oks) args fuel _) as [[r2 s2] t2].
  destruct (main_loop env args fuel _) as [[r3 s3] t3].
  destruct L as (Ho & Hs & Ht).
  unfold same_but_flags, outcome, final_state, trace in *. cbn [fst snd] in *.
  subst r3 s3.
  destruct r2 as [[]|[]|]; cbn [fst snd]; rewrite ?map_app, Ht; auto.
Qed.

End Writes.

Lemma write_paths_flags t :
  map fst (write_calls (map hide_write_flag t)) = map fst (write_calls t).
Proof.
  induction t as [|e t IH]; [reflexivity|].
  destruct e; cbn; rewrite ?IH; reflexivity.
Qed.

(** X19. The script never looks at what [cv2.imwrite] returns.  Whether the
    write calls succeed or fail, the run is the same: the same outcome, the
    same final state (the index included), the same actions in the same
    order with the same paths and images; only the flags of the write calls
    differ. *)
Theorem X19_imwrite_result_is_ignored env args oks fuel :
  outcome (run (with_writes env oks) args fuel) = outcome (run env args fuel)
  /\ final_state (run (with_writes env oks) args fuel)
     = final_state (run env args fuel)
  /\ map hide_write_flag (trace (run (with_writes env oks) args fuel))
     = map hide_write_flag (trace (run env args fuel))
  /\ map fst (write_calls (trace (run (with_writes env oks) args fuel)))
     = map fst (write_calls (trace (run env args fuel)))
  /\ map snd (write_calls (trace (run (with_writes env oks) args fuel)))
     = map oks (seq 0 (List.length
                         (write_calls (trace (run env args fuel))))).
Proof.
  destruct (run_writes env args oks fuel) as (Ho & Hs & Ht).
  assert (Hp : map fst (write_calls (trace (run (with_writes env oks) args fuel)))
               = map fst (write_calls (trace (run env args fuel)))).
  { rewrite <- (write_paths_flags (trace (run (with_writes env oks) _ _))), Ht.
    apply write_paths_flags. }
  repeat split; try assumption.
  assert (Hl : List.length (write_calls (trace (run env args fuel)))
               = List.length
                   (write_calls (trace (run (with_writes env oks) args fuel)))).
  { rewrite <- (length_map fst), <- Hp, length_map. reflexivity. }
  rewrite Hl.
  destruct (init_ok_dec (with_writes env oks) args) as [Hok|Hno].
  - destruct (run (with_writes env oks) args fuel) as [[r s] t] eqn:R.
    destruct (run_accounted _ _ _ _ _ _ Hok R) as (k & _ & Hw & _).
    unfold trace. cbn [snd]. rewrite Hw, length_expected_writes.
    unfold expected_writes. rewrite map_map. reflexivity.
  - destruct (run_init_failed _ _ fuel Hno) as (t & -> & Hw).
    unfold trace. cbn [snd]. rewrite Hw. reflexivity.
Qed.

(** A full disk changes nothing but the flags. *)
Example full_disk_changes_nothing :
  map hide_write_flag
    (trace (run (with_writes nominal_env (fun _ => false)) default_args 10))
  = trace (run nominal_env default_args 10)
  /\ written_files
       (trace (run (with_writes nominal_env (fun _ => false)) default_args 10))
     = []
  /\ img_index
       (final_state
          (run (with_writes nominal_env (fun _ => false)) default_args 10))
     = 6.
Proof. vm_compute. repeat split. Qed.

(** ** Failed reads without a countdown *)

(** With a delay that is not positive and a clock that does not run
    backwards, a countdown that has a frame ends in its first turn. *)
Lemma countdown_at_once env args fuel k s image :
  delay args <= 0 -> clock_monotone env ->
  frame s = Some image -> (k <= n_times s)%nat ->
  exists shown,
    countdown env args (S fuel) (time_at env k) s
    = (Ret tt, count_time s, [EShow shown]).
Proof.
  intros Hd Hm Hf Hk. rewrite countdown_S, Hf. cbv zeta.
  pose proof (elapsed_seconds_nonneg env k (n_times s) Hm Hk) as He.
  destruct (_ <=? 0) eqn:E; [eexists; reflexivity|].
  apply Z.leb_gt in E. lia.
Qed.

(** One pass without countdown: it takes the image, or it fails at a read
    and has used that read up. *)
Lemma pass_without_delay env args s :
  manual args = false -> delay args <= 0 -> clock_monotone env ->
  img_index s <= count args ->
  exists s',
    (n_reads s < n_reads s')%nat
    /\ (img_index s' = img_index s + 1
        \/ (img_index s' = img_index s
            /\ exists i, (n_reads s <= i < n_reads s')%nat
                         /\ cam_read env i = None))
    /\ forall fuel,
         same_end (main_loop env args (S (S fuel)) s)
           (main_loop env args (S fuel) s').
Proof.
  intros Hauto Hd Hm Hle. apply Z.leb_le in Hle.
  destruct (cam_read env (n_reads s)) as [image|] eqn:Hr.
  - set (s0 := set_frame (Some image) (count_read s)).
    destruct (cam_read env (S (n_reads s))) as [image1|] eqn:Hr1.
    + eexists. split; [|split].
      3:{ intros fuel. rewrite main_loop_eq, Hle, loop_body_eq. cbv zeta.
          rewrite Hr, Hauto, automatic_step_eq. fold s0.
          destruct (countdown_at_once env args fuel (n_times s0)
                      (count_time s0) image Hd Hm eq_refl)
            as (shown & ->); [cbn; lia|].
          unfold final_capture.
          cbn [n_reads count_time s0 set_frame count_read]. rewrite Hr1.
          cbn [after]. apply same_end_after. }
      * cbn. lia.
      * left. reflexivity.
    + eexists. split; [|split].
      3:{ intros fuel. rewrite main_loop_eq, Hle, loop_body_eq. cbv zeta.
          rewrite Hr, Hauto, automatic_step_eq. fold s0.
          destruct (countdown_at_once env args fuel (n_times s0)
                      (count_time s0) image Hd Hm eq_refl)
            as (shown & ->); [cbn; lia|].
          unfold final_capture.
          cbn [n_reads count_time s0 set_frame count_read]. rewrite Hr1.
          cbn [after]. apply same_end_after. }
      * cbn. lia.
      * right. split; [reflexivity|].
        exists (S (n_reads s)). split; [cbn; lia|exact Hr1].
  - eexists. split; [|split].
    3:{ intros fuel. rewrite main_loop_eq, Hle, loop_body_eq. cbv zeta.
        rewrite Hr. apply same_end_after. }
    + cbn. lia.
    + right. split; [reflexivity|].
      exists (n_reads s). split; [cbn; lia|exact Hr].
Qed.

(** Without countdown the loop returns as soon as the camera has
    recovered. *)
Lemma loop_without_delay_returns env args bound :
  manual args = false -> delay args <= 0 -> clock_monotone env ->
  (forall i, (bound <= i)%nat -> cam_read env i <> None) ->
  forall (m : nat) s,
    Z.of_nat (bound - n_reads s) + (count args + 1 - img_index s)
    <= Z.of_nat m ->
    exists N, forall extra,
      outcome (main_loop env args (N + S extra) s) = Ret tt.
Proof.
  intros Hauto Hd Hm Hrec.
  induction m as [|m IH]; intros s Hs.
  - exists 0%nat. intros extra. rewrite main_loop_eq.
    destruct (_ <=? _) eqn:E; [apply Z.leb_le in E; lia|reflexivity].
  - destruct (Z.leb_spec (img_index s) (count args)) as [Hle|Hgt].
    + destruct (pass_without_delay env args s Hauto Hd Hm Hle)
        as (s' & Hreads & Hstep & Hpass).
      destruct (IH s') as (N & HN).
      { destruct Hstep as [Hi|(Hi & i & Hrange & Hnone)]; [lia|].
        assert (i < bound)%nat.
        { destruct (Nat.lt_ge_cases i bound) as [Hlt|Hge]; [exact Hlt|].
          destruct (Hrec i Hge Hnone). }
        lia. }
      exists (S N). intros extra.
      replace (S N + S extra)%nat with (S (S (N + extra))) by lia.
      rewrite (proj1 (Hpass (N + extra)%nat)).
      replace (S (N + extra)) with (N + S extra)%nat by lia.
      apply HN.
    + exists 0%nat. intros extra. rewrite main_loop_eq.
      destruct (_ <=? _) eqn:E; [apply Z.leb_le in E; lia|reflexivity].
Qed.

(** X20. Without a countdown no failed read stops the run.  In automatic
    mode with a delay that is not positive and a clock that does not run
    backwards, when the initialization passes and the camera fails only
    finitely often (at whatever reads: of the warm-up, of the loop, final or
    discarded), the run returns, with enough fuel and with any more, having
    made exactly [N] captures for the indices 1 to [N] in this order. *)
Theorem X20_failed_reads_are_survived_without_delay env args :
  manual args = false ->
  delay args <= 0 ->
  clock_monotone env ->
  init_ok env args ->
  1 <= count args ->
  camera_recovers env ->
  exists enough, forall extra,
    let o := run env args (enough + extra) in
    outcome o = Ret tt
    /\ map fst (write_calls (trace o))
       = map (documented_filename env args) (seq 1 (Z.to_nat (count args)))
    /\ img_index (final_state o) = count args + 1.
Proof.
  intros Hauto Hd Hm Hok Hcount (bound & Hrec).
  destruct (loop_without_delay_returns env args bound Hauto Hd Hm Hrec
              (bound + Z.to_nat (count args)) (loop_start args)) as (N & HN).
  { change (img_index (loop_start args)) with 1. lia. }
  exists (S N). intros extra. cbv zeta.
  replace (S N + extra)%nat with (N + S extra)%nat by lia.
  specialize (HN extra). set (fuel := (N + S extra)%nat) in *.
  pose proof (automatic_loop_exit env args fuel (loop_start args) Hauto HN)
    as Hx.
  destruct (run_of_loop env args fuel Hok HN) as [Ro Rs].
  split; [exact Ro|].
  destruct (run env args fuel) as [[r s] t] eqn:R.
  destruct (run_accounted env args fuel r s t Hok R) as (k & Hk & Ht & _ & Hb).
  unfold final_state, trace in *. cbn [fst snd] in *.
  rewrite <- Rs, Hk in Hx.
  assert (Ek : k = Z.to_nat (count args)) by lia.
  split; [|lia].
  rewrite Ht, expected_writes_paths, <- Ek.
  apply map_ext. intros i. apply nth_filename_documented.
Qed.

Lemma flaky_camera_recovers : camera_recovers flaky_camera_env.
Proof.
  exists 30%nat. intros i Hi. cbn [cam_read flaky_camera_env].
  destruct (i <? 30)%nat eqn:E; [apply Nat.ltb_lt in E; lia|].
  discriminate.
Defined.

(** Ten reads of the first thirty fail, and the two images are taken. *)
Lemma X20_failed_reads_are_survived_without_delay_witness :
  manual two_shots_args = false
  /\ delay two_shots_args <= 0
  /\ clock_monotone flaky_camera_env
  /\ init_ok flaky_camera_env two_shots_args
  /\ 1 <= count two_shots_args
  /\ camera_recovers flaky_camera_env
  /\ exists enough, forall extra,
       outcome (run flaky_camera_env two_shots_args (enough + extra)) = Ret tt
       /\ img_index
            (final_state (run flaky_camera_env two_shots_args (enough + extra)))
          = 3.
Proof.
  assert (H1 : manual two_shots_args = false) by reflexivity.
  assert (H2 : delay two_shots_args <= 0) by (cbn; lia).
  assert (H3 : clock_monotone flaky_camera_env)
    by (intros k; cbn [time_at flaky_camera_env]; unfold ticks_per_second; lia).
  assert (H4 : init_ok flaky_camera_env two_shots_args) by (split; reflexivity).
  assert (H5 : 1 <= count two_shots_args) by (cbn; lia).
  destruct (X20_failed_reads_are_survived_without_delay flaky_camera_env
              two_shots_args H1 H2 H3 H4 H5 flaky_camera_recovers)
    as (enough & He).
  split; [exact H1|]. split; [exact H2|]. split; [exact H3|].
  split; [exact H4|]. split; [exact H5|].
  split; [exact flaky_camera_recovers|].
  exists enough. intros extra. destruct (He extra) as (Ho & _ & Hi).
  split; [exact Ho|exact Hi].
Defined.

(** What that run wrote, and how many reads had failed on the way. *)
Example flaky_camera_run :
  written_files (trace (run flaky_camera_env two_shots_args 20))
  = ["captured_images/image_001_20240517_093000.jpg";
     "captured_images/image_002_20240517_093001.jpg"]
  /\ List.length
       (filter (fun e => match e with ERead _ false => true | _ => false end)
          (trace (run flaky_camera_env two_shots_args 20)))
     = 10%nat.
Proof. vm_compute. split; reflexivity. Qed.
